(** * Nitro: reconciliation and provisioning engine

    A shallow embedding of the Go sources

      - [command/apply/internal/sitecontainer/sitecontainer.go]
        ([StartOrCreate], [create]),
      - [command/initialize/initialize.go] (the [RunE] closure of [NewCommand]),
      - the composer command (the [RunE] closure of [NewCommand], and [name]),

    over a model of the container runtime they talk to.  Every request the
    programs send to the runtime is recorded, so that statements such as
    "no container is created" are statements about the list of issued calls. *)

From Stdlib Require Import Ascii String.
From stdpp Require Import gmap strings list fin_maps pretty stringmap.

Open Scope string_scope.
Open Scope list_scope.
Open Scope stdpp_scope.

(** ** Go values: results, strings *)

Module Go.

(** The outcome of a Go function returning [(T, error)]: a value, an error
  (identified by its message), a run-time panic, or a loop that did not
  finish within the fuel it was given. *)
Inductive Result (A : Type) : Type :=
| Ok (a : A)
| Err (msg : string)
| Panic (msg : string)
| Diverge.
Arguments Ok {A} a.
Arguments Err {A} msg.
Arguments Panic {A} msg.
Arguments Diverge {A}.

Definition is_ok {A} (x : Result A) : bool :=
match x with Ok _ => true | _ => false end.

Definition is_err {A} (x : Result A) : bool :=
match x with Err _ => true | _ => false end.

(** Characters of a string, and back. *)
Fixpoint chars (s : string) : list ascii :=
match s with
| EmptyString => []
| String c s' => c :: chars s'
end.

Fixpoint of_chars (l : list ascii) : string :=
match l with
| [] => EmptyString
| c :: l' => String c (of_chars l')
end.

Fixpoint map_string (f : ascii -> ascii) (s : string) : string :=
match s with
| EmptyString => EmptyString
| String c s' => String (f c) (map_string f s')
end.

Definition is_upper (c : ascii) : bool :=
let n := nat_of_ascii c in (65 <=? n)%nat && (n <=? 90)%nat.

Definition lower_char (c : ascii) : ascii :=
if is_upper c then ascii_of_nat (nat_of_ascii c + 32) else c.

(** [strings.ToLower] on ASCII text: the letters A-Z are mapped to a-z and
  every other byte is kept. *)
Definition ToLower (s : string) : string := map_string lower_char s.

(** [strings.Replace(s, string(old), string(new), -1)] for one-character
  [old] and [new]: every occurrence is replaced. *)
Definition ReplaceAll (old new : ascii) (s : string) : string :=
map_string (fun c => if Ascii.eqb c old then new else c) s.

(** [strings.TrimLeft(s, string(cut))] for a one-character cutset. *)
Fixpoint TrimLeft (cut : ascii) (s : string) : string :=
match s with
| String c s' => if Ascii.eqb c cut then TrimLeft cut s' else s
| EmptyString => EmptyString
end.

(** [strings.Contains(s, sub)]. *)
Definition Contains (s sub : string) : bool :=
match String.index 0 sub s with Some _ => true | None => false end.

(** The last element of [strings.Split(s, string(sep))]: the text after
  the last occurrence of [sep], or all of [s] when there is none.  [acc]
  holds the field read so far. *)
Fixpoint last_field (sep : ascii) (acc s : string) : string :=
match s with
| EmptyString => acc
| String c s' =>
    if Ascii.eqb c sep then last_field sep EmptyString s'
    else last_field sep (acc +:+ String c EmptyString) s'
end.

(** [strings.SplitN(s, string(sep), 2)]: the text before the first [sep]
  and, when there is one, the text after it. *)
Fixpoint cut (sep : ascii) (s : string) : string * option string :=
match s with
| EmptyString => (EmptyString, None)
| String c s' =>
    if Ascii.eqb c sep then (EmptyString, Some s')
    else let '(a, b) := cut sep s' in (String c a, b)
end.

End Go.
Export Go.

(** ** The container runtime

    The programs below reach the runtime only through the methods of
    [client.CommonAPIClient].  The runtime is modelled as a state (networks,
    volumes, images, containers, exec sessions) on which every method acts;
    any request may also fail with a transport error, as decided by the
    [faults] the state carries. *)

Module Docker.

(** [filters.Args]: the (key, value) pairs added with [Add]. *)
Definition Args := list (string * string).

Definition NewArgs : Args := [].
Definition Add (f : Args) (k v : string) : Args := f ++ [(k, v)].
Definition Del (f : Args) (k v : string) : Args :=
filter (fun kv => kv ≠ (k, v)) f.
Definition values (f : Args) (k : string) : list string :=
snd <$> filter (fun kv => kv.1 = k) f.

Record Mount := { mType : string; Source : string; Target : string }.

Record PortBinding := { HostIP : string; HostPort : string }.

(** What [ContainerCreate] is given: the fields of [container.Config],
  [container.HostConfig] and [network.NetworkingConfig] that the programs
  set, and the container name. *)
Record CreateSpec := {
Image : string;
Cmd : list string;
Env : list string;
Labels : gmap string string;
ExposedPorts : gset string;
NetworkMode : string;
Mounts : list Mount;
ExtraHosts : list string;
PortBindings : gmap string (list PortBinding);
EndpointsConfig : gmap string string;
Name : string
}.

(** A container as the runtime reports it, by [ContainerList]
  ([types.Container]) and by [ContainerInspect] ([types.ContainerJSON]). *)
Record Container := {
ID : string;
Names : list string;
State : string;
Spec : CreateSpec
}.

Record Network := { nName : string; nID : string; nLabels : gmap string string }.

Record Volume := { vName : string; vDriver : string; vLabels : gmap string string }.

(** The zero value of [types.Volume]. *)
Definition zero_Volume : Volume :=
{| vName := EmptyString; vDriver := EmptyString; vLabels := ∅ |}.

Record ExecConfig := {
User : string; AttachStdout : bool; AttachStderr : bool; Tty : bool;
ExecCmd : list string
}.

(** An exec session: [polls] is the number of status requests that will
  still report it as running. *)
Record Exec := { eID : string; eContainer : string; eConfig : ExecConfig; polls : nat }.

(** A single-file archive, as built by [archive.Generate]. *)
Record Archive := { fileName : string; fileContent : string }.

(** A handle on an output stream: of an image pull, of an exec session, or
  of a container. *)
Inductive Stream := PullOutput (ref : string) | ExecOutput (exec : string) | ContainerOutput (id : string).

(** The requests a program can send. *)
Inductive Call :=
| NetworkList (f : Args)
| NetworkCreate (name driver : string) (attachable : bool) (labels : gmap string string)
| VolumeList (f : Args)
| VolumeCreate (name driver : string) (labels : gmap string string)
| ImageList (f : Args)
| ImagePull (ref : string)
| ReadStream (s : Stream)
| ContainerList (all : bool) (f : Args)
| ContainerInspect (id : string)
| ContainerStop (id : string)
| ContainerRemove (id : string)
| ContainerCreate (spec : CreateSpec)
| ContainerStart (id : string)
| ContainerAttach (id : string)
| CopyToContainer (id path : string) (content : Archive)
| ContainerExecCreate (id : string) (cfg : ExecConfig)
| ContainerExecAttach (exec : string)
| ContainerExecStart (exec : string)
| ContainerExecInspect (exec : string).

(** The state of the world a command runs in.  [containers] is kept newest
  first, the order in which the runtime lists them.  [retired] holds the
  ids of removed containers: the runtime never hands out an id twice.
  [faults] decides, request by request, which ones fail in transit;
  [latency] is how many status polls a new exec session stays running;
  [seeds] drives the order of each Go [range] over a map. *)
Record World := {
networks : list Network;
volumes : list Volume;
images : list string;
containers : list Container;
execs : list Exec;
retired : list string;
faults : list bool;
latency : nat;
seeds : list nat
}.

Definition set_networks (w : World) x : World :=
{| networks := x; volumes := volumes w; images := images w; containers := containers w;
   execs := execs w; retired := retired w; faults := faults w; latency := latency w;
   seeds := seeds w |}.
Definition set_volumes (w : World) x : World :=
{| networks := networks w; volumes := x; images := images w; containers := containers w;
   execs := execs w; retired := retired w; faults := faults w; latency := latency w;
   seeds := seeds w |}.
Definition set_images (w : World) x : World :=
{| networks := networks w; volumes := volumes w; images := x; containers := containers w;
   execs := execs w; retired := retired w; faults := faults w; latency := latency w;
   seeds := seeds w |}.
Definition set_containers (w : World) x : World :=
{| networks := networks w; volumes := volumes w; images := images w; containers := x;
   execs := execs w; retired := retired w; faults := faults w; latency := latency w;
   seeds := seeds w |}.
Definition set_execs (w : World) x : World :=
{| networks := networks w; volumes := volumes w; images := images w; containers := containers w;
   execs := x; retired := retired w; faults := faults w; latency := latency w;
   seeds := seeds w |}.
Definition set_retired (w : World) x : World :=
{| networks := networks w; volumes := volumes w; images := images w; containers := containers w;
   execs := execs w; retired := x; faults := faults w; latency := latency w;
   seeds := seeds w |}.
Definition set_faults (w : World) x : World :=
{| networks := networks w; volumes := volumes w; images := images w; containers := containers w;
   execs := execs w; retired := retired w; faults := x; latency := latency w;
   seeds := seeds w |}.
Definition set_seeds (w : World) x : World :=
{| networks := networks w; volumes := volumes w; images := images w; containers := containers w;
   execs := execs w; retired := retired w; faults := faults w; latency := latency w;
   seeds := x |}.

(** What a run leaves behind: its result, the world it ends in, and the
  requests it sent, oldest first. *)
Record Outcome (A : Type) := { result : Result A; final : World; issued : list Call }.
Arguments result {A} _.
Arguments final {A} _.
Arguments issued {A} _.

(** A Go function that talks to the runtime. *)
Definition M (A : Type) : Type := World -> Outcome A.

Definition ret {A} (a : A) : M A :=
fun w => {| result := Ok a; final := w; issued := [] |}.

Definition stop {A} (x : Result A) : M A :=
fun w => {| result := x; final := w; issued := [] |}.

Definition bind {A B} (m : M A) (k : A -> M B) : M B :=
fun w =>
  let o := m w in
  match result o with
  | Ok a =>
      let o' := k a (final o) in
      {| result := result o'; final := final o'; issued := issued o ++ issued o' |}
  | Err e => {| result := Err e; final := final o; issued := issued o |}
  | Panic e => {| result := Panic e; final := final o; issued := issued o |}
  | Diverge => {| result := Diverge; final := final o; issued := issued o |}
  end.

(** [if err != nil { return fmt.Errorf(prefix + "%w", err) }] *)
Definition wrap {A} (prefix : string) (m : M A) : M A :=
fun w =>
  let o := m w in
  match result o with
  | Err e => {| result := Err (prefix +:+ e); final := final o; issued := issued o |}
  | _ => o
  end.

(** [if err != nil { return fmt.Errorf(msg) }]: the cause is dropped. *)
Definition replace_err {A} (msg : string) (m : M A) : M A :=
fun w =>
  let o := m w in
  match result o with
  | Err _ => {| result := Err msg; final := final o; issued := issued o |}
  | _ => o
  end.

End Docker.
Export Docker.

Notation "'let*' x ':=' m 'in' k" := (bind m (fun x => k))
  (at level 10, x name, m at level 100, k at level 200).
Notation "'let*' ' x ':=' m 'in' k" := (bind m (fun x => k))
  (at level 10, x strict pattern, m at level 100, k at level 200).
Notation "'do' m 'then' k" := (bind m (fun _ => k))
  (at level 10, m at level 100, k at level 200).

(** ** The client: what each request does to the world *)

Module Client.

Definition transport_error : string := "request to the runtime failed".

(** The next fault flag, if there is one, decides whether a request is
  lost in transit; the flag is used up either way. *)
Definition lost (w : World) : bool :=
match faults w with
| b :: _ => b
| [] => false
end.

Definition after_fault (w : World) : World :=
match faults w with
| _ :: fs => set_faults w fs
| [] => w
end.

(** Sending a request: it is recorded; if it is not lost in transit the
  runtime serves it. *)
Definition request {A} (c : Call) (serve : World -> Result A * World) : M A :=
fun w =>
  if lost w then {| result := Err transport_error; final := after_fault w; issued := [c] |}
  else {| result := (serve (after_fault w)).1; final := (serve (after_fault w)).2;
          issued := [c] |}.

(** A label filter [k=v] holds when the label [k] is exactly [v]; a filter
  [k] holds when the label is present. *)
Definition label_holds (labels : gmap string string) (kv : string) : bool :=
match cut "=" kv with
| (k, Some v) => bool_decide (labels !! k = Some v)
| (k, None) => bool_decide (is_Some (labels !! k))
end.

Definition labels_hold (labels : gmap string string) (f : Args) : bool :=
forallb (label_holds labels) (values f "label").

(** A name filter is fuzzy: it holds of every name that contains the text
  asked for. *)
Definition name_holds (n : string) (f : Args) : bool :=
match values f "name" with
| [] => true
| vs => existsb (Contains n) vs
end.

Definition reference_holds (ref : string) (f : Args) : bool :=
match values f "reference" with
| [] => true
| vs => bool_decide (ref ∈ vs)
end.

Definition used_ids (w : World) : list string :=
(ID <$> containers w) ++ retired w ++ (nID <$> networks w) ++ (eID <$> execs w).

Definition new_id (w : World) : string := fresh (used_ids w).

Definition find_container (id : string) (w : World) : option Container :=
List.find (fun c => bool_decide (ID c = id)) (containers w).

Definition no_such (what id : string) : string := "No such " +:+ what +:+ ": " +:+ id.

Definition set_state (id st : string) (w : World) : World :=
set_containers w
  ((fun c => if bool_decide (ID c = id)
             then {| ID := ID c; Names := Names c; State := st; Spec := Spec c |}
             else c) <$> containers w).

(** If the container exists, do [f]; otherwise the runtime answers with an
  error. *)
Definition on_container {A} (id : string) (f : Container -> World -> Result A * World)
(w : World) : Result A * World :=
match find_container id w with
| Some c => f c w
| None => (Err (no_such "container" id), w)
end.

Definition find_exec (e : string) (w : World) : option Exec :=
List.find (fun x => bool_decide (eID x = e)) (execs w).

Definition networkList (f : Args) : M (list Network) :=
request (NetworkList f) (fun w =>
  (Ok (filter (fun n => name_holds (nName n) f && labels_hold (nLabels n) f) (networks w)), w)).

Definition networkCreate (name driver : string) (attachable : bool)
(labels : gmap string string) : M string :=
request (NetworkCreate name driver attachable labels) (fun w =>
  let id := new_id w in
  (Ok id, set_networks w (networks w ++ [{| nName := name; nID := id; nLabels := labels |}]))).

(** The volumes a query is answered with. *)
Definition listedVolumes (f : Args) (w : World) : list Volume :=
filter (fun v => name_holds (vName v) f && labels_hold (vLabels v) f) (volumes w).

Definition volumeList (f : Args) : M (list Volume) :=
request (VolumeList f) (fun w => (Ok (listedVolumes f w), w)).

(** Creating a volume whose name is taken returns the existing volume. *)
Definition volumeCreate (name driver : string) (labels : gmap string string) : M Volume :=
request (VolumeCreate name driver labels) (fun w =>
  match List.find (fun v => bool_decide (vName v = name)) (volumes w) with
  | Some v => (Ok v, w)
  | None =>
      let v := {| vName := name; vDriver := driver; vLabels := labels |} in
      (Ok v, set_volumes w (volumes w ++ [v]))
  end).

Definition imageList (f : Args) : M (list string) :=
request (ImageList f) (fun w =>
  (Ok (filter (fun ref => reference_holds ref f) (images w)), w)).

Definition imagePull (ref : string) : M Stream :=
request (ImagePull ref) (fun w =>
  (Ok (PullOutput ref),
   if bool_decide (ref ∈ images w) then w else set_images w (ref :: images w))).

(** Reading a stream to its end ([buf.ReadFrom], [stdcopy.StdCopy]).  The
  output of a container ends when its process does. *)
Definition readStream (s : Stream) : M unit :=
request (ReadStream s) (fun w =>
  match s with
  | ContainerOutput id => (Ok tt, set_state id "exited" w)
  | _ => (Ok tt, w)
  end).

(** The containers a query is answered with: the running ones, or all of
  them with [All], whose labels satisfy the filter. *)
Definition listed (all : bool) (f : Args) (w : World) : list Container :=
filter (fun c => (all || bool_decide (State c = "running"))
                 && labels_hold (Labels (Spec c)) f) (containers w).

Definition containerList (all : bool) (f : Args) : M (list Container) :=
request (ContainerList all f) (fun w => (Ok (listed all f w), w)).

Definition containerInspect (id : string) : M Container :=
request (ContainerInspect id) (on_container id (fun c w => (Ok c, w))).

Definition containerStop (id : string) : M unit :=
request (ContainerStop id) (on_container id (fun _ w => (Ok tt, set_state id "exited" w))).

(** A running container is not removed (no [Force] is asked for).  The id
  of a removed container is retired. *)
Definition containerRemove (id : string) : M unit :=
request (ContainerRemove id) (on_container id (fun c w =>
  if bool_decide (State c = "running")
  then (Err ("cannot remove a running container: " +:+ id), w)
  else (Ok tt, set_retired
                 (set_containers w (filter (fun c' => ID c' ≠ id) (containers w)))
                 (id :: retired w)))).

(** The new container gets an id never used before and is listed first. *)
Definition containerCreate (spec : CreateSpec) : M string :=
request (ContainerCreate spec) (fun w =>
  let id := new_id w in
  (Ok id, set_containers w
            ({| ID := id; Names := ["/" +:+ Name spec]; State := "created"; Spec := spec |}
             :: containers w))).

Definition containerStart (id : string) : M unit :=
request (ContainerStart id) (on_container id (fun _ w => (Ok tt, set_state id "running" w))).

Definition containerAttach (id : string) : M Stream :=
request (ContainerAttach id) (on_container id (fun _ w => (Ok (ContainerOutput id), w))).

Definition copyToContainer (id path : string) (content : Archive) : M unit :=
request (CopyToContainer id path content) (on_container id (fun _ w => (Ok tt, w))).

Definition containerExecCreate (id : string) (cfg : ExecConfig) : M string :=
request (ContainerExecCreate id cfg) (on_container id (fun _ w =>
  let e := new_id w in
  (Ok e, set_execs w ({| eID := e; eContainer := id; eConfig := cfg; polls := latency w |}
                      :: execs w)))).

Definition on_exec {A} (e : string) (f : Exec -> World -> Result A * World)
(w : World) : Result A * World :=
match find_exec e w with
| Some x => f x w
| None => (Err (no_such "exec instance" e), w)
end.

Definition containerExecAttach (e : string) : M Stream :=
request (ContainerExecAttach e) (on_exec e (fun _ w => (Ok (ExecOutput e), w))).

Definition containerExecStart (e : string) : M unit :=
request (ContainerExecStart e) (on_exec e (fun _ w => (Ok tt, w))).

(** The answer's [Running] field; each poll brings the session one step
  closer to its end. *)
Definition containerExecInspect (e : string) : M bool :=
request (ContainerExecInspect e) (on_exec e (fun x w =>
  (Ok (bool_decide (0 < polls x)),
   set_execs w ((fun y => if bool_decide (eID y = e)
                          then {| eID := eID y; eContainer := eContainer y;
                                  eConfig := eConfig y; polls := pred (polls y) |}
                          else y) <$> execs w)))).

(** Go's [for k, v := range m] over a map visits the entries in an order
  the language leaves open; here the next seed picks one of the orders. *)
Definition range_order {A} (seed : nat) (entries : list A) : list A :=
let ps := permutations entries in
default entries (ps !! (seed mod length ps)).

Definition rangeMap {V} (m : gmap string V) : M (list (string * V)) :=
fun w =>
  let '(seed, w') :=
    match seeds w with
    | s :: ss => (s, set_seeds w ss)
    | [] => (0, w)
    end in
  {| result := Ok (range_order seed (map_to_list m)); final := w'; issued := [] |}.

End Client.
Export Client.

(** ** Packages the commands import *)

(** Modelled from the spec: the label keys of [pkg/labels], which is not
    among the sources.  The environment, host and proxy keys are the ones
    [pkg/client/ls.go] spells out; the others follow the same scheme (spec 3,
    Identity Labels: environment name, resource role, site hostname, proxy
    version). *)
Module labels.
Definition Nitro : string := "com.craftcms.nitro".
Definition Environment : string := "com.craftcms.nitro.environment".
Definition Host : string := "com.craftcms.nitro.host".
Definition Proxy : string := "com.craftcms.nitro.proxy".
Definition ProxyVersion : string := "com.craftcms.nitro.proxy-version".
Definition Type_ : string := "com.craftcms.nitro.type".
Definition Network : string := "com.craftcms.nitro.network".
Definition Volume : string := "com.craftcms.nitro.volume".
Definition Path : string := "com.craftcms.nitro.path".
End labels.

Module config.

(** Modelled from the spec: [config.Site] (spec 3, Site): hostname, alias
  hostnames, version tag, local working path, in-container document-root
  subdirectory, environment-variable pairs. *)
Record Site := {
Hostname : string;
Aliases : list string;
Version : string;
Path : string;
Dir : string;
Vars : list (string * string)
}.

(** The functions of other packages that [sitecontainer.go] calls and whose
  bodies are not among the sources: [site.GetAbsPath(home)],
  [site.AsEnvs(addr)], [nginx.Generate(dir)] and
  [archive.Generate(name, content)]. *)
Class Helpers := {
GetAbsPath : Site -> string -> Result string;
AsEnvs : Site -> string -> list string;
nginx_Generate : string -> string;
archive_Generate : string -> string -> Result Archive
}.

End config.
Export config.

(** ** [sitecontainer.go] *)

Module sitecontainer.

(** [fmt.Sprintf(NginxImage, version)] with
  [NginxImage = "docker.io/craftcms/nginx:%s-dev"]. *)
Definition NginxImage (version : string) : string :=
"docker.io/craftcms/nginx:" +:+ version +:+ "-dev".

(** The extra hosts [create] builds: the hostname, then every alias, each
  mapped to the loopback address. *)
Definition extraHosts (site : Site) : list string :=
(Hostname site +:+ ":" +:+ "127.0.0.1")
  :: ((fun s => s +:+ ":" +:+ "127.0.0.1") <$> Aliases site).

(** [for waiting { resp, err := docker.ContainerExecInspect(...); ...;
  waiting = resp.Running }], with a bound on the number of polls. *)
Fixpoint waitExec (fuel : nat) (exec : string) : M unit :=
match fuel with
| 0 => stop Diverge
| S fuel' =>
    let* running := containerExecInspect exec in
    if running : bool then waitExec fuel' exec else ret tt
end.

(** The body of [for _, c := range commands]. *)
Definition runCommand (fuel : nat) (id : string) (c : list string) : M unit :=
let* exec := containerExecCreate id
               {| User := "root"; AttachStdout := true; AttachStderr := true;
                  Tty := false; ExecCmd := c |} in
let* attach := containerExecAttach exec in
do wrap "unable to copy the output of container, " (readStream attach) then
do wrap "unable to start the container, " (containerExecStart exec) then
do waitExec fuel exec then
wrap "unable to start the container, " (containerStart id).

Fixpoint forEach {A} (l : list A) (body : A -> M unit) : M unit :=
match l with
| [] => ret tt
| x :: l' => do body x then forEach l' body
end.

Definition copy_nginx_file : list string :=
["cp"; "/tmp/default.conf"; "/etc/nginx/conf.d/default.conf"].
Definition set_nginx_permissions : list string :=
["chmod"; "0644"; "/etc/nginx/conf.d/default.conf"].

Section WithHelpers.
Context `{Helpers}.

(** Lines 104-133: what [ContainerCreate] is called with. *)
Definition siteSpec (image path networkID : string) (site : Site) : CreateSpec :=
  {| Image := image;
 Cmd := [];
 Env := AsEnvs site "host.docker.internal";
 Labels := <[labels.Host := Hostname site]> (<[labels.Nitro := "true"]> ∅);
 ExposedPorts := ∅;
 NetworkMode := EmptyString;
 Mounts := [{| mType := "bind"; Source := path; Target := "/app" |}];
 ExtraHosts := extraHosts site;
 PortBindings := ∅;
 EndpointsConfig := <["nitro-network" := networkID]> ∅;
 Name := Hostname site |}.

(** Lines 138-214: start the container [id], copy the nginx file when the
site has a custom root, and run the post installation commands. *)
Definition provision (fuel : nat) (id : string) (site : Site) : M unit :=
  do wrap "unable to start the container, " (containerStart id) then
  let* commands :=
(if bool_decide (Dir site ≠ "web") then
   let conf := nginx_Generate (Dir site) in
   let* tr := stop (archive_Generate "default.conf" conf) in
   do copyToContainer id "/tmp" tr then
   ret (<["set-nginx-permissions" := set_nginx_permissions]>
          (<["copy-nginx-file" := copy_nginx_file]> (∅ : gmap string (list string))))
 else ret ∅) in
  let* entries := rangeMap commands in
  forEach entries (fun kc => runCommand fuel id kc.2).

Definition create (fuel : nat) (home networkID : string) (site : Site) : M string :=
  let image := NginxImage (Version site) in
  let* rdr := wrap "unable to pull the image, " (imagePull image) in
  do wrap ("unable to read output from pulling image " +:+ image +:+ ", ")
   (readStream rdr) then
  let* path := stop (GetAbsPath site home) in
  let* resp := wrap "unable to create the container, "
             (containerCreate (siteSpec image path networkID site)) in
  do provision fuel resp site then
  ret resp.

(** The drift detector is [match.Site], of a package that is not among the
sources; [StartOrCreate] is stated for any. *)
Variable match_Site : string -> Site -> Container -> bool.

Definition StartOrCreate (fuel : nat) (home networkID : string) (site : Site) : M string :=
  let filter := Add NewArgs "label" (labels.Host +:+ "=" +:+ Hostname site) in
  let* containers := replace_err "error getting a list of containers"
                   (containerList true filter) in
  match containers with
  | [] => create fuel home networkID site
  | container :: _ =>
  let* details := containerInspect (ID container) in
  if negb (match_Site home site details) then
    do containerStop (ID container) then
    do containerRemove (ID container) then
    create fuel home networkID site
  else ret (ID container)
  end.

End WithHelpers.

End sitecontainer.

(** ** The drift detector *)

Module match_.

(** A list of [key<sep>value] entries read as a mapping; a later entry for
  a key replaces an earlier one. *)
Definition as_mapping (sep : ascii) (entries : list string) : gmap string string :=
foldl (fun m kv => let '(k, v) := cut sep kv in <[k := default EmptyString v]> m) ∅ entries.

Definition bind_sources (c : Container) : list string :=
Source <$> filter (fun m => mType m = "bind") (Mounts (Spec c)).

(** Modelled from the spec: [match.Site] of
  [command/apply/internal/match], which is not among the sources.  Spec
  4.3: a pure comparison of the desired site with the observed container
  over the image reference (exact string equality), the bind-mount source
  path (exact string equality), the environment variables
  (order-independent, as a mapping) and the extra-host entries derived
  from the hostname and the aliases (order-independent, as a mapping); any
  single mismatch yields "drifted". *)
Definition Site `{Helpers} (home : string) (site : config.Site) (details : Container) : bool :=
match GetAbsPath site home with
| Ok path =>
    bool_decide (Image (Spec details) = sitecontainer.NginxImage (Version site))
    && bool_decide (bind_sources details = [path])
    && bool_decide (as_mapping "=" (Env (Spec details))
                    = as_mapping "=" (AsEnvs site "host.docker.internal"))
    && bool_decide (as_mapping ":" (ExtraHosts (Spec details))
                    = as_mapping ":" (sitecontainer.extraHosts site))
| _ => false
end.

End match_.

(** ** Port values: [github.com/docker/go-connections/nat] and [strconv] *)

Module nat_.

Definition digit (c : ascii) : option N :=
let n := N_of_ascii c in
if ((48 <=? n) && (n <=? 57))%N then Some (n - 48)%N else None.

Fixpoint digits (acc : N) (s : string) : option N :=
match s with
| EmptyString => Some acc
| String c s' =>
    match digit c with
    | Some d => digits (acc * 10 + d)%N s'
    | None => None
    end
end.

(** [strconv.ParseUint(s, 10, 16)]: a non-empty run of decimal digits whose
  value fits 16 bits. *)
Definition ParseUint16 (s : string) : Result N :=
match s with
| EmptyString => Err ("strconv.ParseUint: parsing " +:+ s +:+ ": invalid syntax")
| _ =>
    match digits 0 s with
    | Some n =>
        if (n <=? 65535)%N then Ok n
        else Err ("strconv.ParseUint: parsing " +:+ s +:+ ": value out of range")
    | None => Err ("strconv.ParseUint: parsing " +:+ s +:+ ": invalid syntax")
    end
end.

(** [nat.ParsePortRange]: a port, or a range [start-end]. *)
Definition ParsePortRange (ports : string) : Result (N * N) :=
match ports with
| EmptyString => Err "empty string specified for ports"
| _ =>
    if negb (Contains ports "-") then
      match ParseUint16 ports with
      | Ok start => Ok (start, start)
      | Err e => Err e
      | Panic e => Panic e
      | Diverge => Diverge
      end
    else
      let '(first, rest) := cut "-" ports in
      let second := (cut "-" (default EmptyString rest)).1 in
      match ParseUint16 first with
      | Ok start =>
          match ParseUint16 second with
          | Ok stop_ =>
              if (stop_ <? start)%N
              then Err ("invalid range specified for port: " +:+ ports)
              else Ok (start, stop_)
          | Err e => Err e
          | Panic e => Panic e
          | Diverge => Diverge
          end
      | Err e => Err e
      | Panic e => Panic e
      | Diverge => Diverge
      end
end.

(** [nat.NewPort(proto, port)], with both values Go returns: the port
  ([EmptyString] when there is an error) and the error ([None] for
  [nil]). *)
Definition NewPort (proto port : string) : string * option string :=
match port with
| EmptyString => ("0/" +:+ proto, None)
| _ =>
    match ParsePortRange port with
    | Ok (a, b) =>
        if (a =? b)%N then (pretty a +:+ "/" +:+ proto, None)
        else (pretty a +:+ "-" +:+ pretty b +:+ "/" +:+ proto, None)
    | Err e => (EmptyString, Some e)
    | Panic e => (EmptyString, Some e)
    | Diverge => (EmptyString, Some EmptyString)
    end
end.

(** [strconv.ParseBool]; on a value it does not know the result is [false]
  (and an error, which the caller ignores). *)
Definition ParseBool (s : string) : bool :=
bool_decide (s ∈ ["1"; "t"; "T"; "TRUE"; "true"; "True"]).

End nat_.

(** ** [initialize.go]: the [RunE] closure of [NewCommand] *)

Module initialize.

(** A sibling command, as far as [init] looks at it. *)
Record Command := { Use : string; Run : list string -> M unit }.

(** What the closure reads from outside the runtime: the [environment] and
  [skip-apply] flags, the process environment ([os.Getenv] gives
  [EmptyString] for a variable that is not set), [cmd.Parent().Commands()]
  ([None] when there is no parent), and [version.Version]. *)
Record Input := {
environment : string;
skip_apply : string;
environ : gmap string string;
parent : option (list Command);
Version : string
}.

Definition Getenv (i : Input) (k : string) : string := default EmptyString (environ i !! k).

(** Lines 56-63: [for _, n := range networks { if n.Name == env {...} }]. *)
Definition exactNetwork (env : string) (networks : list Network) : bool * string :=
foldl (fun '(skipNetwork, networkID) n =>
         if bool_decide (nName n = env) then (true, nID n) else (skipNetwork, networkID))
      (false, EmptyString) networks.

(** Lines 54-88: the exact match over the listed networks, then the
  [switch skipNetwork]. *)
Definition reconcileNetwork (env : string) (networks : list Network) : M string :=
let '(skipNetwork, networkID) := exactNetwork env networks in
if skipNetwork then ret networkID
else
  wrap "unable to create the network, "
    (networkCreate env "bridge" true
       (<[labels.Network := env]> (<[labels.Environment := env]> ∅))).

(** Lines 98-105: [for _, v := range volumes.Volumes { if v.Name == env {...} }]. *)
Definition exactVolume (env : string) (volumes : list Volume) : bool * option Volume :=
foldl (fun '(skipVolume, volume) v =>
         if bool_decide (vName v = env) then (true, Some v) else (skipVolume, volume))
      (false, None) volumes.

(** Lines 96-130.  When [skipVolume] is set, [volume] is not [nil]. *)
Definition reconcileVolume (env : string) (volumes : list Volume) : M Volume :=
let '(skipVolume, volume) := exactVolume env volumes in
if skipVolume then
  match volume with
  | Some v => ret v
  | None => stop (Panic "nil pointer dereference")
  end
else
  wrap "unable to create the volume, "
    (volumeCreate env "local"
       (<[labels.Volume := env]> (<[labels.Environment := env]> ∅))).

(** Lines 174-188: the exact-name guard over the listed containers. *)
Definition findProxy (env : string) (containers : list Container) : string * bool :=
foldl (fun st c =>
         foldl (fun '(containerID, proxyRunning) n =>
                  if bool_decide (n = env) || bool_decide (n = "/" +:+ env)
                  then (ID c, if bool_decide (State c = "running") then true else proxyRunning)
                  else (containerID, proxyRunning))
               st (Names c))
      (EmptyString, false) containers.

(** One [switch os.Getenv(...)] of lines 198-259.  [err] is the function's
  error variable on entry; the answer is the port and the error variable
  on exit, or the error returned.  With [checked] the default branch
  assigns [err] ([port, err = nat.NewPort(...)]); without, it drops the
  error ([port, _ = nat.NewPort(...)]) and then tests the variable as it
  was. *)
Definition portSwitch (checked : bool) (value fallback msgUnset msgSet : string)
(err : option string) : Result (string * option string) :=
if bool_decide (value = EmptyString) then
  let '(port, err) := nat_.NewPort "tcp" fallback in
  match err with
  | Some e => Err (msgUnset +:+ e)
  | None => Ok (port, err)
  end
else
  if bool_decide (value ≠ EmptyString) then
    let '(port, err') := nat_.NewPort "tcp" value in
    let err := if checked then err' else err in
    match err with
    | Some e => Err (msgSet +:+ e)
    | None => Ok (port, err)
    end
  else Ok (EmptyString, err).

Record Ports := { httpPort : string; httpsPort : string; apiPort : string; xdebugPort : string }.

(** Lines 195-259. *)
Definition resolvePorts (i : Input) (err : option string) : Result Ports :=
match portSwitch true (Getenv i "NITRO_HTTP_PORT") "80"
        "unable to set the HTTP port, " "unable to set the HTTP port, " err with
| Ok (http, err) =>
    match portSwitch false (Getenv i "NITRO_HTTPS_PORT") "443"
            "unable to set the HTTPS port, " "unable to set the HTTPS port, " err with
    | Ok (https, err) =>
        match portSwitch false (Getenv i "NITRO_API_PORT") "5000"
                "unable to set the API port, " "unable to set the API port, " err with
        | Ok (api, err) =>
            match portSwitch false (Getenv i "NITRO_XDEBUG_PORT") "9003"
                    "unable to set the API port, " "unable to set the xdebug port, " err with
            | Ok (xdebug, _) =>
                Ok {| httpPort := http; httpsPort := https; apiPort := api;
                      xdebugPort := xdebug |}
            | Err e => Err e
            | Panic e => Panic e
            | Diverge => Diverge
            end
        | Err e => Err e
        | Panic e => Panic e
        | Diverge => Diverge
        end
    | Err e => Err e
    | Panic e => Panic e
    | Diverge => Diverge
    end
| Err e => Err e
| Panic e => Panic e
| Diverge => Diverge
end.

Definition proxyImage (i : Input) : string := "craftcms/nitro-proxy:" +:+ Version i.

Definition localhost (port : string) : list PortBinding :=
[{| HostIP := "127.0.0.1"; HostPort := port |}].

(** Lines 262-322: what [ContainerCreate] is called with. *)
Definition proxySpec (i : Input) (p : Ports) (volume : Volume) (networkID : string)
: CreateSpec :=
let env := environment i in
{| Image := proxyImage i;
   Cmd := [];
   Env := [];
   Labels := <[labels.ProxyVersion := Version i]>
               (<[labels.Proxy := env]>
                  (<[labels.Environment := env]> (<[labels.Type_ := "proxy"]> ∅)));
   ExposedPorts := {[httpPort p; httpsPort p; apiPort p; xdebugPort p]};
   NetworkMode := "default";
   Mounts := [{| mType := "volume"; Source := vName volume; Target := "/data" |}];
   ExtraHosts := [];
   PortBindings := <[xdebugPort p := localhost "9003"]>
                     (<[apiPort p := localhost "5000"]>
                        (<[httpsPort p := localhost "443"]>
                           (<[httpPort p := localhost "80"]> ∅)));
   EndpointsConfig := <[env := networkID]> ∅;
   Name := env |}.

(** Lines 346-363: the [apply] and [trust] commands of the parent. *)
Fixpoint runSiblings (commands : list Command) (args : list string) : M unit :=
match commands with
| [] => ret tt
| c :: rest =>
    do (if bool_decide (Use c = "apply") then Run c args else ret tt) then
    do (if bool_decide (Use c = "trust") then Run c args else ret tt) then
    runSiblings rest args
end.

Definition RunE (i : Input) (args : list string) : M unit :=
let env := environment i in
let filter := Add NewArgs "name" env in
let* networks := wrap "unable to list the docker networks, " (networkList filter) in
let* networkID := reconcileNetwork env networks in
let* volumes := wrap "unable to list volumes, " (volumeList filter) in
let* volume := reconcileVolume env volumes in
let imageFilter := Add NewArgs "reference" (proxyImage i) in
let* images := wrap "unable to get a list of images, " (imageList imageFilter) in
do (match images with
    | [] =>
        let* rdr := wrap "unable to pull the nitro-proxy from docker hub, "
                      (imagePull (proxyImage i)) in
        wrap "unable to read the output from pulling the image, " (readStream rdr)
    | _ => ret tt
    end) then
let proxyFilter := Add NewArgs "label" (labels.Proxy +:+ "=" +:+ env) in
let* containers := wrap ("unable to list the containers" +:+ String "010"%char EmptyString)
                     (containerList true proxyFilter) in
let '(containerID, proxyRunning) := findProxy env containers in
let* containerID :=
  (if bool_decide (containerID = EmptyString) then
     let* ports := stop (resolvePorts i None) in
     wrap ("unable to create the container from image " +:+ proxyImage i
           +:+ String "010"%char EmptyString)
       (containerCreate (proxySpec i ports volume networkID))
   else ret containerID) in
do (if negb proxyRunning
    then wrap "unable to start the nitro container, " (containerStart containerID)
    else ret tt) then
let skipApply := nat_.ParseBool (skip_apply i) in
do (match parent i with
    | Some commands => if negb skipApply then runSiblings commands args else ret tt
    | None => ret tt
    end) then
ret tt.

End initialize.

(** ** The composer command: the [RunE] closure of [NewCommand], and [name] *)

Module composer.

(** What the command reads from the host: [os.Getwd], [filepath.Abs],
  [filepath.Join], [pathexists.IsFile] and [os.PathSeparator]. *)
Record Host := {
Getwd : Result string;
Abs : string -> Result string;
Join : string -> string -> string;
IsFile : string -> bool;
PathSeparator : ascii
}.

(** [name(path, version)]; [sep] is [os.PathSeparator]. *)
Definition name (sep : ascii) (path version : string) : string :=
(* combine the path and version *)
let n := path +:+ "_" +:+ "composer" +:+ "_" +:+ version in
(* make it lower case *)
let n := ToLower n in
(* replace path separators with underscores *)
let n := ReplaceAll sep "_" n in
(* remove : to prevent error on windows *)
let n := ReplaceAll ":" "_" n in
(* remove the first underscore *)
TrimLeft "_" n.

(** [composer.Options]. *)
Record Options := {
oImage : string;
oCommands : list string;
oLabels : gmap string string;
oVolume : Volume;
oPath : string
}.

(** Modelled from the spec: [composer.CreateContainer] of [pkg/composer],
  which is not among the sources.  Spec 4.6: "Create a disposable
  container mounting the working directory and the cache volume, with
  identity labels, and the caller-supplied command-line as its
  arguments." *)
Definition CreateContainer (opts : Options) : M string :=
containerCreate
  {| Image := oImage opts;
     Cmd := oCommands opts;
     Env := [];
     Labels := oLabels opts;
     ExposedPorts := ∅;
     NetworkMode := EmptyString;
     Mounts := [{| mType := "volume"; Source := vName (oVolume opts); Target := "/root" |};
                {| mType := "bind"; Source := oPath opts; Target := "/app" |}];
     ExtraHosts := [];
     PortBindings := ∅;
     EndpointsConfig := ∅;
     Name := EmptyString |}.

(** Lines 46-66: [for i, a := range args], reading the composer version
  out of the arguments.  [all] is the whole of [args], [i] the index of
  the head of [rest]; [args[i+1]] panics past the end. *)
Fixpoint parseArgs (all : list string) (i : nat) (rest : list string)
(version : string) (newArgs : list string) : Result (string * list string) :=
match rest with
| [] => Ok (version, newArgs)
| a :: rest' =>
    if Contains a "--composer-version=" then
      parseArgs all (S i) rest' (last_field "=" EmptyString a) newArgs
    else if bool_decide (a = "--composer-version") then
      match all !! S i with
      | Some v => parseArgs all (S i) rest' v newArgs
      | None => Panic "index out of range"
      end
    else parseArgs all (S i) rest' version (newArgs ++ [a])
end.

(** Lines 155-174: [switch len(volumes.Volumes)], with cases 1 and 0 and
  no default. *)
Definition pickVolume (path volumeName : string) (volumes : list Volume) : M Volume :=
match volumes with
| [v] => ret v
| [] =>
    wrap "unable to create the volume, "
      (volumeCreate volumeName "local"
         (<[labels.Path := path]> (<[labels.Type_ := "composer"]> ∅)))
| _ => ret zero_Volume
end.

(** Lines 46-193: everything up to and including the creation of the task
container; the answer is the container's id. *)
Definition setup (h : Host) (args : list string) : M string :=
let* '(version, newArgs) := stop (parseArgs args 0 args EmptyString []) in
let version := if bool_decide (version = EmptyString) then "2" else version in
let args := newArgs in
let* wd := wrap "unable to get the current directory, " (stop (Getwd h)) in
let* path := wrap "unable to find the absolute path, " (stop (Abs h wd)) in
let* action := stop (match args with
                     | a :: _ => Ok a
                     | [] => Panic "index out of range"
                     end) in
do (if bool_decide (action ≠ "create-project") then
      let composerPath := Join h path "composer.json" in
      if negb (IsFile h composerPath)
      then stop (Err ("unable to find file " +:+ composerPath))
      else ret tt
    else ret tt) then
let image := "docker.io/library/" +:+ "composer" +:+ ":" +:+ version in
let filter := Add NewArgs "reference" image in
let* images := wrap "unable to get a list of images, " (imageList filter) in
let filter := Del filter "reference" image in
do (match images with
    | [] =>
        let* rdr := wrap "unable to pull the docker image, " (imagePull image) in
        wrap "unable to read the output from pulling the image, " (readStream rdr)
    | _ => ret tt
    end) then
let filter := Add filter "label" (labels.Type_ +:+ "=composer") in
let filter := Add filter "label" (labels.Path +:+ "=" +:+ path) in
let* volumes := volumeList filter in
let volumeName := name (PathSeparator h) path version in
let* pathVolume := pickVolume path volumeName volumes in
let opts := {| oImage := image;
               oCommands := args;
               oLabels := <[labels.Path := path]>
                            (<[labels.Type_ := "composer"]> (<[labels.Nitro := "true"]> ∅));
               oVolume := pathVolume;
               oPath := path |} in
wrap ("unable to create the composer container" +:+ String "010"%char EmptyString)
  (CreateContainer opts).

(** Lines 195-224: attach to the container, start it, copy its output, and
remove it. *)
Definition runTask (container : string) : M unit :=
let* stream := wrap "unable to attach to container, " (containerAttach container) in
do wrap "unable to start the container, " (containerStart container) then
do wrap "unable to copy the output of the container logs, " (readStream stream) then
do containerRemove container then
ret tt.

Definition RunE (h : Host) (args : list string) : M unit :=
let* container := setup h args in
runTask container.

End composer.

(** ** [pkg/client/ls.go] *)

Module pkg_client.

(** What the runtime reports of a listed container beyond what the other
    commands read: the networks it is attached to, each with the address the
    container has on it ([NetworkSettings.Networks]), the sources of its
    mount points ([Mounts]), and the text of its status. *)
Record Report := {
NetworkSettings : gmap string string;
MountSources : list string;
Status : string
}.

(** What the command writes: through [output.Error] and [output.Info],
    through [color], and with [fmt.Println], whose operands are kept apart. *)
Inductive Output :=
| OutputError (words : list string)
| OutputInfo (words : list string)
| ColorSet (color : string)
| ColorUnset
| Println (words : list string).

Definition tab (s : string) : string := String "009"%char s.

(** Lines 38-44. *)
Definition containerType (labels : gmap string string) : string :=
let containerType := EmptyString in
let containerType :=
  if bool_decide (default EmptyString (labels !! "com.craftcms.nitro.host") ≠ EmptyString)
  then "web" else containerType in
if bool_decide (default EmptyString (labels !! "com.craftcms.nitro.proxy") ≠ EmptyString)
then "proxy" else containerType.

(** Lines 37-55, the body of the loop for one container: what it prints and
    how it ends.  [c.Names[0]] and [c.Mounts[0]] panic on an empty slice;
    [Networks["nitro-dev"]] is a nil pointer when the container is not on
    a network of that name, and reading [IPAddress] through it panics. *)
Definition describe (report : Container -> Report) (c : Container)
: list Output * Result unit :=
let containerType := containerType (Labels (Spec c)) in
match Names c with
| [] => ([], Panic "index out of range")
| n0 :: _ =>
    let n := TrimLeft "/" n0 in
    let first := Println ["  ==> type:"; containerType; tab "hostname:"; n] in
    match NetworkSettings (report c) !! "nitro-dev" with
    | None => ([first], Panic "invalid memory address or nil pointer dereference")
    | Some ip =>
        let second := Println ["      ip:"; ip; tab "image:"; Image (Spec c)] in
        match MountSources (report c) with
        | [] => ([first; second], Panic "index out of range")
        | source :: _ =>
            ([first; second]
               ++ (if bool_decide (source ≠ EmptyString)
                   then [Println ["      mount:"; source]] else [])
               ++ [Println ["      uptime:"; Status (report c)]; Println ["      ---"]],
             Ok tt)
        end
    end
end.

(** Lines 36-56: [for _, c := range containers]. *)
Fixpoint describeAll (report : Container -> Report) (containers : list Container)
: list Output * Result unit :=
match containers with
| [] => ([], Ok tt)
| c :: rest =>
    match describe report c with
    | (out, Ok _) =>
        let '(out', r) := describeAll report rest in (out ++ out', r)
    | (out, r) => (out, r)
    end
end.

(** A run of the command: its result, the requests sent and the world left
    (as for every command), and what it wrote. *)
Record Listing := { outcome : Outcome unit; printed : list Output }.

Definition LS (report : Container -> Report) (name : string) (args : list string)
(w : World) : Listing :=
let filter := Add NewArgs "label" ("com.craftcms.nitro.environment=" +:+ name) in
let o := wrap "unable to get a list of the containers, " (containerList false filter) w in
let ended (r : Result unit) : Outcome unit :=
  {| result := r; final := final o; issued := issued o |} in
match result o with
| Ok [] =>
    {| outcome := ended (Ok tt);
       printed := [OutputError ["There are no containers running for the"; name;
                                "environment"]] |}
| Ok containers =>
    let '(out, r) := describeAll report containers in
    {| outcome := ended r;
       printed := OutputInfo ["Listing containers for"; name] :: ColorSet "FgGreen"
                  :: out ++ (if is_ok r then [ColorUnset] else []) |}
| Err e => {| outcome := ended (Err e); printed := [] |}
| Panic e => {| outcome := ended (Panic e); printed := [] |}
| Diverge => {| outcome := ended Diverge; printed := [] |}
end.

End pkg_client.

(** * Properties *)

(** ** What the claims speak about *)

(** The requests that create, stop or remove a container. *)
Definition destructive (c : Call) : bool :=
  match c with
  | ContainerCreate _ | ContainerStop _ | ContainerRemove _ => true
  | _ => false
  end.

Definition lifecycle (calls : list Call) : list Call := filter destructive calls.

(** The containers of a world, without their run state. *)
Definition shape (w : World) : list (string * CreateSpec) :=
  (fun c => (ID c, Spec c)) <$> containers w.

(** None of the next [n] requests is lost in transit. *)
Definition reliable (n : nat) (w : World) : Prop :=
  Forall (fun b => b = false) (take n (faults w)).

(** The commands of the exec sessions among the requests, in the order in
    which they were sent. *)
Definition exec_commands (calls : list Call) : list (list string) :=
  omap (fun c => match c with
                 | ContainerExecCreate _ cfg => Some (ExecCmd cfg)
                 | _ => None
                 end) calls.

Definition is_container_create (c : Call) : bool :=
  match c with ContainerCreate _ => true | _ => false end.

Definition is_volume_create (c : Call) : bool :=
  match c with VolumeCreate _ _ _ => true | _ => false end.

(** The outcome of a request followed by the rest of the run, and of a
    request the run ends with. *)
Definition prepend {A} (c : Call) (o : Outcome A) : Outcome A :=
  {| result := result o; final := final o; issued := c :: issued o |}.

Definition failed {A} (r : Result A) (w : World) (c : Call) : Outcome A :=
  {| result := r; final := w; issued := [c] |}.

(** A program is benign when it sends no destructive request and leaves the
    containers (up to their run state) and the retired ids as they are. *)
Definition benign {A} (m : M A) : Prop :=
  forall w, lifecycle (issued (m w)) = [] /\ shape (final (m w)) = shape w
            /\ retired (final (m w)) = retired w.

(** The filter [StartOrCreate] queries the runtime with. *)
Definition siteFilter (site : Site) : Args :=
  Add NewArgs "label" (labels.Host +:+ "=" +:+ Hostname site).

(** Where a successful call of [create] ends: exactly one container was
    created, with a new id, and it is listed first. *)
Definition created `{Helpers} (home net : string) (site : Site) (w : World)
  (o : Outcome string) (id : string) : Prop :=
  exists path,
    GetAbsPath site home = Ok path
    /\ lifecycle (issued o)
       = [ContainerCreate (sitecontainer.siteSpec (sitecontainer.NginxImage (Version site)) path net site)]
    /\ shape (final o)
       = (id, sitecontainer.siteSpec (sitecontainer.NginxImage (Version site)) path net site) :: shape w
    /\ retired (final o) = retired w
    /\ (id ∉ retired w)
    /\ (forall id', result o = Ok id' -> id' = id).

(** The site's container is in place: the query for the site lists it first,
    and it passes the drift detector. *)
Definition settled `{Helpers} (home : string) (site : Site) (id : string) (w : World) : Prop :=
  exists c rest d,
    listed true (siteFilter site) w = c :: rest /\ ID c = id
    /\ find_container id w = Some d /\ match_.Site home site d = true.

(** Every request a program can send satisfies [P]. *)
Definition sends_only (P : Call -> bool) {A} (m : M A) : Prop :=
  forall w, forallb P (issued (m w)) = true.

(** The container-create requests among the requests sent. *)
Definition created_specs (calls : list Call) : list CreateSpec :=
  omap (fun c => match c with ContainerCreate spec => Some spec | _ => None end) calls.

(** The host ports a port of the container is published on. *)
Definition published (spec : CreateSpec) (port : string) : list string :=
  HostPort <$> default [] (PortBindings spec !! port).

(** The requests of the last part of a task run: attach, start, copy the
output, remove. *)
Definition is_teardown (c : Call) : bool :=
  match c with
  | ContainerRemove _ | ContainerStart _ | ContainerAttach _
  | ReadStream (ContainerOutput _) => true
  | _ => false
  end.

Definition creates_nothing (c : Call) : bool :=
  negb (is_volume_create c) && negb (is_container_create c).

(** How the part of the run after the creation of the container [id] can
end. *)
Inductive task_end (id : string) (o : Outcome unit) : Prop :=
| task_done :
    result o = Ok tt ->
    issued o = [ContainerAttach id; ContainerStart id; ReadStream (ContainerOutput id);
                ContainerRemove id] ->
    find_container id (final o) = None ->
    task_end id o
| task_copy_failed :
    result o = Err ("unable to copy the output of the container logs, " +:+ transport_error) ->
    issued o = [ContainerAttach id; ContainerStart id; ReadStream (ContainerOutput id)] ->
    is_Some (find_container id (final o)) ->
    task_end id o
| task_failed_elsewhere :
    is_err (result o) = true ->
    issued o = [ContainerAttach id]
    \/ issued o = [ContainerAttach id; ContainerStart id]
    \/ issued o = [ContainerAttach id; ContainerStart id; ReadStream (ContainerOutput id);
                   ContainerRemove id] ->
    is_Some (find_container id (final o)) ->
    task_end id o.

(** The filter the composer command queries the volumes with. *)
Definition volumeFilter (path : string) : Args :=
  [("label", labels.Type_ +:+ "=composer"); ("label", labels.Path +:+ "=" +:+ path)].

(** The mounts of a task container whose cache volume is the zero value. *)
Definition zero_volume_mounts (path : string) : list Mount :=
  [{| mType := "volume"; Source := vName zero_Volume; Target := "/root" |};
   {| mType := "bind"; Source := path; Target := "/app" |}].

(** What the requests of a run look like when the cache volume is neither
reused nor created: no volume is created, a container that is created mounts
the zero volume, and ([sure]) a container is created. *)
Definition zero_volume_run (path : string) (sure : Prop) (calls : list Call) : Prop :=
  filter is_volume_create calls = []
  /\ (forall spec, spec ∈ created_specs calls -> Mounts spec = zero_volume_mounts path)
  /\ (sure -> exists spec, created_specs calls = [spec]).






(** ** What the further properties speak about *)

Section SiteTerms.

Definition is_exec_create (c : Call) : bool :=
  match c with ContainerExecCreate _ _ => true | _ => false end.

(** The files copied into containers, in the order of the requests. *)
Definition copies (calls : list Call) : list (string * string * Archive) :=
  omap (fun c => match c with
                 | CopyToContainer id path content => Some (id, path, content)
                 | _ => None
                 end) calls.

Definition is_copy (c : Call) : bool :=
  match c with CopyToContainer _ _ _ => true | _ => false end.

Definition plain (c : Call) : bool := negb (is_exec_create c) && negb (is_copy c).

(** The runtime loses no request, a new exec session takes [L] polls, and
the container [id] is there. *)
Definition steady (id : string) (L : nat) (w : World) : Prop :=
  faults w = [] /\ latency w = L /\ exists c, find_container id w = Some c.

(** The container [id] is there and running. *)
Definition running (id : string) (w : World) : Prop :=
  exists c, find_container id w = Some c /\ State c = "running".

(** Helpers that cannot resolve the path of a site, and helpers that cannot
make the archive of the nginx file. *)
Definition no_path : Helpers :=
  {| GetAbsPath _ _ := Err "no such directory";
     AsEnvs _ _ := [];
     nginx_Generate d := d;
     archive_Generate n c := Ok {| fileName := n; fileContent := c |} |}.

Definition no_archive : Helpers :=
  {| GetAbsPath s home := Ok (home +:+ "/" +:+ Path s);
     AsEnvs _ _ := [];
     nginx_Generate d := d;
     archive_Generate _ _ := Err "cannot write the archive" |}.

End SiteTerms.

Section InitializeTerms.
Import initialize.

(** A container one of whose names is the environment name, with or without
the leading slash. *)
Definition proxy_named (env : string) (c : Container) : bool :=
  existsb (fun n => bool_decide (n = env) || bool_decide (n = "/" +:+ env)) (Names c).

Definition is_running (c : Container) : bool := bool_decide (State c = "running").

(** The commands of the parent that [init] runs. *)
Definition dependent (c : Command) : bool :=
  bool_decide (Use c = "apply") || bool_decide (Use c = "trust").

Definition creates_no_container (c : Call) : bool := negb (is_container_create c).

(** The filter [init] looks the proxy up with. *)
Definition proxyFilter (env : string) : Args :=
  Add NewArgs "label" (labels.Proxy +:+ "=" +:+ env).

(** A program that leaves the containers of the runtime as they are. *)
Definition keeps_containers {A} (m : M A) : Prop :=
  forall w, containers (final (m w)) = containers w.

(** Lines 174-367 of [initialize.go]: what [init] does once the containers
with the proxy label are listed. *)
Definition ensureProxy (i : Input) (args : list string) (networkID : string)
  (volume : Volume) (containers : list Container) : M unit :=
  let env := environment i in
  let '(containerID, proxyRunning) := findProxy env containers in
  let* containerID :=
    (if bool_decide (containerID = EmptyString) then
       let* ports := stop (resolvePorts i None) in
       wrap ("unable to create the container from image " +:+ proxyImage i
             +:+ String "010"%char EmptyString)
         (containerCreate (proxySpec i ports volume networkID))
     else ret containerID) in
  do (if negb proxyRunning
      then wrap "unable to start the nitro container, " (containerStart containerID)
      else ret tt) then
  let skipApply := nat_.ParseBool (skip_apply i) in
  do (match parent i with
      | Some commands => if negb skipApply then runSiblings commands args else ret tt
      | None => ret tt
      end) then
  ret tt.

(** The dependent commands of the parent are not run. *)
Definition standalone (i : Input) : Prop :=
  parent i = None \/ nat_.ParseBool (skip_apply i) = true.

(** [w1] is what a runtime that loses no request can be after a step begun
in [w] that leaves the containers alone and removes no network. *)
Definition undisturbed (w w1 : World) : Prop :=
  faults w1 = [] /\ containers w1 = containers w
  /\ (forall n, n ∈ networks w -> n ∈ networks w1).

(** The containers a run asked to start, in the order of the requests. *)
Definition starts (calls : list Call) : list string :=
  omap (fun c => match c with ContainerStart id => Some id | _ => None end) calls.

Definition is_start (c : Call) : bool :=
  match c with ContainerStart _ => true | _ => false end.

(** The ports of the proxy when no override is set. *)
Definition defaultPorts : Ports :=
  {| httpPort := "80/tcp"; httpsPort := "443/tcp"; apiPort := "5000/tcp";
     xdebugPort := "9003/tcp" |}.

End InitializeTerms.

Section ComposerTerms.
Import composer.

(** An argument that the loop of lines 50-66 takes for the version flag. *)
Definition is_version_flag (a : string) : bool :=
  Contains a "--composer-version=" || bool_decide (a = "--composer-version").

(** The version in use (lines 68-71). *)
Definition effective (version : string) : string :=
  if bool_decide (version = EmptyString) then "2" else version.

(** The image of a version (line 114). *)
Definition imageRef (version : string) : string :=
  "docker.io/library/" +:+ "composer" +:+ ":" +:+ version.

(** Lines 116-140: look for the image, pull it when the runtime has none. *)
Definition ensureImage (image : string) : M unit :=
  let filter := Add NewArgs "reference" image in
  let* images := wrap "unable to get a list of images, " (imageList filter) in
  match images with
  | [] =>
      let* rdr := wrap "unable to pull the docker image, " (imagePull image) in
      wrap "unable to read the output from pulling the image, " (readStream rdr)
  | _ => ret tt
  end.

(** Lines 142-193: the cache volume and the task container. *)
Definition cacheAndCreate (h : Host) (version path : string) (args : list string) : M string :=
  let image := imageRef version in
  let filter := Del (Add NewArgs "reference" image) "reference" image in
  let filter := Add filter "label" (labels.Type_ +:+ "=composer") in
  let filter := Add filter "label" (labels.Path +:+ "=" +:+ path) in
  let* volumes := volumeList filter in
  let volumeName := name (PathSeparator h) path version in
  let* pathVolume := pickVolume path volumeName volumes in
  let opts := {| oImage := image;
                 oCommands := args;
                 oLabels := <[labels.Path := path]>
                              (<[labels.Type_ := "composer"]> (<[labels.Nitro := "true"]> ∅));
                 oVolume := pathVolume;
                 oPath := path |} in
  wrap ("unable to create the composer container" +:+ String "010"%char EmptyString)
    (CreateContainer opts).

(** Lines 114-193: the image, the cache volume and the task container. *)
Definition prepare (h : Host) (version path : string) (args : list string) : M string :=
  do ensureImage (imageRef version) then cacheAndCreate h version path args.

(** The check of lines 99-112 lets the run go on. *)
Definition check_passes (h : Host) (path action : string) : Prop :=
  action = "create-project" \/ IsFile h (Join h path "composer.json") = true.

(** The request that creates the cache volume (lines 161-168). *)
Definition cacheCreate (h : Host) (path version : string) : Call :=
  VolumeCreate (name (PathSeparator h) path version) "local"
    (<[labels.Path := path]> (<[labels.Type_ := "composer"]> ∅)).

(** The world after an image was pulled. *)
Definition pulled (image : string) (w : World) : World :=
  if bool_decide (image ∈ images w) then w else set_images w (image :: images w).

(** The outcome of a run that sent [calls] and then went on as [o]. *)
Definition following {A} (calls : list Call) (o : Outcome A) : Outcome A :=
  {| result := result o; final := final o; issued := calls ++ issued o |}.

End ComposerTerms.

Section ListingTerms.
Import pkg_client.

(** A report as the runtime could give it for the proxy of the environment
[dev]. *)
Definition dev_report (c : Container) : Report :=
  {| NetworkSettings := {[ "dev" := "172.18.0.2" ]};
     MountSources := ["/var/lib/docker/volumes/dev/_data"];
     Status := "Up 2 minutes" |}.

(** The filter [LS] lists the containers of an environment with. *)
Definition environmentFilter (name : string) : Args :=
  Add NewArgs "label" ("com.craftcms.nitro.environment=" +:+ name).

End ListingTerms.

(** ** A small world to run the programs in *)

Module example.

(** Helpers in the spirit of the missing packages: the path is taken under
the home directory, the variables are rendered as [KEY=value] after the
host address. *)
Definition helpers : Helpers :=
{| GetAbsPath s home := Ok (home +:+ "/" +:+ Path s);
   AsEnvs s addr := ("NITRO_HOST=" +:+ addr) :: ((fun kv => kv.1 +:+ "=" +:+ kv.2) <$> Vars s);
   nginx_Generate d := "root /app/" +:+ d +:+ ";";
   archive_Generate n c := Ok {| fileName := n; fileContent := c |} |}.

(** A runtime with nothing in it, where an exec session takes two polls. *)
Definition world : World :=
{| networks := []; volumes := []; images := []; containers := []; execs := [];
   retired := []; faults := []; latency := 2; seeds := [] |}.

(** Scenario B of the spec: a site with a custom document root. *)
Definition site : Site :=
{| Hostname := "example.test"; Aliases := ["www.example.test"]; Version := "7.4";
   Path := "dev/example"; Dir := "public"; Vars := [("PHP_MEMORY_LIMIT", "512M")] |}.

(** The same site after its version tag was changed. *)
Definition site_8 : Site :=
{| Hostname := "example.test"; Aliases := ["www.example.test"]; Version := "8.0";
   Path := "dev/example"; Dir := "public"; Vars := [("PHP_MEMORY_LIMIT", "512M")] |}.

(** The world after the site was reconciled once. *)
Definition reconciled : World :=
final (sitecontainer.StartOrCreate (H := helpers) (match_.Site (H := helpers))
         5 "/home/u" "net" site world).

(** The container that reconciliation created. *)
Definition first_container : Container :=
{| ID := "0"; Names := ["/example.test"]; State := "running";
   Spec := sitecontainer.siteSpec (H := helpers) "docker.io/craftcms/nginx:7.4-dev"
             "/home/u/dev/example" "net" site |}.

(** [nitro init] for the environment [dev], with the given process
environment, no parent command and [--skip-apply]. *)
Definition init (environ : gmap string string) : initialize.Input :=
{| initialize.environment := "dev"; initialize.skip_apply := "true";
   initialize.environ := environ; initialize.parent := None;
   initialize.Version := "2.0.0" |}.

(** A host whose working directory is [/home/U/Proj], with the given files. *)
Definition host (files : list string) : composer.Host :=
{| composer.Getwd := Ok "/home/U/Proj";
   composer.Abs p := Ok p;
   composer.Join a b := a +:+ "/" +:+ b;
   composer.IsFile p := bool_decide (p ∈ files);
   composer.PathSeparator := "/" |}.

(** A cache volume that carries the composer labels of that directory, and a
runtime that has two of them. *)
Definition cache (name : string) : Volume :=
{| vName := name; vDriver := "local";
   vLabels := <[labels.Path := "/home/U/Proj"]> (<[labels.Type_ := "composer"]> ∅) |}.

Definition two_caches : World :=
{| networks := []; volumes := [cache "proj_composer_1"; cache "proj_composer_2"];
   images := []; containers := []; execs := []; retired := []; faults := [];
   latency := 2; seeds := [] |}.

End example.

(** ** Running programs *)

Section Running.
Context {A B : Type}.
Implicit Types (m : M A) (k : A -> M B) (w : World).

Lemma result_bind m k w :
result (bind m k w) =
match result (m w) with
| Ok a => result (k a (final (m w)))
| Err e => Err e
| Panic e => Panic e
| Diverge => Diverge
end.
Proof. unfold bind. by destruct (result (m w)). Qed.

Lemma final_bind m k w :
final (bind m k w) =
match result (m w) with
| Ok a => final (k a (final (m w)))
| _ => final (m w)
end.
Proof. unfold bind. by destruct (result (m w)). Qed.

Lemma issued_bind m k w :
issued (bind m k w) =
issued (m w) ++ match result (m w) with
                | Ok a => issued (k a (final (m w)))
                | _ => []
                end.
Proof. unfold bind. destruct (result (m w)); simpl; by rewrite ?app_nil_r. Qed.

Lemma result_wrap p m w :
result (wrap p m w) =
match result (m w) with Err e => Err (p +:+ e) | r => r end.
Proof. unfold wrap; cbv zeta. by destruct (result (m w)) eqn:E; simpl; rewrite ?E. Qed.

Lemma final_wrap p m w : final (wrap p m w) = final (m w).
Proof. unfold wrap; cbv zeta. by destruct (result (m w)) eqn:E; simpl; rewrite ?E. Qed.

Lemma issued_wrap p m w : issued (wrap p m w) = issued (m w).
Proof. unfold wrap; cbv zeta. by destruct (result (m w)) eqn:E; simpl; rewrite ?E. Qed.

Lemma result_wrap_Ok p m w a : result (wrap p m w) = Ok a <-> result (m w) = Ok a.
Proof. rewrite result_wrap. by destruct (result (m w)). Qed.

Lemma result_replace_err p m w :
result (replace_err p m w) =
match result (m w) with Err e => Err p | r => r end.
Proof. unfold replace_err; cbv zeta. by destruct (result (m w)) eqn:E; simpl; rewrite ?E. Qed.

Lemma final_replace_err p m w : final (replace_err p m w) = final (m w).
Proof. unfold replace_err; cbv zeta. by destruct (result (m w)) eqn:E; simpl; rewrite ?E. Qed.

Lemma issued_replace_err p m w : issued (replace_err p m w) = issued (m w).
Proof. unfold replace_err; cbv zeta. by destruct (result (m w)) eqn:E; simpl; rewrite ?E. Qed.

Lemma issued_request c (serve : World -> Result A * World) w :
issued (request c serve w) = [c].
Proof. unfold request. by destruct (lost w). Qed.

Lemma result_request c (serve : World -> Result A * World) w :
result (request c serve w) =
if lost w then Err transport_error else (serve (after_fault w)).1.
Proof. unfold request. by destruct (lost w). Qed.

Lemma final_request c (serve : World -> Result A * World) w :
final (request c serve w) =
if lost w then after_fault w else (serve (after_fault w)).2.
Proof. unfold request. by destruct (lost w). Qed.
End Running.

Lemma after_fault_fields w :
  networks (after_fault w) = networks w /\ volumes (after_fault w) = volumes w
  /\ images (after_fault w) = images w /\ containers (after_fault w) = containers w
  /\ execs (after_fault w) = execs w /\ retired (after_fault w) = retired w
  /\ latency (after_fault w) = latency w /\ seeds (after_fault w) = seeds w.
Proof. unfold after_fault. by destruct (faults w). Qed.

Lemma shape_set_state id st w : shape (set_state id st w) = shape w.
Proof.
  unfold shape, set_state; simpl. rewrite <- list_fmap_compose.
  apply list_fmap_ext. intros i c _. simpl. by case_bool_decide.
Qed.


Lemma benign_ret {A} (a : A) : benign (ret a).
Proof. done. Qed.

Lemma benign_stop {A} (x : Result A) : benign (stop x).
Proof. done. Qed.

Lemma benign_wrap {A} p (m : M A) : benign m -> benign (wrap p m).
Proof. intros Hm w. rewrite issued_wrap, final_wrap. apply Hm. Qed.

Lemma benign_bind {A B} (m : M A) (k : A -> M B) :
  benign m -> (forall a, benign (k a)) -> benign (bind m k).
Proof.
  intros Hm Hk w. destruct (Hm w) as (Hi & Hs & Hr).
  rewrite issued_bind, final_bind. unfold lifecycle in *. rewrite filter_app, Hi.
  destruct (result (m w)) as [a| | |]; simpl; try done.
  destruct (Hk a (final (m w))) as (Hi' & Hs' & Hr'). unfold lifecycle in Hi'.
  rewrite Hi', Hs', Hr'. done.
Qed.

Lemma benign_request {A} c (serve : World -> Result A * World) :
  destructive c = false ->
  (forall w, shape (serve w).2 = shape w /\ retired (serve w).2 = retired w) ->
  benign (request c serve).
Proof.
  intros Hc Hs w. rewrite issued_request, final_request.
  destruct (after_fault_fields w) as (_ & _ & _ & Hcs & _ & Hr & _).
  assert (shape (after_fault w) = shape w) as Hsh by (unfold shape; by rewrite Hcs).
  split; [unfold lifecycle; rewrite filter_cons_False; [done | rewrite Hc; simpl; tauto] |].
  destruct (lost w); [done |].
  destruct (Hs (after_fault w)) as [-> ->]. done.
Qed.

Lemma benign_on_container {A} id (f : Container -> World -> Result A * World) w :
  (forall c w, shape (f c w).2 = shape w /\ retired (f c w).2 = retired w) ->
  shape (on_container id f w).2 = shape w /\ retired (on_container id f w).2 = retired w.
Proof. intros Hf. unfold on_container. destruct (find_container id w); [apply Hf | done]. Qed.

Lemma benign_on_exec {A} id (f : Exec -> World -> Result A * World) w :
  (forall c w, shape (f c w).2 = shape w /\ retired (f c w).2 = retired w) ->
  shape (on_exec id f w).2 = shape w /\ retired (on_exec id f w).2 = retired w.
Proof. intros Hf. unfold on_exec. destruct (find_exec id w); [apply Hf | done]. Qed.


Lemma benign_imagePull ref : benign (imagePull ref).
Proof. apply benign_request; [done |]. intros w; simpl. by case_bool_decide. Qed.

Lemma benign_readStream s : benign (readStream s).
Proof.
  apply benign_request; [done |]. intros w. destruct s; simpl; try done.
  by rewrite shape_set_state.
Qed.

Lemma benign_containerStart id : benign (containerStart id).
Proof.
  apply benign_request; [done |]. intros w. apply benign_on_container.
  intros c w'; simpl. by rewrite shape_set_state.
Qed.

Lemma benign_copyToContainer id path a : benign (copyToContainer id path a).
Proof. apply benign_request; [done |]. intros w. by apply benign_on_container. Qed.

Lemma benign_containerExecCreate id cfg : benign (containerExecCreate id cfg).
Proof. apply benign_request; [done |]. intros w. by apply benign_on_container. Qed.

Lemma benign_containerExecAttach e : benign (containerExecAttach e).
Proof. apply benign_request; [done |]. intros w. by apply benign_on_exec. Qed.

Lemma benign_containerExecStart e : benign (containerExecStart e).
Proof. apply benign_request; [done |]. intros w. by apply benign_on_exec. Qed.

Lemma benign_containerExecInspect e : benign (containerExecInspect e).
Proof. apply benign_request; [done |]. intros w. by apply benign_on_exec. Qed.

Lemma benign_containerList all f : benign (containerList all f).
Proof. by apply benign_request. Qed.

Lemma benign_containerInspect id : benign (containerInspect id).
Proof. apply benign_request; [done |]. intros w. by apply benign_on_container. Qed.

Lemma benign_rangeMap {V} (m : gmap string V) : benign (rangeMap m).
Proof. intros w. unfold rangeMap. by destruct (seeds w). Qed.

Create HintDb benign discriminated.
#[local] Hint Resolve benign_ret benign_stop benign_wrap benign_imagePull benign_readStream
  benign_containerStart benign_copyToContainer benign_containerExecCreate
  benign_containerExecAttach benign_containerExecStart benign_containerExecInspect
  benign_containerList benign_containerInspect benign_rangeMap : benign.

Ltac benign := repeat first [ solve [ auto with benign ] | apply benign_bind; [| intros ] ].

Import sitecontainer.

Lemma benign_waitExec fuel e : benign (waitExec fuel e).
Proof.
  induction fuel as [| n IH]; simpl; [apply benign_stop |].
  apply benign_bind; [auto with benign |]. intros []; auto with benign.
Qed.

Lemma benign_runCommand fuel id c : benign (runCommand fuel id c).
Proof. unfold runCommand. pose proof (benign_waitExec fuel). benign. Qed.

Lemma benign_forEach {X} (l : list X) body :
  (forall x, benign (body x)) -> benign (forEach l body).
Proof. intros Hb. induction l; simpl; [apply benign_ret |]. by apply benign_bind. Qed.

Lemma benign_provision `{Helpers} fuel id site : benign (provision fuel id site).
Proof.
  unfold provision. apply benign_bind; [auto with benign | intros _].
  apply benign_bind.
  - case_bool_decide; [| auto with benign]. benign.
  - intros commands. apply benign_bind; [auto with benign | intros entries].
    apply benign_forEach. intros x. apply benign_runCommand.
Qed.

Lemma lifecycle_app t1 t2 : lifecycle (t1 ++ t2) = lifecycle t1 ++ lifecycle t2.
Proof. apply filter_app. Qed.

Lemma new_id_fresh w : new_id w ∉ used_ids w.
Proof. apply infinite_is_fresh. Qed.

Lemma new_id_not_retired w : new_id w ∉ retired w.
Proof. intros Hin. apply (new_id_fresh w). unfold used_ids. set_solver. Qed.

Lemma new_id_not_container w c : c ∈ containers w -> new_id w ≠ ID c.
Proof.
  intros Hc Heq. apply (new_id_fresh w). unfold used_ids.
  rewrite Heq. apply elem_of_app. left. by apply list_elem_of_fmap_2.
Qed.


(** Running a benign program first: the rest runs in a world with the same
    containers, or the run ends there without a destructive request. *)
Lemma bind_benign {A B} (m : M A) (k : A -> M B) w :
  benign m ->
  exists w', shape w' = shape w /\ retired w' = retired w /\
    ((exists a, lifecycle (issued (bind m k w)) = lifecycle (issued (k a w'))
                /\ final (bind m k w) = final (k a w')
                /\ result (bind m k w) = result (k a w'))
     \/ (is_ok (result (bind m k w)) = false
         /\ lifecycle (issued (bind m k w)) = []
         /\ final (bind m k w) = w')).
Proof.
  intros Hm. destruct (Hm w) as (Hi & Hs & Hr).
  exists (final (m w)). split; [done |]. split; [done |].
  rewrite issued_bind, final_bind, result_bind, lifecycle_app, Hi.
  destruct (result (m w)) as [a| | |]; [left; by exists a | right; by rewrite ?app_nil_r ..].
Qed.

Ltac benign_step w' Hs Hr :=
  match goal with
  | |- context [bind ?m ?k ?w] =>
      let Hm := fresh "Hm" in
      assert (benign m) as Hm by (benign; auto with benign);
      destruct (bind_benign m k w Hm) as (w' & Hs & Hr & [(? & -> & -> & ->) | (? & -> & ->)]);
      clear Hm
  end.

Lemma shape_after_fault w : shape (after_fault w) = shape w.
Proof. unfold shape. by destruct (after_fault_fields w) as (_ & _ & _ & -> & _). Qed.

Lemma retired_after_fault w : retired (after_fault w) = retired w.
Proof. by destruct (after_fault_fields w) as (_ & _ & _ & _ & _ & -> & _). Qed.

#[local] Hint Resolve benign_provision benign_runCommand benign_waitExec : benign.

Section SiteContainerFacts.
Context `{Helpers}.


Lemma create_outcome fuel home net site w :
let o := create fuel home net site w in
((lifecycle (issued o) = [] \/ exists spec, lifecycle (issued o) = [ContainerCreate spec])
 /\ shape (final o) = shape w
 /\ retired (final o) = retired w /\ is_ok (result o) = false)
\/ exists id, created home net site w o id.
Proof.
intros o; subst o; unfold create, created; cbv zeta.
set (image := NginxImage (Version site)).
benign_step w1 Hs1 Hr1; [| left; rewrite Hs1, Hr1; by auto ].
benign_step w2 Hs2 Hr2; [| left; rewrite Hs2, Hr2, Hs1, Hr1; by auto ].
rewrite <- Hs1, <- Hr1, <- Hs2, <- Hr2. clear Hs1 Hr1 Hs2 Hr2 w w1.
rewrite issued_bind, final_bind, result_bind. cbn [stop result final issued app].
destruct (GetAbsPath site home) as [path| | |]; [| left; by auto ..].
rewrite issued_bind, final_bind, result_bind, issued_wrap, final_wrap, result_wrap.
unfold containerCreate.
rewrite issued_request, final_request, result_request.
destruct (lost w2).
{ left. rewrite shape_after_fault, retired_after_fault, app_nil_r.
  split; [right; by eexists | done]. }
cbn [fst snd]. rewrite <- (shape_after_fault w2), <- (retired_after_fault w2).
generalize (after_fault w2). clear w2. intros w3.
right. exists (new_id w3), path. split; [done |].
rewrite lifecycle_app.
benign_step w4 Hs4 Hr4.
- cbn [ret result final issued]. rewrite Hs4, Hr4.
  split; [done |]. split; [done |]. split; [done |].
  split; [apply new_id_not_retired |]. by intros id' [= <-].
- rewrite Hs4, Hr4. split; [done |]. split; [done |]. split; [done |].
  split; [apply new_id_not_retired |].
  intros id' Hid. by rewrite Hid in *.
Qed.
End SiteContainerFacts.

Lemma listed_after_fault all f w : listed all f (after_fault w) = listed all f w.
Proof. unfold listed. by destruct (after_fault_fields w) as (_ & _ & _ & -> & _). Qed.

Lemma find_container_after_fault id w :
  find_container id (after_fault w) = find_container id w.
Proof. unfold find_container. by destruct (after_fault_fields w) as (_ & _ & _ & -> & _). Qed.

Lemma find_container_set_state id st w c :
  find_container id w = Some c ->
  find_container id (set_state id st w)
  = Some {| ID := ID c; Names := Names c; State := st; Spec := Spec c |}.
Proof.
  unfold find_container, set_state; simpl.
  induction (containers w) as [| x l IH]; simpl; [done |].
  case_bool_decide as Hx; simpl.
  - intros [= ->]. by rewrite bool_decide_true.
  - rewrite bool_decide_false by done. apply IH.
Qed.

Lemma retired_set_state id st w : retired (set_state id st w) = retired w.
Proof. done. Qed.

Lemma lifecycle_cons c t :
  lifecycle (c :: t) = if destructive c then c :: lifecycle t else lifecycle t.
Proof.
  unfold lifecycle. destruct (destructive c) eqn:E.
  - rewrite filter_cons_True; [done | by rewrite E].
  - rewrite filter_cons_False; [done | rewrite E; simpl; tauto].
Qed.

Lemma lifecycle_nil : lifecycle [] = [].
Proof. done. Qed.

Ltac lifecycle :=
  repeat first [ rewrite lifecycle_app | rewrite lifecycle_cons | rewrite lifecycle_nil ];
  cbn [destructive app].



(** One request followed by the rest of the program. *)
Lemma bind_request {A B} c (serve : World -> Result A * World) (k : A -> M B) w :
  bind (request c serve) k w =
  if lost w then failed (Err transport_error) (after_fault w) c
  else match (serve (after_fault w)).1 with
       | Ok a => prepend c (k a (serve (after_fault w)).2)
       | Err e => failed (Err e) (serve (after_fault w)).2 c
       | Panic e => failed (Panic e) (serve (after_fault w)).2 c
       | Diverge => failed Diverge (serve (after_fault w)).2 c
       end.
Proof.
  unfold bind, request. destruct (lost w); [done |]. cbn [result final issued].
  by destruct (serve (after_fault w)).1.
Qed.

Lemma bind_wrap_request {A B} p c (serve : World -> Result A * World) (k : A -> M B) w :
  bind (wrap p (request c serve)) k w =
  if lost w then failed (Err (p +:+ transport_error)) (after_fault w) c
  else match (serve (after_fault w)).1 with
       | Ok a => prepend c (k a (serve (after_fault w)).2)
       | Err e => failed (Err (p +:+ e)) (serve (after_fault w)).2 c
       | Panic e => failed (Panic e) (serve (after_fault w)).2 c
       | Diverge => failed Diverge (serve (after_fault w)).2 c
       end.
Proof.
  unfold bind, wrap, request. destruct (lost w); [done |]. cbn [result final issued].
  by destruct (serve (after_fault w)).1.
Qed.

Lemma bind_replace_request {A B} p c (serve : World -> Result A * World) (k : A -> M B) w :
  bind (replace_err p (request c serve)) k w =
  if lost w then failed (Err p) (after_fault w) c
  else match (serve (after_fault w)).1 with
       | Ok a => prepend c (k a (serve (after_fault w)).2)
       | Err e => failed (Err p) (serve (after_fault w)).2 c
       | Panic e => failed (Panic e) (serve (after_fault w)).2 c
       | Diverge => failed Diverge (serve (after_fault w)).2 c
       end.
Proof.
  unfold bind, replace_err, request. destruct (lost w); [done |]. cbn [result final issued].
  by destruct (serve (after_fault w)).1.
Qed.

Lemma on_container_Some {A} id (f : Container -> World -> Result A * World) w c :
  find_container id w = Some c -> on_container id f w = f c w.
Proof. unfold on_container. by intros ->. Qed.

Ltac outcome := cbn [prepend failed result final issued fst snd].

Section Rebuild.
Context `{Helpers}.
Variable match_Site : string -> Site -> Container -> bool.

Lemma rebuild fuel home net site w c rest details :
listed true (Add NewArgs "label" (labels.Host +:+ "=" +:+ Hostname site)) w = c :: rest ->
find_container (ID c) w = Some details ->
match_Site home site details = false ->
let o := StartOrCreate match_Site fuel home net site w in
(exists spec, lifecycle (issued o)
              `prefix_of` [ContainerStop (ID c); ContainerRemove (ID c); ContainerCreate spec])
/\ (forall id, result o = Ok id ->
      id ≠ ID c
      /\ exists path,
           GetAbsPath site home = Ok path
           /\ lifecycle (issued o)
              = [ContainerStop (ID c); ContainerRemove (ID c);
                 ContainerCreate (siteSpec (NginxImage (Version site)) path net site)]).
Proof.
intros Hlist Hfind Hdrift o; subst o; unfold StartOrCreate; cbv zeta.
set (dummy := {| Image := EmptyString; Cmd := []; Env := []; Labels := ∅; ExposedPorts := ∅;
                 NetworkMode := EmptyString; Mounts := []; ExtraHosts := [];
                 PortBindings := ∅; EndpointsConfig := ∅; Name := EmptyString |}).
(* the query *)
unfold containerList. rewrite bind_replace_request.
destruct (lost w); outcome.
{ lifecycle. split; [exists dummy; apply prefix_nil | done]. }
rewrite listed_after_fault, Hlist.
rewrite <- (find_container_after_fault (ID c) w) in Hfind.
revert Hfind. generalize (after_fault w). clear Hlist w. intros w Hfind.
(* the inspection *)
unfold containerInspect. rewrite bind_request.
destruct (lost w); outcome.
{ lifecycle. split; [exists dummy; apply prefix_nil | done]. }
rewrite <- (find_container_after_fault (ID c) w) in Hfind.
rewrite (on_container_Some _ _ _ _ Hfind). outcome.
revert Hfind. generalize (after_fault w). clear w. intros w Hfind.
rewrite Hdrift. cbn [negb].
(* stop *)
unfold containerStop. rewrite bind_request.
destruct (lost w); outcome.
{ lifecycle. split; [exists dummy; by apply prefix_cons, prefix_nil | done]. }
rewrite <- (find_container_after_fault (ID c) w) in Hfind.
rewrite (on_container_Some _ _ _ _ Hfind). outcome.
apply (find_container_set_state _ "exited") in Hfind.
revert Hfind. generalize (set_state (ID c) "exited" (after_fault w)). clear w. intros w Hfind.
(* remove *)
unfold containerRemove. rewrite bind_request.
destruct (lost w); outcome.
{ lifecycle. split; [exists dummy; by apply prefix_cons, prefix_cons, prefix_nil | done]. }
rewrite <- (find_container_after_fault (ID c) w) in Hfind.
rewrite (on_container_Some _ _ _ _ Hfind). cbn [State].
rewrite bool_decide_false by done. outcome.
set (w' := set_retired _ _).
assert (ID c ∈ retired w') as Hret by (subst w'; simpl; set_solver).
clearbody w'. clear Hfind w.
(* create *)
lifecycle.
destruct (create_outcome fuel home net site w')
  as [([Hl | [spec Hl]] & _ & _ & Hok) | (id & path & Hpath & Hl & _ & _ & Hid & Hres)];
  rewrite Hl.
- split; [exists dummy; by apply prefix_cons, prefix_cons, prefix_nil |].
  intros id Hid. by rewrite Hid in Hok.
- split; [by exists spec |]. intros id Hid. by rewrite Hid in Hok.
- split; [by eexists |]. intros id' Hid'. apply Hres in Hid' as ->.
  split; [| by exists path]. intros ->. apply Hid. congruence.
Qed.
End Rebuild.

Lemma reliable_lost n w : reliable (S n) w -> lost w = false.
Proof.
  unfold reliable, lost. destruct (faults w) as [| b fs]; [done |].
  simpl. by intros [-> _]%Forall_cons.
Qed.

Lemma reliable_after_fault n w : reliable (S n) w -> reliable n (after_fault w).
Proof.
  unfold reliable, after_fault. destruct (faults w) as [| b fs] eqn:E; simpl.
  - intros _. rewrite E. by destruct n.
  - by intros [_ ?]%Forall_cons.
Qed.

Lemma bind_Ok_inv {A B} (m : M A) (k : A -> M B) w b :
  result (bind m k w) = Ok b ->
  exists a, result (m w) = Ok a
            /\ result (k a (final (m w))) = Ok b
            /\ final (bind m k w) = final (k a (final (m w))).
Proof.
  rewrite result_bind, final_bind. destruct (result (m w)) as [a| | |]; [| done ..].
  intros Hb. by exists a.
Qed.


Lemma siteFilter_holds `{Helpers} image path net site :
  labels_hold (Labels (siteSpec image path net site)) (siteFilter site) = true.
Proof.
  unfold labels_hold, siteFilter, Add, NewArgs, values. simpl.
  unfold label_holds.
  assert (cut "=" (labels.Host +:+ "=" +:+ Hostname site) = (labels.Host, Some (Hostname site)))
    as -> by reflexivity.
  rewrite bool_decide_true; [done |]. apply lookup_insert_eq.
Qed.

Section Idempotence.
Context `{Helpers}.


Lemma settled_of_shape home net site path id sh w :
GetAbsPath site home = Ok path ->
shape w = (id, siteSpec (NginxImage (Version site)) path net site) :: sh ->
settled home site id w.
Proof.
intros Hpath Hsh. unfold shape in Hsh.
destruct (containers w) as [| c rest] eqn:Hcs; [done |].
injection Hsh as Hid Hspec _.
exists c, (filter (fun c => (true || bool_decide (State c = "running"))
                            && labels_hold (Labels (Spec c)) (siteFilter site)) rest), c.
split; [| split; [done | split]].
- unfold listed. rewrite Hcs. rewrite filter_cons_True; [done |].
  rewrite Hspec, siteFilter_holds. done.
- unfold find_container. rewrite Hcs. simpl. by rewrite bool_decide_true.
- unfold match_.Site. rewrite Hpath. unfold match_.bind_sources. rewrite Hspec.
  cbn [Image Mounts Env ExtraHosts siteSpec].
  assert (filter (fun m => mType m = "bind")
            [{| mType := "bind"; Source := path; Target := "/app" |}]
          = [{| mType := "bind"; Source := path; Target := "/app" |}]) as ->
    by (by rewrite filter_cons_True, filter_nil).
  cbn [fmap list_fmap Source]. by rewrite !bool_decide_true.
Qed.

Lemma settled_after_fault home site id w :
settled home site id w -> settled home site id (after_fault w).
Proof.
intros (c & rest & d & ? & ? & ? & ?). exists c, rest, d.
by rewrite listed_after_fault, find_container_after_fault.
Qed.

Lemma first_call fuel home net site w id :
result (StartOrCreate match_.Site fuel home net site w) = Ok id ->
settled home site id (final (StartOrCreate match_.Site fuel home net site w)).
Proof.
unfold StartOrCreate; cbv zeta. fold (siteFilter site).
unfold containerList. rewrite bind_replace_request.
destruct (lost w); outcome; [done |].
rewrite listed_after_fault. destruct (listed true (siteFilter site) w) as [| c rest] eqn:Hl.
- (* no container: create *)
  intros Hid.
  destruct (create_outcome fuel home net site (after_fault w))
    as [(_ & _ & _ & Hok) | (id' & path & Hpath & _ & Hsh & _ & _ & Hres)].
  + by rewrite Hid in Hok.
  + apply Hres in Hid as ->. exact (settled_of_shape _ _ _ _ _ _ _ Hpath Hsh).
- (* a container: inspect *)
  rewrite <- (listed_after_fault _ _ w) in Hl. revert Hl.
  generalize (after_fault w). clear w. intros w Hl.
  unfold containerInspect. rewrite bind_request.
  destruct (lost w); outcome; [done |].
  unfold on_container. rewrite find_container_after_fault.
  destruct (find_container (ID c) w) as [d |] eqn:Hd; outcome; [| done].
  destruct (match_.Site home site d) eqn:Hm; cbn [negb].
  + (* it matches: nothing to do *)
    intros [= <-]. apply settled_after_fault. by exists c, rest, d.
  + (* it drifted: stop, remove, create *)
    intros Hid.
    apply bind_Ok_inv in Hid as (_ & _ & Hid & ->).
    apply bind_Ok_inv in Hid as (_ & _ & Hid & ->).
    match type of Hid with result (create _ _ _ _ ?w') = _ =>
      destruct (create_outcome fuel home net site w')
        as [(_ & _ & _ & Hok) | (id' & path & Hpath & _ & Hsh & _ & _ & Hres)]
    end.
    * by rewrite Hid in Hok.
    * apply Hres in Hid as ->. exact (settled_of_shape _ _ _ _ _ _ _ Hpath Hsh).
Qed.

Lemma second_call fuel home net site w id :
settled home site id w ->
let o := StartOrCreate match_.Site fuel home net site w in
lifecycle (issued o) = []
/\ (forall id', result o = Ok id' -> id' = id)
/\ (reliable 2 w -> result o = Ok id).
Proof.
intros (c & rest & d & Hl & Hid & Hd & Hm) o; subst o.
unfold StartOrCreate; cbv zeta. fold (siteFilter site).
unfold containerList. rewrite bind_replace_request.
destruct (lost w) eqn:Hlost; outcome.
{ split; [done |]. split; [done |]. intros Hr%reliable_lost. congruence. }
rewrite listed_after_fault, Hl.
unfold containerInspect. rewrite bind_request.
destruct (lost (after_fault w)) eqn:Hlost'; outcome.
{ split; [done |]. split; [done |].
  intros Hr%reliable_after_fault%reliable_lost. congruence. }
rewrite Hid. rewrite <- (find_container_after_fault id w) in Hd.
rewrite <- (find_container_after_fault id (after_fault w)) in Hd.
rewrite (on_container_Some _ _ _ _ Hd). outcome. rewrite Hm. cbn [negb ret result issued].
lifecycle. split; [done |]. split; [by intros ? [= <-] | done].
Qed.
End Idempotence.

(** ** [StartOrCreate] *)

(** C1.  Idempotence: when a call of [StartOrCreate] returned a container
id, a second call for the same site in the world the first one left behind
sends no create, stop or remove request; if it returns an id, it is the same
id; and it does return it unless one of its two requests is lost in
transit. *)
Theorem C1_StartOrCreate_idempotent `{Helpers} fuel fuel' home net site w id :
  result (StartOrCreate match_.Site fuel home net site w) = Ok id ->
  let w' := final (StartOrCreate match_.Site fuel home net site w) in
  let second := StartOrCreate match_.Site fuel' home net site w' in
  lifecycle (issued second) = []
  /\ (forall id', result second = Ok id' -> id' = id)
  /\ (reliable 2 w' -> result second = Ok id).
Proof.
  intros Hid.
  exact (second_call fuel' home net site _ id (first_call fuel home net site w id Hid)).
Qed.


Lemma C1_StartOrCreate_idempotent_witness :
  result (StartOrCreate (H := example.helpers) (@match_.Site example.helpers) 5 "/home/u" "net"
            example.site example.world) = Ok "0"
  /\ let w' := final (StartOrCreate (H := example.helpers) (@match_.Site example.helpers)
                        5 "/home/u" "net" example.site example.world) in
     let second := StartOrCreate (H := example.helpers) (@match_.Site example.helpers)
                     5 "/home/u" "net" example.site w' in
     lifecycle (issued second) = []
     /\ (forall id', result second = Ok id' -> id' = "0")
     /\ (reliable 2 w' -> result second = Ok "0").
Proof.
  assert (result (StartOrCreate (H := example.helpers) (@match_.Site example.helpers)
                    5 "/home/u" "net" example.site example.world) = Ok "0") as Hid
    by (vm_compute; reflexivity).
  split; [exact Hid |].
  exact (C1_StartOrCreate_idempotent (H := example.helpers) 5 5 "/home/u" "net"
           example.site example.world "0" Hid).
Defined.

(** C2.  Rebuild: when the query for the site lists a container first and
the drift detector rejects it, the create, stop and remove requests that
[StartOrCreate] sends form a prefix of "stop it, remove it, create one"; and
when the call returns an id, they are exactly that sequence and the id is not
the one of the removed container. *)
Theorem C2_StartOrCreate_rebuild `{Helpers} (match_Site : string -> Site -> Container -> bool)
  fuel home net site w c rest details :
  listed true (siteFilter site) w = c :: rest ->
  find_container (ID c) w = Some details ->
  match_Site home site details = false ->
  let o := StartOrCreate match_Site fuel home net site w in
  (exists spec, lifecycle (issued o)
                `prefix_of` [ContainerStop (ID c); ContainerRemove (ID c); ContainerCreate spec])
  /\ (forall id, result o = Ok id ->
        id ≠ ID c
        /\ exists path,
             GetAbsPath site home = Ok path
             /\ lifecycle (issued o)
                = [ContainerStop (ID c); ContainerRemove (ID c);
                   ContainerCreate (siteSpec (NginxImage (Version site)) path net site)]).
Proof. exact (rebuild match_Site fuel home net site w c rest details). Qed.

Lemma C2_StartOrCreate_rebuild_witness :
  let o := StartOrCreate (H := example.helpers) (@match_.Site example.helpers) 5 "/home/u" "net"
             example.site_8 example.reconciled in
  result o = Ok "3"
  /\ (exists spec, lifecycle (issued o)
                   `prefix_of` [ContainerStop (ID example.first_container);
                                ContainerRemove (ID example.first_container);
                                ContainerCreate spec])
  /\ (forall id, result o = Ok id ->
        id ≠ ID example.first_container
        /\ exists path,
             GetAbsPath (Helpers := example.helpers) example.site_8 "/home/u" = Ok path
             /\ lifecycle (issued o)
                = [ContainerStop (ID example.first_container);
                   ContainerRemove (ID example.first_container);
                   ContainerCreate (siteSpec (H := example.helpers)
                                      (NginxImage (Version example.site_8)) path "net"
                                      example.site_8)]).
Proof.
  intros o. split; [vm_compute; reflexivity |].
  refine (C2_StartOrCreate_rebuild (H := example.helpers) (@match_.Site example.helpers)
            5 "/home/u" "net" example.site_8 example.reconciled example.first_container []
            example.first_container _ _ _); vm_compute; reflexivity.
Defined.

(** C3.  The two provisioning commands are kept in a Go map and run in the
order in which [range] visits it, which the language leaves open.  In the
empty runtime, for the site of scenario B, [create] succeeds and runs
[chmod 0644] before [cp] under one order of the map, and [cp] before [chmod]
under the other. *)
Theorem C3_create_runs_chmod_before_cp :
  let chmod_first := create (H := example.helpers) 5 "/home/u" "net" example.site
                       (set_seeds example.world [0]) in
  let cp_first := create (H := example.helpers) 5 "/home/u" "net" example.site
                    (set_seeds example.world [1]) in
  Dir example.site ≠ "web"
  /\ result chmod_first = Ok "0"
  /\ exec_commands (issued chmod_first) = [set_nginx_permissions; copy_nginx_file]
  /\ result cp_first = Ok "0"
  /\ exec_commands (issued cp_first) = [copy_nginx_file; set_nginx_permissions].
Proof. repeat split; vm_compute; congruence. Qed.

(** ** The resource reconciler and the proxy *)

Import initialize.

Lemma exactNetwork_last env nets :
  exactNetwork env nets =
  match last (filter (fun n => nName n = env) nets) with
  | Some n => (true, nID n)
  | None => (false, EmptyString)
  end.
Proof.
  unfold exactNetwork. induction nets as [| n nets IH] using rev_ind; [done |].
  rewrite foldl_app, filter_app, IH. cbn [foldl].
  destruct (decide (nName n = env)) as [Hn | Hn].
  - rewrite filter_cons_True, filter_nil by done. rewrite last_snoc.
    destruct (last _); by rewrite bool_decide_true.
  - rewrite filter_cons_False, filter_nil, app_nil_r by done.
    destruct (last _); by rewrite bool_decide_false.
Qed.

Lemma exactVolume_last env vols :
  exactVolume env vols =
  match last (filter (fun v => vName v = env) vols) with
  | Some v => (true, Some v)
  | None => (false, None)
  end.
Proof.
  unfold exactVolume. induction vols as [| v vols IH] using rev_ind; [done |].
  rewrite foldl_app, filter_app, IH. cbn [foldl].
  destruct (decide (vName v = env)) as [Hn | Hn].
  - rewrite filter_cons_True, filter_nil by done. rewrite last_snoc.
    destruct (last _); by rewrite bool_decide_true.
  - rewrite filter_cons_False, filter_nil, app_nil_r by done.
    destruct (last _); by rewrite bool_decide_false.
Qed.

(** C4.  Whatever the runtime answered the fuzzy query with, the reconciler
accepts only a network (a volume) whose name is exactly the environment
name: if there is one, the id of the last such network (the last such volume)
is the answer and nothing is sent; if there is none, however close the other
names are, exactly one create request is sent, with the environment's
identity labels, and unless it is lost the answer is the id of the new
network (a volume of that name, now in the runtime). *)
Theorem C4_reconciler_exact_match env (nets : list Network) (vols : list Volume) w :
  match last (filter (fun n => nName n = env) nets) with
  | Some n =>
      reconcileNetwork env nets w = {| result := Ok (nID n); final := w; issued := [] |}
  | None =>
      let o := reconcileNetwork env nets w in
      issued o = [NetworkCreate env "bridge" true
                    (<[labels.Network := env]> (<[labels.Environment := env]> ∅))]
      /\ (lost w = true -> result o = Err ("unable to create the network, " +:+ transport_error)
                           /\ networks (final o) = networks w)
      /\ (lost w = false ->
            result o = Ok (new_id (after_fault w))
            /\ networks (final o)
               = networks w ++ [{| nName := env; nID := new_id (after_fault w);
                                   nLabels := <[labels.Network := env]>
                                                (<[labels.Environment := env]> ∅) |}])
  end
  /\ match last (filter (fun v => vName v = env) vols) with
     | Some v =>
         reconcileVolume env vols w = {| result := Ok v; final := w; issued := [] |}
     | None =>
         let o := reconcileVolume env vols w in
         issued o = [VolumeCreate env "local"
                       (<[labels.Volume := env]> (<[labels.Environment := env]> ∅))]
         /\ (lost w = true -> result o = Err ("unable to create the volume, " +:+ transport_error)
                              /\ volumes (final o) = volumes w)
         /\ (lost w = false ->
               exists v, result o = Ok v /\ vName v = env /\ v ∈ volumes (final o))
     end.
Proof.
  split.
  - unfold reconcileNetwork. rewrite exactNetwork_last.
    destruct (last _) as [n |]; [done |].
    cbv zeta. rewrite issued_wrap, result_wrap, final_wrap. unfold networkCreate.
    rewrite issued_request, result_request, final_request.
    destruct (after_fault_fields w) as (Hn & _).
    split; [done |]. split; intros ->; cbn [fst snd]; [done |].
    simpl. by rewrite Hn.
  - unfold reconcileVolume. rewrite exactVolume_last.
    destruct (last _) as [v |]; [done |].
    cbv zeta. rewrite issued_wrap, result_wrap, final_wrap. unfold volumeCreate.
    rewrite issued_request, result_request, final_request.
    destruct (after_fault_fields w) as (_ & Hv & _).
    split; [done |]. split; intros ->; cbn [fst snd]; [done |].
    destruct (List.find _ _) as [v |] eqn:Hfind; cbn [fst snd].
    + apply find_some in Hfind as [Hin Hname]. exists v.
      split; [done |]. split; [by apply bool_decide_eq_true in Hname |].
      by apply list_elem_of_In.
    + eexists. split; [done |]. split; [done |]. simpl. set_solver.
Qed.

(** C5.  With [NITRO_HTTP_PORT=8080] and no proxy yet, bootstrap succeeds
and creates one container that exposes [8080/tcp] beside the three defaults,
but binds it to the host port 80 of the loopback address, not to 8080: the
host ports of lines 287-312 are constants. *)
Theorem C5_override_published_on_default_port :
  let o := RunE (example.init (<["NITRO_HTTP_PORT" := "8080"]> ∅)) [] example.world in
  result o = Ok tt
  /\ exists spec,
       created_specs (issued o) = [spec]
       /\ ExposedPorts spec = {["8080/tcp"; "443/tcp"; "5000/tcp"; "9003/tcp"]}
       /\ published spec "8080/tcp" = ["80"]
       /\ HostIP <$> default [] (PortBindings spec !! "8080/tcp") = ["127.0.0.1"].
Proof.
  split; [vm_compute; reflexivity |].
  eexists. split; [vm_compute; reflexivity |].
  repeat split; vm_compute; reflexivity.
Qed.

(** C6.  With a non-numeric override of the https, api or debugger port
and no proxy yet, bootstrap does not fail: [nat.NewPort] does report an
error, but lines 222, 238 and 254 drop it, the run goes on to create the
container (exposing the empty port) and returns without error. *)
Theorem C6_non_numeric_override_ignored :
  Forall (fun var =>
            let o := RunE (example.init (<[var := "abc"]> ∅)) [] example.world in
            result o = Ok tt
            /\ exists spec, created_specs (issued o) = [spec] /\ EmptyString ∈ ExposedPorts spec)
         ["NITRO_HTTPS_PORT"; "NITRO_API_PORT"; "NITRO_XDEBUG_PORT"]
  /\ (nat_.NewPort "tcp" "abc").2 ≠ None.
Proof.
  split; [| vm_compute; congruence].
  repeat apply Forall_cons_2; [.. | apply Forall_nil_2];
    (split; [vm_compute; reflexivity |]);
    (eexists; split; [vm_compute; reflexivity |]);
    apply (bool_decide_unpack _); vm_compute; exact I.
Qed.

(** ** The composer command *)

Import composer.

Lemma bind_stop_Ok {A B} (a : A) (k : A -> M B) w : bind (stop (Ok a)) k w = k a w.
Proof. unfold bind, stop. cbn. by destruct (k a w). Qed.

Lemma bind_wrap_stop_Ok {A B} p (a : A) (k : A -> M B) w :
  bind (wrap p (stop (Ok a))) k w = k a w.
Proof. unfold bind, wrap, stop. cbn. by destruct (k a w). Qed.

Lemma bind_stop_Err {A B} e (k : A -> M B) w :
  bind (stop (Err e)) k w = {| result := Err e; final := w; issued := [] |}.
Proof. done. Qed.



Lemma bind_ret {A B} (a : A) (k : A -> M B) w : bind (ret a) k w = k a w.
Proof. apply bind_stop_Ok. Qed.

Lemma bind_assoc {A B C} (m : M A) (k : A -> M B) (k' : B -> M C) w :
  bind (bind m k) k' w = bind m (fun a => bind (k a) k') w.
Proof.
  unfold bind. cbn [result final issued]. destruct (result (m w)) as [a| | |]; [| done ..].
  cbn [result final issued]. destruct (result (k a (final (m w)))); cbn [result final issued];
    by rewrite ?app_assoc.
Qed.

Section SendsOnly.
Context (P : Call -> bool) {A B : Type}.

Lemma sends_only_ret (a : A) : sends_only P (ret a).
Proof. done. Qed.

Lemma sends_only_stop (x : Result A) : sends_only P (stop x).
Proof. done. Qed.

Lemma sends_only_wrap p (m : M A) : sends_only P m -> sends_only P (wrap p m).
Proof. intros Hm w. by rewrite issued_wrap. Qed.

Lemma sends_only_replace_err p (m : M A) : sends_only P m -> sends_only P (replace_err p m).
Proof. intros Hm w. by rewrite issued_replace_err. Qed.

Lemma sends_only_request c (serve : World -> Result A * World) :
  P c = true -> sends_only P (request c serve).
Proof. intros Hc w. rewrite issued_request. cbn. by rewrite Hc. Qed.

Lemma sends_only_bind (m : M A) (k : A -> M B) :
  sends_only P m -> (forall a, sends_only P (k a)) -> sends_only P (bind m k).
Proof.
  intros Hm Hk w. rewrite issued_bind, forallb_app, Hm.
  destruct (result (m w)); [apply Hk | done ..].
Qed.
End SendsOnly.

Ltac sends_only :=
  repeat first
    [ apply sends_only_ret | apply sends_only_stop
    | apply sends_only_wrap | apply sends_only_replace_err
    | apply sends_only_request; reflexivity
    | apply sends_only_bind; [| intros ] ].

Lemma sends_only_pull P image p p' :
  P (ImagePull image) = true -> P (ReadStream (PullOutput image)) = true ->
  sends_only P (bind (wrap p (imagePull image)) (fun rdr => wrap p' (readStream rdr))).
Proof.
  intros H1 H2 w. unfold imagePull. rewrite bind_wrap_request.
  destruct (lost w); outcome; [cbn; by rewrite H1 |].
  rewrite issued_wrap. unfold readStream. rewrite issued_request. cbn. by rewrite H1, H2.
Qed.


Lemma setup_sends_no_teardown h args :
  sends_only (fun c => negb (is_teardown c)) (setup h args).
Proof.
  unfold setup.
  apply sends_only_bind; [sends_only | intros [version newArgs]].
  apply sends_only_bind; [sends_only | intros wd].
  apply sends_only_bind; [sends_only | intros path].
  apply sends_only_bind; [sends_only | intros action].
  apply sends_only_bind; [| intros _].
  { case_bool_decide; [destruct (negb _) |]; sends_only. }
  apply sends_only_bind; [unfold imageList; sends_only | intros images].
  apply sends_only_bind; [| intros _].
  { destruct images; [| sends_only]. by apply sends_only_pull. }
  apply sends_only_bind; [unfold volumeList; sends_only | intros volumes].
  apply sends_only_bind; [| intros pathVolume].
  { unfold pickVolume. destruct volumes as [| ? [| ? ?]]; unfold volumeCreate; sends_only. }
  unfold CreateContainer, containerCreate. sends_only.
Qed.

Lemma containerCreate_Ok p spec w id :
  result (wrap p (containerCreate spec) w) = Ok id ->
  exists c, find_container id (final (wrap p (containerCreate spec) w)) = Some c.
Proof.
  rewrite result_wrap, final_wrap. unfold containerCreate.
  rewrite result_request, final_request. destruct (lost w); [done |]. cbn [fst snd].
  intros [= <-]. eexists. unfold find_container. cbn [containers set_containers List.find ID].
  by rewrite bool_decide_true.
Qed.

Lemma setup_Ok h args w id :
  result (setup h args w) = Ok id ->
  exists c, find_container id (final (setup h args w)) = Some c.
Proof.
  unfold setup. intros H.
  apply bind_Ok_inv in H as ([version newArgs] & _ & H & ->).
  apply bind_Ok_inv in H as (wd & _ & H & ->).
  apply bind_Ok_inv in H as (path & _ & H & ->).
  apply bind_Ok_inv in H as (action & _ & H & ->).
  apply bind_Ok_inv in H as (_ & _ & H & ->).
  apply bind_Ok_inv in H as (images & _ & H & ->).
  apply bind_Ok_inv in H as (_ & _ & H & ->).
  apply bind_Ok_inv in H as (volumes & _ & H & ->).
  apply bind_Ok_inv in H as (pathVolume & _ & H & ->).
  by apply containerCreate_Ok in H.
Qed.

Lemma find_container_set_state_Some id id' st w c :
  find_container id w = Some c -> exists c', find_container id (set_state id' st w) = Some c'.
Proof.
  unfold find_container, set_state; simpl.
  induction (containers w) as [| x l IH]; simpl; [done |].
  case_bool_decide as Hx; simpl.
  - intros _. destruct (bool_decide (ID x = id')); simpl; rewrite bool_decide_true by done;
      by eexists.
  - intros Hc. destruct (bool_decide (ID x = id')); simpl; rewrite bool_decide_false by done;
      by apply IH.
Qed.

Lemma find_container_removed id w :
  find_container id (set_retired (set_containers w (filter (fun c' => ID c' ≠ id) (containers w)))
                       (id :: retired w)) = None.
Proof.
  unfold find_container. cbn [containers set_retired set_containers].
  induction (containers w) as [| x l IH]; [done |].
  destruct (decide (ID x = id)) as [Hx | Hx].
  - by rewrite filter_cons_False by (by intros ?).
  - rewrite filter_cons_True by done. cbn [List.find]. by rewrite bool_decide_false.
Qed.


Lemma runTask_end id w c : find_container id w = Some c -> task_end id (runTask id w).
Proof.
  intros Hc. unfold runTask.
  (* attach *)
  unfold containerAttach. rewrite bind_wrap_request.
  rewrite <- (find_container_after_fault id w) in Hc.
  destruct (lost w); outcome.
  { apply task_failed_elsewhere; outcome; [done | by left | by eexists]. }
  rewrite (on_container_Some _ _ _ _ Hc). outcome.
  revert Hc. generalize (after_fault w). clear w. intros w Hc.
  (* start *)
  unfold containerStart. rewrite bind_wrap_request.
  rewrite <- (find_container_after_fault id w) in Hc.
  destruct (lost w); outcome.
  { apply task_failed_elsewhere; outcome; [done | by right; left | by eexists]. }
  rewrite (on_container_Some _ _ _ _ Hc). outcome.
  apply (find_container_set_state _ "running") in Hc.
  revert Hc. generalize (set_state id "running" (after_fault w)). clear w. intros w Hc.
  (* copy the output *)
  unfold readStream. rewrite bind_wrap_request.
  rewrite <- (find_container_after_fault id w) in Hc.
  destruct (lost w); outcome.
  { apply task_copy_failed; outcome; [done | done | by eexists]. }
  apply (find_container_set_state _ "exited") in Hc. cbn [ID Names Spec] in Hc.
  revert Hc. generalize (set_state id "exited" (after_fault w)). clear w. intros w Hc.
  (* remove *)
  unfold containerRemove. rewrite bind_request.
  rewrite <- (find_container_after_fault id w) in Hc.
  destruct (lost w); outcome.
  { apply task_failed_elsewhere; outcome; [done | by right; right | by eexists]. }
  rewrite (on_container_Some _ _ _ _ Hc). cbn [State].
  rewrite bool_decide_false by done. outcome.
  apply task_done; cbn [ret result final issued]; [done | done |].
  apply find_container_removed.
Qed.

Lemma forallb_last {A} (P : A -> bool) l x : forallb P l = true -> last l = Some x -> P x = true.
Proof.
  intros Hl Hx. apply last_Some in Hx as [l' ->].
  rewrite forallb_app in Hl. apply andb_true_iff in Hl as [_ Hl]. cbn in Hl.
  by apply andb_true_iff in Hl as [? _].
Qed.

Lemma forallb_elem_of {A} (P : A -> bool) l x : forallb P l = true -> x ∈ l -> P x = true.
Proof. rewrite forallb_forall. intros Hl Hx. by apply Hl, list_elem_of_In. Qed.

(** C8.  A run of the composer command that returns without error ended
with attach, start, copy of the output and remove for one container, which
is no longer in the runtime.  A run whose last request was the copy of the
output of a container returns the copy error, has started that container,
has sent no remove for it, and leaves it in the runtime. *)
Theorem C8_task_container_removed h args w :
  let o := RunE h args w in
  (result o = Ok tt ->
     exists id pre,
       issued o = pre ++ [ContainerAttach id; ContainerStart id;
                          ReadStream (ContainerOutput id); ContainerRemove id]
       /\ find_container id (final o) = None)
  /\ (forall id,
        last (issued o) = Some (ReadStream (ContainerOutput id)) ->
        result o = Err ("unable to copy the output of the container logs, " +:+ transport_error)
        /\ ContainerStart id ∈ issued o
        /\ (ContainerRemove id ∉ issued o)
        /\ is_Some (find_container id (final o))).
Proof.
  intros o; subst o. unfold RunE. rewrite result_bind, issued_bind, final_bind.
  pose proof (setup_sends_no_teardown h args w) as Hpre.
  destruct (result (setup h args w)) as [id0| | |] eqn:E.
  - destruct (setup_Ok _ _ _ _ E) as [c Hc].
    destruct (runTask_end id0 _ c Hc) as [Hr Hi Hf | Hr Hi Hf | Hr Hi Hf];
      [rewrite Hi | rewrite Hi |].
    + split; [intros _; by exists id0, (issued (setup h args w)) |].
      intros id. rewrite last_app. by cbn.
    + rewrite Hr. split; [done |].
      intros id. rewrite last_app. cbn. intros [= <-].
      split; [done |]. split; [set_solver |]. split; [| done].
      intros Hin. apply elem_of_app in Hin as [Hin | Hin].
      * by apply (forallb_elem_of _ _ _ Hpre) in Hin.
      * apply list_elem_of_In in Hin. cbn in Hin. by intuition.
    + split; [intros Hok; by rewrite Hok in Hr |].
      intros id. rewrite last_app.
      destruct Hi as [-> | [-> | ->]]; by cbn.
  - rewrite app_nil_r. split; [done |]. intros id Hl.
    by apply (forallb_last _ _ _ Hpre) in Hl.
  - rewrite app_nil_r. split; [done |]. intros id Hl.
    by apply (forallb_last _ _ _ Hpre) in Hl.
  - rewrite app_nil_r. split; [done |]. intros id Hl.
    by apply (forallb_last _ _ _ Hpre) in Hl.
Qed.

(** ** The cache volume *)


Lemma creates_nothing_spec l :
  forallb creates_nothing l = true ->
  filter is_volume_create l = [] /\ created_specs l = [].
Proof.
  induction l as [| c l IH]; [done |]. cbn [forallb].
  intros [Hc Hl]%andb_true_iff. destruct (IH Hl) as [IH1 IH2]. split.
  - rewrite filter_cons_False; [done |].
    destruct c; cbn in Hc |- *; first [discriminate | tauto].
  - unfold created_specs in *. destruct c; try discriminate Hc; by cbn.
Qed.

Lemma runTask_creates_nothing id : sends_only creates_nothing (runTask id).
Proof.
  unfold runTask, containerAttach, containerStart, readStream, containerRemove.
  sends_only.
Qed.

Lemma volumeFilter_eq image path :
  Add (Add (Del (Add NewArgs "reference" image) "reference" image) "label"
         (labels.Type_ +:+ "=composer")) "label" (labels.Path +:+ "=" +:+ path)
  = volumeFilter path.
Proof.
  unfold Add, Del, NewArgs. cbn [app].
  rewrite (filter_cons_False _ ("reference", image) []); [done | by intros ?].
Qed.

Lemma lost_quiet w : faults w = [] -> lost w = false.
Proof. unfold lost. by intros ->. Qed.

Lemma after_fault_quiet w : faults w = [] -> after_fault w = w.
Proof. unfold after_fault. by intros ->. Qed.

Lemma listedVolumes_after_fault f w : listedVolumes f (after_fault w) = listedVolumes f w.
Proof. unfold listedVolumes. by destruct (after_fault_fields w) as (_ & -> & _). Qed.

Lemma faults_after_fault w : faults w = [] -> faults (after_fault w) = [].
Proof. intros H. by rewrite after_fault_quiet. Qed.


Lemma zero_volume_run_cons path sure c calls :
  creates_nothing c = true ->
  zero_volume_run path sure calls -> zero_volume_run path sure (c :: calls).
Proof.
  intros Hc (H1 & H2 & H3). unfold zero_volume_run, created_specs in *.
  destruct c; try discriminate Hc; cbn [omap list_omap];
    (split; [rewrite filter_cons_False; [done | cbn; tauto] | done]).
Qed.

Lemma zero_volume_run_stop path (sure : Prop) calls :
  forallb creates_nothing calls = true -> ~ sure -> zero_volume_run path sure calls.
Proof.
  intros [H1 H2]%creates_nothing_spec Hs. unfold zero_volume_run. rewrite H1, H2.
  split; [done |]. split; [by intros ? ?%elem_of_nil | done].
Qed.

Lemma setup_many_volumes h args w version newArgs wd path v1 v2 vs :
  parseArgs args 0 args EmptyString [] = Ok (version, newArgs) ->
  Getwd h = Ok wd ->
  Abs h wd = Ok path ->
  listedVolumes (volumeFilter path) w = v1 :: v2 :: vs ->
  zero_volume_run path
    (faults w = []
     /\ exists action rest,
          newArgs = action :: rest
          /\ (action = "create-project" \/ IsFile h (Join h path "composer.json") = true))
    (issued (setup h args w)).
Proof.
  intros Hparse Hwd Habs Hvols. unfold setup.
  rewrite Hparse, bind_stop_Ok. cbv beta iota zeta.
  rewrite Hwd, bind_wrap_stop_Ok, Habs, bind_wrap_stop_Ok.
  destruct newArgs as [| action rest].
  { cbn. apply zero_volume_run_stop; [done |]. by intros (_ & ? & ? & [=] & _). }
  rewrite bind_stop_Ok. rewrite volumeFilter_eq.
  set (image := "docker.io/library/" +:+ "composer" +:+ ":" +:+ _).
  (* the check for composer.json *)
  match goal with |- context [bind (if _ then _ else _) ?k w] => set (K := k) end.
  assert (zero_volume_run path (faults w = []) (issued (K tt w))) as HK; last first.
  { case_bool_decide as Ha.
    - destruct (IsFile h _) eqn:Hf; cbn [negb].
      + rewrite bind_ret. destruct HK as (? & ? & HK). repeat split; try done.
        intros [Hq _]. by apply HK.
      + rewrite bind_stop_Err. cbn [issued]. apply zero_volume_run_stop; [done |].
        intros (_ & a & r & [= <- <-] & [? | ?]); congruence.
    - rewrite bind_ret. destruct HK as (? & ? & HK). repeat split; try done.
      intros [Hq _]. by apply HK. }
  subst K. cbv beta.
  match goal with |- zero_volume_run _ _ (issued (?prog w)) =>
    enough (forall w', listedVolumes (volumeFilter path) w' = v1 :: v2 :: vs ->
                       (faults w = [] -> faults w' = []) ->
                       zero_volume_run path (faults w = []) (issued (prog w'))) as Hgen
      by (by apply Hgen)
  end.
  clear Hvols. intros w' Hv Hq.
  (* the image *)
  unfold imageList. rewrite bind_wrap_request.
  destruct (lost w') eqn:Hl; outcome.
  { apply zero_volume_run_stop; [done |]. intros Hw%Hq%lost_quiet. congruence. }
  apply zero_volume_run_cons; [done |].
  rewrite <- (listedVolumes_after_fault _ w') in Hv.
  assert (faults w = [] -> faults (after_fault w') = []) as Hq'
    by (intros Hw; by apply faults_after_fault, Hq).
  revert Hv Hq'. generalize (after_fault w'). clear Hl Hq w'. intros w' Hv Hq.
  match goal with |- context [bind (match ?l with [] => _ | _ => _ end) ?k w'] =>
    set (K := k); set (images := l) end.
  assert (forall w'', listedVolumes (volumeFilter path) w'' = v1 :: v2 :: vs ->
                      (faults w = [] -> faults w'' = []) ->
                      zero_volume_run path (faults w = []) (issued (K tt w''))) as HK;
    last first.
  { destruct images as [| ? ?]; [| rewrite bind_ret; by apply HK].
    rewrite bind_assoc. unfold imagePull. rewrite bind_wrap_request.
    destruct (lost w') eqn:Hl; outcome.
    { apply zero_volume_run_stop; [done |]. intros Hw%Hq%lost_quiet. congruence. }
    apply zero_volume_run_cons; [done |].
    unfold readStream. rewrite bind_wrap_request.
    match goal with |- context [lost ?x] => set (w1 := x) end.
    assert (listedVolumes (volumeFilter path) w1 = v1 :: v2 :: vs
            /\ (faults w = [] -> faults w1 = [])) as [Hv1 Hq1].
    { subst w1. rewrite <- (listedVolumes_after_fault _ w') in Hv.
      split; [by case_bool_decide |].
      intros Hw. apply Hq, faults_after_fault in Hw. by case_bool_decide. }
    clearbody w1.
    destruct (lost w1) eqn:Hl1; outcome.
    { apply zero_volume_run_stop; [done |]. intros Hw%Hq1%lost_quiet. congruence. }
    apply zero_volume_run_cons; [done |]. apply HK.
    - by rewrite listedVolumes_after_fault.
    - intros Hw. by apply faults_after_fault, Hq1. }
  subst K. cbv beta. clear dependent w'. intros w' Hv Hq.
  (* the volumes *)
  unfold volumeList. rewrite bind_request.
  destruct (lost w') eqn:Hl; outcome.
  { apply zero_volume_run_stop; [done |]. intros Hw%Hq%lost_quiet. congruence. }
  apply zero_volume_run_cons; [done |].
  rewrite listedVolumes_after_fault, Hv. cbn [pickVolume]. rewrite bind_ret.
  (* the container *)
  rewrite issued_wrap. unfold CreateContainer, containerCreate. rewrite issued_request.
  unfold zero_volume_run, created_specs. cbn [omap list_omap oVolume oPath Mounts].
  split; [done |]. split; [by intros spec ->%list_elem_of_singleton | by eexists].
Qed.

Lemma zero_volume_run_app path sure calls calls' :
  zero_volume_run path sure calls -> forallb creates_nothing calls' = true ->
  zero_volume_run path sure (calls ++ calls').
Proof.
  intros (H1 & H2 & H3) [H1' H2']%creates_nothing_spec.
  unfold zero_volume_run, created_specs in *.
  by rewrite filter_app, omap_app, H1, H1', H2', !app_nil_r.
Qed.


(** C10.  When the runtime has more than one volume with the composer
labels of the working directory, the run sends no volume-create request;
every container it creates mounts the zero volume (empty name) as its cache;
and when no request is lost and the check for composer.json passes, it does
create one container. *)
Theorem C10_many_volumes_zero_volume h args w version newArgs wd path v1 v2 vs :
  parseArgs args 0 args EmptyString [] = Ok (version, newArgs) ->
  Getwd h = Ok wd ->
  Abs h wd = Ok path ->
  listedVolumes (volumeFilter path) w = v1 :: v2 :: vs ->
  let o := RunE h args w in
  filter is_volume_create (issued o) = []
  /\ (forall spec, spec ∈ created_specs (issued o) ->
        Mounts spec = [{| mType := "volume"; Source := vName zero_Volume; Target := "/root" |};
                       {| mType := "bind"; Source := path; Target := "/app" |}])
  /\ (faults w = [] ->
      forall action rest,
        newArgs = action :: rest ->
        action = "create-project" \/ IsFile h (Join h path "composer.json") = true ->
        exists spec, created_specs (issued o) = [spec]).
Proof.
  intros Hparse Hwd Habs Hvols o; subst o.
  pose proof (setup_many_volumes _ _ _ _ _ _ _ _ _ _ Hparse Hwd Habs Hvols) as Hsetup.
  assert (zero_volume_run path
            (faults w = []
             /\ exists action rest,
                  newArgs = action :: rest
                  /\ (action = "create-project"
                      \/ IsFile h (Join h path "composer.json") = true))
            (issued (RunE h args w))) as (H1 & H2 & H3).
  { unfold RunE. rewrite issued_bind. apply zero_volume_run_app; [done |].
    destruct (result (setup h args w)); [apply runTask_creates_nothing | done ..]. }
  split; [done |]. split; [done |].
  intros Hq action rest Hargs Hcheck. apply H3. split; [done |]. by exists action, rest.
Qed.

Lemma C10_many_volumes_zero_volume_witness :
  listedVolumes (volumeFilter "/home/U/Proj") example.two_caches
  = [example.cache "proj_composer_1"; example.cache "proj_composer_2"]
  /\ let o := RunE (example.host ["/home/U/Proj/composer.json"]) ["install"]
                example.two_caches in
     filter is_volume_create (issued o) = []
     /\ (forall spec, spec ∈ created_specs (issued o) ->
           Mounts spec = [{| mType := "volume"; Source := vName zero_Volume;
                             Target := "/root" |};
                          {| mType := "bind"; Source := "/home/U/Proj"; Target := "/app" |}])
     /\ (faults example.two_caches = [] ->
         forall action rest,
           ["install"] = action :: rest ->
           action = "create-project"
           \/ IsFile (example.host ["/home/U/Proj/composer.json"])
                (Join (example.host ["/home/U/Proj/composer.json"]) "/home/U/Proj"
                   "composer.json") = true ->
           exists spec, created_specs (issued o) = [spec]).
Proof.
  assert (listedVolumes (volumeFilter "/home/U/Proj") example.two_caches
          = [example.cache "proj_composer_1"; example.cache "proj_composer_2"]) as Hv
    by (vm_compute; reflexivity).
  split; [exact Hv |].
  exact (C10_many_volumes_zero_volume (example.host ["/home/U/Proj/composer.json"])
           ["install"] example.two_caches EmptyString ["install"] "/home/U/Proj" "/home/U/Proj"
           _ _ [] eq_refl eq_refl eq_refl Hv).
Defined.

(** C9.  When the first argument left after the version flags is not
[create-project] and there is no composer.json in the working directory, the
command returns the "unable to find file" error, leaves the runtime as it
was and has sent no request at all. *)
Theorem C9_no_composer_json_no_request h args w version action rest wd path :
  parseArgs args 0 args EmptyString [] = Ok (version, action :: rest) ->
  action ≠ "create-project" ->
  Getwd h = Ok wd ->
  Abs h wd = Ok path ->
  IsFile h (Join h path "composer.json") = false ->
  RunE h args w
  = {| result := Err ("unable to find file " +:+ Join h path "composer.json");
       final := w; issued := [] |}.
Proof.
  intros Hparse Haction Hwd Habs Hfile.
  assert (setup h args w
          = {| result := Err ("unable to find file " +:+ Join h path "composer.json");
               final := w; issued := [] |}) as Hsetup.
  { unfold setup. rewrite Hparse, bind_stop_Ok. cbv beta iota zeta.
    rewrite Hwd, bind_wrap_stop_Ok, Habs, bind_wrap_stop_Ok, bind_stop_Ok.
    rewrite bool_decide_true by done. rewrite Hfile. cbn [negb].
    by rewrite bind_stop_Err. }
  unfold RunE, bind. by rewrite Hsetup.
Qed.

Lemma C9_no_composer_json_no_request_witness :
  parseArgs ["install"; "--no-dev"] 0 ["install"; "--no-dev"] EmptyString []
  = Ok (EmptyString, ["install"; "--no-dev"])
  /\ "install" ≠ "create-project"
  /\ RunE (example.host []) ["install"; "--no-dev"] example.world
     = {| result := Err ("unable to find file "
                         +:+ Join (example.host []) "/home/U/Proj" "composer.json");
          final := example.world; issued := [] |}.
Proof.
  split; [reflexivity |]. split; [done |].
  exact (C9_no_composer_json_no_request (example.host []) ["install"; "--no-dev"]
           example.world EmptyString "install" ["--no-dev"] "/home/U/Proj" "/home/U/Proj"
           eq_refl ltac:(done) eq_refl eq_refl eq_refl).
Defined.

(** ** The name of the cache volume *)







Lemma of_chars_chars s : of_chars (chars s) = s.
Proof. induction s; simpl; congruence. Qed.










(** ** Provisioning a site container *)

Section ProvisioningFacts.
Import config sitecontainer.

Lemma range_order_Permutation {A} seed (l : list A) : range_order seed l ≡ₚ l.
Proof.
  unfold range_order. destruct (permutations l !! _) as [l' |] eqn:E; [| done].
  symmetry. apply permutations_Permutation. by eapply list_elem_of_lookup_2.
Qed.

Lemma range_order_nil {A} seed : range_order seed (@nil A) = [].
Proof. apply Permutation_nil_r, range_order_Permutation. Qed.

Lemma exec_commands_app t1 t2 : exec_commands (t1 ++ t2) = exec_commands t1 ++ exec_commands t2.
Proof. apply omap_app. Qed.

Lemma copies_app t1 t2 : copies (t1 ++ t2) = copies t1 ++ copies t2.
Proof. apply omap_app. Qed.

Lemma plain_calls l : forallb plain l = true -> exec_commands l = [] /\ copies l = [].
Proof.
  induction l as [| c l IH]; [done |]. cbn [forallb].
  intros [Hc Hl]%andb_true_iff. unfold exec_commands, copies in *.
  destruct c; try discriminate Hc; cbn; by apply IH.
Qed.

Lemma waitExec_sends_only P fuel e :
  P (ContainerExecInspect e) = true -> sends_only P (waitExec fuel e).
Proof.
  intros HP. induction fuel as [| n IH]; cbn [waitExec]; [apply sends_only_stop |].
  apply sends_only_bind; [unfold containerExecInspect; by apply sends_only_request |].
  intros []; [done | apply sends_only_ret].
Qed.

(** Once its exec session is created, a command sends no copy and creates
no other session. *)
Lemma runCommand_rest P fuel id e :
  (forall s, P (ReadStream s) = true) ->
  P (ContainerExecAttach e) = true -> P (ContainerExecStart e) = true ->
  P (ContainerExecInspect e) = true -> P (ContainerStart id) = true ->
  sends_only P
    (let* attach := containerExecAttach e in
     do wrap "unable to copy the output of container, " (readStream attach) then
     do wrap "unable to start the container, " (containerExecStart e) then
     do waitExec fuel e then
     wrap "unable to start the container, " (containerStart id)).
Proof.
  intros H1 H2 H3 H4 H5.
  apply sends_only_bind; [unfold containerExecAttach; by apply sends_only_request | intros s].
  apply sends_only_bind;
    [apply sends_only_wrap; unfold readStream; by apply sends_only_request | intros _].
  apply sends_only_bind;
    [apply sends_only_wrap; unfold containerExecStart; by apply sends_only_request | intros _].
  apply sends_only_bind; [by apply waitExec_sends_only | intros _].
  apply sends_only_wrap. unfold containerStart. by apply sends_only_request.
Qed.

Lemma runCommand_commands fuel id c w :
  exec_commands (issued (runCommand fuel id c w)) = [c]
  /\ copies (issued (runCommand fuel id c w)) = [].
Proof.
  unfold runCommand, containerExecCreate. rewrite bind_request.
  destruct (lost w); outcome; [done |].
  unfold on_container. destruct (find_container id (after_fault w)); outcome; [| done].
  match goal with |- context [issued (?rest ?w')] =>
    destruct (plain_calls _ (runCommand_rest plain fuel id (new_id (after_fault w))
                               ltac:(done) eq_refl eq_refl eq_refl eq_refl w')) as [H1 H2]
  end.
  unfold exec_commands, copies in *. cbn [omap list_omap ExecCmd]. by rewrite H1, H2.
Qed.

Lemma forEach_commands {X} (f : X -> list string) fuel id (l : list X) w :
  copies (issued (forEach l (fun x => runCommand fuel id (f x)) w)) = []
  /\ exec_commands (issued (forEach l (fun x => runCommand fuel id (f x)) w))
     `prefix_of` (f <$> l)
  /\ (result (forEach l (fun x => runCommand fuel id (f x)) w) = Ok tt ->
      exec_commands (issued (forEach l (fun x => runCommand fuel id (f x)) w)) = f <$> l).
Proof.
  revert w. induction l as [| x l IH]; intros w; [done |].
  cbn [forEach]. rewrite issued_bind, result_bind, copies_app, exec_commands_app.
  destruct (runCommand_commands fuel id (f x) w) as [-> ->].
  destruct (result (runCommand fuel id (f x) w)) as [[]| | |].
  - destruct (IH (final (runCommand fuel id (f x) w))) as (-> & Hp & Hok).
    split; [done |]. change (f <$> x :: l) with (f x :: (f <$> l)).
    split; [by apply prefix_cons |].
    intros H. cbn [app]. by rewrite (Hok H).
  - split; [done |]. split; [| done]. change (f <$> x :: l) with (f x :: (f <$> l)).
    apply prefix_cons, prefix_nil.
  - split; [done |]. split; [| done]. change (f <$> x :: l) with (f x :: (f <$> l)).
    apply prefix_cons, prefix_nil.
  - split; [done |]. split; [| done]. change (f <$> x :: l) with (f x :: (f <$> l)).
    apply prefix_cons, prefix_nil.
Qed.

Lemma bind_Ok_issued {A B} (m : M A) (k : A -> M B) w b :
  result (bind m k w) = Ok b ->
  exists a, result (m w) = Ok a
            /\ result (k a (final (m w))) = Ok b
            /\ issued (bind m k w) = issued (m w) ++ issued (k a (final (m w))).
Proof.
  rewrite result_bind, issued_bind. destruct (result (m w)) as [a| | |]; [| done ..].
  intros Hb. by exists a.
Qed.

Lemma bind_rangeMap {V B} (m : gmap string V) (k : list (string * V) -> M B) w :
  exists seed w', bind (rangeMap m) k w = k (range_order seed (map_to_list m)) w'
                  /\ shape w' = shape w /\ retired w' = retired w.
Proof.
  unfold bind, rangeMap. destruct (seeds w) as [| s ss]; cbn [result final issued app].
  - exists 0, w. by destruct (k _ w).
  - exists s, (set_seeds w ss). by destruct (k _ _).
Qed.

Lemma plain_request {A} c (serve : World -> Result A * World) w :
  plain c = true -> forallb plain (issued (request c serve w)) = true.
Proof. intros Hc. rewrite issued_request. cbn. by rewrite Hc. Qed.

Section Provisioning.
Context `{Helpers}.

Lemma provision_custom_root fuel id site w :
  Dir site ≠ "web" ->
  result (provision fuel id site w) = Ok tt ->
  exec_commands (issued (provision fuel id site w)) ≡ₚ [copy_nginx_file; set_nginx_permissions]
  /\ exists tr, archive_Generate "default.conf" (nginx_Generate (Dir site)) = Ok tr
                /\ copies (issued (provision fuel id site w)) = [(id, "/tmp", tr)].
Proof.
  intros Hdir. unfold provision. rewrite (bool_decide_true _ Hdir).
  intros Hok. apply bind_Ok_issued in Hok as ([] & _ & Hok & ->).
  rewrite exec_commands_app, copies_app.
  destruct (plain_calls (issued (wrap "unable to start the container, " (containerStart id) w)))
    as [-> ->].
  { rewrite issued_wrap. by apply plain_request. }
  cbn [app]. revert Hok. generalize (final (wrap "unable to start the container, "
                                              (containerStart id) w)). clear w. intros w Hok.
  rewrite bind_assoc in Hok |- *.
  destruct (archive_Generate "default.conf" (nginx_Generate (Dir site))) as [tr| | |] eqn:Htr;
    [| done ..].
  rewrite bind_stop_Ok in Hok |- *. rewrite bind_assoc in Hok |- *.
  unfold copyToContainer in Hok |- *. rewrite bind_request in Hok |- *.
  destruct (lost w); [done |].
  destruct ((on_container id (fun _ w0 => (Ok (), w0)) (after_fault w)).1); [| done ..].
  revert Hok. outcome. generalize ((on_container id (fun _ w0 => (Ok (), w0)) (after_fault w)).2).
  clear w. intros w. rewrite bind_ret.
  destruct (bind_rangeMap (<["set-nginx-permissions" := set_nginx_permissions]>
                             (<["copy-nginx-file" := copy_nginx_file]>
                                (∅ : gmap string (list string))))
              (fun entries => forEach entries (fun kc => runCommand fuel id kc.2)) w)
    as (seed & w' & -> & _).
  intros Hok.
  destruct (forEach_commands snd fuel id (range_order seed (map_to_list
              (<["set-nginx-permissions" := set_nginx_permissions]>
                 (<["copy-nginx-file" := copy_nginx_file]>
                    (∅ : gmap string (list string)))))) w') as (Hc & _ & He).
  unfold exec_commands, copies in *. cbn [omap list_omap app]. rewrite Hc, (He Hok).
  clear Hc He Hok. split; [| exists tr; split; reflexivity].
  etrans; [apply fmap_Permutation, range_order_Permutation |].
  assert (map_to_list (<["set-nginx-permissions" := set_nginx_permissions]>
                         (<["copy-nginx-file" := copy_nginx_file]>
                            (∅ : gmap string (list string))))
          = [("set-nginx-permissions", set_nginx_permissions);
             ("copy-nginx-file", copy_nginx_file)]) as -> by (vm_compute; reflexivity).
  apply Permutation_swap.
Qed.
End Provisioning.

Section CreateFacts.
Context `{Helpers}.

(** X1.  A site whose document root is not [web]: when [create] returns the
id of the new container, the exec sessions it created ran the two commands
[cp] and [chmod] and no other, each once, in the order the range over the
map gave; and one file was copied, the archive made of the generated
[default.conf], into [/tmp] of that container. *)
Theorem create_custom_root_provisioning fuel home net site w id :
  Dir site ≠ "web" ->
  result (create fuel home net site w) = Ok id ->
  exec_commands (issued (create fuel home net site w))
    ≡ₚ [copy_nginx_file; set_nginx_permissions]
  /\ exists tr, archive_Generate "default.conf" (nginx_Generate (Dir site)) = Ok tr
                /\ copies (issued (create fuel home net site w)) = [(id, "/tmp", tr)].
Proof.
  intros Hdir. unfold create. cbv zeta. intros Hok.
  apply bind_Ok_issued in Hok as (rdr & _ & Hok & ->).
  rewrite exec_commands_app, copies_app.
  match goal with |- context [exec_commands (issued ?o) ++ _] =>
    destruct (plain_calls (issued o)) as [-> ->] end.
  { rewrite issued_wrap. by apply plain_request. }
  apply bind_Ok_issued in Hok as ([] & _ & Hok & ->).
  rewrite exec_commands_app, copies_app.
  match goal with |- context [exec_commands (issued ?o) ++ _] =>
    destruct (plain_calls (issued o)) as [-> ->] end.
  { rewrite issued_wrap. by apply plain_request. }
  apply bind_Ok_issued in Hok as (path & _ & Hok & ->).
  cbn [stop issued app].
  apply bind_Ok_issued in Hok as (resp & _ & Hok & ->).
  rewrite exec_commands_app, copies_app.
  match goal with |- context [exec_commands (issued ?o) ++ _] =>
    destruct (plain_calls (issued o)) as [-> ->] end.
  { rewrite issued_wrap. by apply plain_request. }
  apply bind_Ok_issued in Hok as ([] & Hprov & Hok & ->).
  cbn [ret result] in Hok. injection Hok as <-.
  cbn [ret issued app]. rewrite !app_nil_r.
  by apply provision_custom_root.
Qed.
End CreateFacts.

Section DefaultRoot.
Context `{Helpers}.

(** X2.  A site whose document root is [web]: [create] sends no copy and
creates no exec session; what it sends is an initial part of "pull the image,
read the pull output, create the container, start it", and all four, with the
id returned as the container started, when it returns an id. *)
Theorem create_default_root_no_provisioning fuel home net site w :
  Dir site = "web" ->
  exists spec id,
    issued (create fuel home net site w)
    `prefix_of` [ImagePull (NginxImage (Version site));
                 ReadStream (PullOutput (NginxImage (Version site)));
                 ContainerCreate spec; ContainerStart id]
    /\ (forall id', result (create fuel home net site w) = Ok id' ->
          id' = id
          /\ issued (create fuel home net site w)
             = [ImagePull (NginxImage (Version site));
                ReadStream (PullOutput (NginxImage (Version site)));
                ContainerCreate spec; ContainerStart id]).
Proof.
  intros Hdir. unfold create. cbv zeta.
  set (image := NginxImage (Version site)).
  set (dummy := {| Image := EmptyString; Cmd := []; Env := []; Labels := ∅; ExposedPorts := ∅;
                   NetworkMode := EmptyString; Mounts := []; ExtraHosts := [];
                   PortBindings := ∅; EndpointsConfig := ∅; Name := EmptyString |}).
  unfold imagePull. rewrite bind_wrap_request.
  destruct (lost w); outcome.
  { exists dummy, EmptyString. split; [by apply prefix_cons, prefix_nil | done]. }
  generalize (if bool_decide (image ∈ images (after_fault w))
              then after_fault w else set_images (after_fault w) (image :: images (after_fault w))).
  clear w. intros w.
  unfold readStream. rewrite bind_wrap_request.
  destruct (lost w); outcome.
  { exists dummy, EmptyString. split; [by apply prefix_cons, prefix_cons, prefix_nil | done]. }
  generalize (after_fault w). clear w. intros w.
  destruct (GetAbsPath site home) as [path| | |];
    [| exists dummy, EmptyString; split; [by apply prefix_cons, prefix_cons, prefix_nil | done] ..].
  rewrite bind_stop_Ok.
  unfold containerCreate. rewrite bind_wrap_request.
  destruct (lost w); outcome.
  { exists (siteSpec image path net site), EmptyString.
    split; [by apply prefix_cons, prefix_cons, prefix_cons, prefix_nil | done]. }
  set (id := new_id (after_fault w)).
  generalize (set_containers (after_fault w)
                ({| ID := id; Names := ["/" +:+ Name (siteSpec image path net site)];
                    State := "created"; Spec := siteSpec image path net site |}
                 :: containers (after_fault w))).
  clearbody id. clear w. intros w.
  exists (siteSpec image path net site), id.
  unfold provision. rewrite (bool_decide_false (Dir site ≠ "web")) by (by intros ?).
  rewrite bind_assoc. unfold containerStart. rewrite bind_wrap_request.
  destruct (lost w); outcome; [done |].
  destruct ((on_container id (fun _ w0 => (Ok (), set_state id "running" w0)) (after_fault w)).1);
    outcome; [| done ..].
  generalize ((on_container id (fun _ w0 => (Ok (), set_state id "running" w0))
                 (after_fault w)).2). clear w. intros w.
  rewrite bind_assoc, bind_ret, bind_assoc.
  destruct (bind_rangeMap (∅ : gmap string (list string))
              (fun entries =>
                 do forEach entries (fun kc => runCommand fuel id kc.2) then ret id) w)
    as (seed & w' & -> & _).
  rewrite map_to_list_empty, range_order_nil. cbn [forEach]. rewrite bind_ret.
  cbn [ret result issued]. split; [done |]. by intros id' [= <-].
Qed.
End DefaultRoot.

Lemma create_custom_root_provisioning_witness :
  exec_commands (issued (create (H := example.helpers) 5 "/home/u" "net" example.site
                           example.world))
    ≡ₚ [copy_nginx_file; set_nginx_permissions]
  /\ exists tr, @archive_Generate example.helpers "default.conf"
                  (@nginx_Generate example.helpers (Dir example.site)) = Ok tr
                /\ copies (issued (create (H := example.helpers) 5 "/home/u" "net"
                                     example.site example.world))
                   = [("0", "/tmp", tr)].
Proof.
  assert (Dir example.site ≠ "web") as Hdir by (by intros ?).
  assert (result (create (H := example.helpers) 5 "/home/u" "net" example.site
                    example.world) = Ok "0") as Hok by (vm_compute; reflexivity).
  exact (create_custom_root_provisioning (H := example.helpers) 5 "/home/u" "net"
           example.site example.world "0" Hdir Hok).
Defined.

Lemma create_default_root_no_provisioning_witness :
  let site := {| Hostname := "plain.test"; Aliases := []; Version := "8.0";
                 Path := "dev/plain"; Dir := "web"; Vars := [] |} in
  exists spec id,
    issued (create (H := example.helpers) 5 "/home/u" "net" site example.world)
    `prefix_of` [ImagePull (NginxImage (Version site));
                 ReadStream (PullOutput (NginxImage (Version site)));
                 ContainerCreate spec; ContainerStart id]
    /\ (forall id', result (create (H := example.helpers) 5 "/home/u" "net" site
                              example.world) = Ok id' ->
          id' = id
          /\ issued (create (H := example.helpers) 5 "/home/u" "net" site example.world)
             = [ImagePull (NginxImage (Version site));
                ReadStream (PullOutput (NginxImage (Version site)));
                ContainerCreate spec; ContainerStart id]).
Proof.
  exact (create_default_root_no_provisioning (H := example.helpers) 5 "/home/u" "net"
           {| Hostname := "plain.test"; Aliases := []; Version := "8.0";
              Path := "dev/plain"; Dir := "web"; Vars := [] |} example.world eq_refl).
Defined.


End ProvisioningFacts.

(** ** Keeping or replacing a site container *)

Section KeepOrReplaceFacts.
Import config sitecontainer.

Lemma find_container_elem c w : c ∈ containers w -> exists d, find_container (ID c) w = Some d.
Proof.
  unfold find_container. induction (containers w) as [| x l IH]; [by intros ?%elem_of_nil |].
  cbn [List.find]. case_bool_decide; [by eexists |].
  intros [-> | Hin]%elem_of_cons; [done | by apply IH].
Qed.

Lemma siteFilter_label (labels : gmap string string) site :
  labels_hold labels (siteFilter site) = true ->
  labels !! labels.Host = Some (Hostname site).
Proof.
  unfold labels_hold, siteFilter, Add, NewArgs, values. simpl.
  unfold label_holds.
  assert (cut "=" (labels.Host +:+ "=" +:+ Hostname site) = (labels.Host, Some (Hostname site)))
    as -> by reflexivity.
  rewrite andb_true_r. by intros ?%bool_decide_eq_true.
Qed.

Lemma listed_elem all f w c :
  c ∈ listed all f w -> c ∈ containers w /\ labels_hold (Labels (Spec c)) f = true.
Proof.
  unfold listed. intros [Hc Hin]%list_elem_of_filter. split; [done |].
  apply andb_prop_elim in Hc as [_ Hc]. by apply Is_true_eq_true.
Qed.

Lemma elem_of_lifecycle c calls : c ∈ calls -> destructive c = true -> c ∈ lifecycle calls.
Proof. intros Hin Hd. apply list_elem_of_filter. split; [by rewrite Hd | done]. Qed.

Section KeepOrReplace.
Context `{Helpers}.
Variable match_Site : string -> Site -> Container -> bool.

Lemma keep fuel home net site w c rest d :
  listed true (siteFilter site) w = c :: rest ->
  find_container (ID c) w = Some d ->
  match_Site home site d = true ->
  let o := StartOrCreate match_Site fuel home net site w in
  issued o `prefix_of` [ContainerList true (siteFilter site); ContainerInspect (ID c)]
  /\ containers (final o) = containers w
  /\ (forall id, result o = Ok id -> id = ID c)
  /\ (reliable 2 w -> result o = Ok (ID c)).
Proof.
  intros Hl Hd Hm o; subst o.
  unfold StartOrCreate; cbv zeta. fold (siteFilter site).
  destruct (after_fault_fields w) as (_ & _ & _ & Hc & _).
  destruct (after_fault_fields (after_fault w)) as (_ & _ & _ & Hc' & _).
  unfold containerList. rewrite bind_replace_request.
  destruct (lost w) eqn:Hlost; outcome.
  { split; [by apply prefix_cons, prefix_nil |]. split; [done |]. split; [done |].
    intros Hr%reliable_lost. congruence. }
  rewrite listed_after_fault, Hl.
  unfold containerInspect. rewrite bind_request.
  destruct (lost (after_fault w)) eqn:Hlost'; outcome.
  { split; [done |]. split; [congruence |]. split; [done |].
    intros Hr%reliable_after_fault%reliable_lost. congruence. }
  rewrite <- (find_container_after_fault (ID c) w) in Hd.
  rewrite <- (find_container_after_fault (ID c) (after_fault w)) in Hd.
  rewrite (on_container_Some _ _ _ _ Hd). outcome. rewrite Hm. cbn [negb ret result issued final].
  split; [done |]. split; [congruence |]. split; [by intros ? [= <-] | done].
Qed.

Lemma fresh_start fuel home net site w :
  listed true (siteFilter site) w = [] ->
  let o := StartOrCreate match_Site fuel home net site w in
  lifecycle (issued o) = [] \/ exists spec, lifecycle (issued o) = [ContainerCreate spec].
Proof.
  intros Hl o; subst o.
  unfold StartOrCreate; cbv zeta. fold (siteFilter site).
  unfold containerList. rewrite bind_replace_request.
  destruct (lost w); outcome; [by left |].
  rewrite listed_after_fault, Hl. lifecycle.
  destruct (create_outcome fuel home net site (after_fault w))
    as [(Hc & _) | (id & path & _ & -> & _)]; [done | right; by eexists].
Qed.

(** X3.  When the container listed first for the site is one the detector
accepts, [StartOrCreate] sends at most the list and the inspect request, leaves
the containers of the runtime as they are, returns no other id than that
container's, and does return it unless one of its two requests is lost. *)
Theorem StartOrCreate_keeps_matching_container fuel home net site w c rest d :
  listed true (siteFilter site) w = c :: rest ->
  find_container (ID c) w = Some d ->
  match_Site home site d = true ->
  let o := StartOrCreate match_Site fuel home net site w in
  issued o `prefix_of` [ContainerList true (siteFilter site); ContainerInspect (ID c)]
  /\ containers (final o) = containers w
  /\ (forall id, result o = Ok id -> id = ID c)
  /\ (reliable 2 w -> result o = Ok (ID c)).
Proof. exact (keep fuel home net site w c rest d). Qed.

(** X4.  [StartOrCreate] stops or removes no container but one of the runtime
that carries the host label of the site and that the detector rejected. *)
Theorem StartOrCreate_touches_only_the_site fuel home net site w id :
  ContainerStop id ∈ issued (StartOrCreate match_Site fuel home net site w)
  \/ ContainerRemove id ∈ issued (StartOrCreate match_Site fuel home net site w) ->
  exists c, c ∈ containers w /\ ID c = id
            /\ Labels (Spec c) !! labels.Host = Some (Hostname site)
            /\ exists d, find_container id w = Some d /\ match_Site home site d = false.
Proof.
  intros Hin.
  assert (exists x, x ∈ lifecycle (issued (StartOrCreate match_Site fuel home net site w))
                    /\ (x = ContainerStop id \/ x = ContainerRemove id)) as (x & Hx & Hid).
  { destruct Hin as [Hin | Hin]; eexists; (split; [by apply (elem_of_lifecycle _ _ Hin) |]);
      [by left | by right]. }
  clear Hin.
  destruct (listed true (siteFilter site) w) as [| c rest] eqn:Hl.
  - destruct (fresh_start fuel home net site w Hl) as [Hnone | [spec Hone]].
    + rewrite Hnone in Hx. by apply elem_of_nil in Hx.
    + rewrite Hone in Hx. apply list_elem_of_singleton in Hx.
      rewrite Hx in Hid. by destruct Hid.
  - assert (c ∈ listed true (siteFilter site) w) as Hc by (rewrite Hl; apply list_elem_of_here).
    apply listed_elem in Hc as [Hc Hlab].
    destruct (find_container_elem c w Hc) as [d Hd].
    destruct (match_Site home site d) eqn:Hm.
    + destruct (keep fuel home net site w c rest d Hl Hd Hm) as (Hp & _).
      assert (x ∈ [ContainerList true (siteFilter site); ContainerInspect (ID c)]) as Hx'.
      { apply list_elem_of_filter in Hx as [_ Hx]. destruct Hp as [k Hk]. rewrite Hk.
        apply elem_of_app. by left. }
      apply list_elem_of_In in Hx'. cbn in Hx'.
      destruct Hx' as [Hx' | [Hx' | []]]; rewrite <- Hx' in Hid; by destruct Hid.
    + destruct (rebuild match_Site fuel home net site w c rest d Hl Hd Hm) as ([spec Hp] & _).
      assert (x ∈ [ContainerStop (ID c); ContainerRemove (ID c); ContainerCreate spec]) as Hx'.
      { destruct Hp as [k Hk]. rewrite Hk. apply elem_of_app. by left. }
      assert (id = ID c) as Heq.
      { apply list_elem_of_In in Hx'. cbn in Hx'.
        destruct Hx' as [Hx' | [Hx' | [Hx' | []]]]; rewrite <- Hx' in Hid;
          destruct Hid as [Hid | Hid]; congruence. }
      rewrite Heq in *.
      exists c. split; [done |]. split; [done |].
      split; [by apply siteFilter_label | by exists d].
Qed.
End KeepOrReplace.

Lemma StartOrCreate_keeps_matching_container_witness :
  let o := StartOrCreate (H := example.helpers) (@match_.Site example.helpers) 5 "/home/u"
             "net" example.site example.reconciled in
  issued o `prefix_of` [ContainerList true (siteFilter example.site);
                        ContainerInspect (ID example.first_container)]
  /\ containers (final o) = containers example.reconciled
  /\ (forall id, result o = Ok id -> id = ID example.first_container)
  /\ (reliable 2 example.reconciled -> result o = Ok (ID example.first_container)).
Proof.
  assert (listed true (siteFilter example.site) example.reconciled
          = example.first_container :: []) as Hl by (vm_compute; reflexivity).
  assert (find_container (ID example.first_container) example.reconciled
          = Some example.first_container) as Hd by (vm_compute; reflexivity).
  assert (@match_.Site example.helpers "/home/u" example.site example.first_container = true)
    as Hm by (vm_compute; reflexivity).
  exact (StartOrCreate_keeps_matching_container (H := example.helpers)
           (@match_.Site example.helpers) 5 "/home/u" "net" example.site example.reconciled
           example.first_container [] example.first_container Hl Hd Hm).
Defined.

Lemma StartOrCreate_touches_only_the_site_witness :
  exists c, c ∈ containers example.reconciled /\ ID c = "0"
            /\ Labels (Spec c) !! labels.Host = Some (Hostname example.site_8)
            /\ exists d, find_container "0" example.reconciled = Some d
                         /\ @match_.Site example.helpers "/home/u" example.site_8 d = false.
Proof.
  assert (ContainerStop "0"
            ∈ issued (StartOrCreate (H := example.helpers) (@match_.Site example.helpers) 5
                        "/home/u" "net" example.site_8 example.reconciled)
          \/ ContainerRemove "0"
               ∈ issued (StartOrCreate (H := example.helpers) (@match_.Site example.helpers) 5
                           "/home/u" "net" example.site_8 example.reconciled)) as Hin.
  { left. apply list_elem_of_In. vm_compute. right. right. left. reflexivity. }
  exact (StartOrCreate_touches_only_the_site (H := example.helpers)
           (@match_.Site example.helpers) 5 "/home/u" "net" example.site_8
           example.reconciled "0" Hin).
Defined.


End KeepOrReplaceFacts.

(** ** A site container on a runtime that loses no request *)

Section ReliableFacts.
Import config sitecontainer.

(** A request to a runtime that loses none. *)
Lemma bind_request_quiet {A B} c (serve : World -> Result A * World) (k : A -> M B) w :
  faults w = [] ->
  bind (request c serve) k w =
  match (serve w).1 with
  | Ok a => prepend c (k a (serve w).2)
  | Err e => failed (Err e) (serve w).2 c
  | Panic e => failed (Panic e) (serve w).2 c
  | Diverge => failed Diverge (serve w).2 c
  end.
Proof. intros Hq. by rewrite bind_request, (lost_quiet w Hq), (after_fault_quiet w Hq). Qed.

Lemma bind_wrap_request_quiet {A B} p c (serve : World -> Result A * World) (k : A -> M B) w :
  faults w = [] ->
  bind (wrap p (request c serve)) k w =
  match (serve w).1 with
  | Ok a => prepend c (k a (serve w).2)
  | Err e => failed (Err (p +:+ e)) (serve w).2 c
  | Panic e => failed (Panic e) (serve w).2 c
  | Diverge => failed Diverge (serve w).2 c
  end.
Proof. intros Hq. by rewrite bind_wrap_request, (lost_quiet w Hq), (after_fault_quiet w Hq). Qed.

Lemma wrap_request_quiet {A} p c (serve : World -> Result A * World) w a :
  faults w = [] -> (serve w).1 = Ok a ->
  wrap p (request c serve) w = {| result := Ok a; final := (serve w).2; issued := [c] |}.
Proof.
  intros Hq Ha. unfold wrap, request. rewrite (lost_quiet w Hq), (after_fault_quiet w Hq).
  cbn [result final issued]. by rewrite Ha.
Qed.

Lemma find_exec_poll e w x :
  find_exec e w = Some x ->
  find_exec e (set_execs w ((fun y => if bool_decide (eID y = e)
                                      then {| eID := eID y; eContainer := eContainer y;
                                              eConfig := eConfig y; polls := pred (polls y) |}
                                      else y) <$> execs w))
  = Some {| eID := eID x; eContainer := eContainer x; eConfig := eConfig x;
            polls := pred (polls x) |}.
Proof.
  unfold find_exec. cbn [execs set_execs].
  induction (execs w) as [| y l IH]; [done |]. cbn [fmap list_fmap List.find].
  case_bool_decide as Hy; cbn [eID].
  - rewrite bool_decide_true by done. by intros [= ->].
  - rewrite bool_decide_false by done. apply IH.
Qed.

Lemma on_exec_Some {A} e (f : Exec -> World -> Result A * World) w x :
  find_exec e w = Some x -> on_exec e f w = f x w.
Proof. unfold on_exec. by intros ->. Qed.

Lemma waitExec_polls fuel e w x :
  faults w = [] ->
  find_exec e w = Some x ->
  polls x < fuel ->
  result (waitExec fuel e w) = Ok tt
  /\ issued (waitExec fuel e w) = replicate (S (polls x)) (ContainerExecInspect e)
  /\ faults (final (waitExec fuel e w)) = []
  /\ latency (final (waitExec fuel e w)) = latency w
  /\ containers (final (waitExec fuel e w)) = containers w.
Proof.
  revert w x. induction fuel as [| n IH]; intros w x Hq Hx Hp; [lia |].
  cbn [waitExec]. unfold containerExecInspect. rewrite (bind_request_quiet _ _ _ _ Hq).
  rewrite (on_exec_Some _ _ _ _ Hx). outcome.
  destruct (polls x) as [| p] eqn:Hpolls.
  - rewrite bool_decide_false by lia. by cbn.
  - rewrite bool_decide_true by lia.
    apply find_exec_poll in Hx.
    match type of Hx with find_exec _ ?w' = _ =>
      destruct (IH w' _ Hq Hx) as (-> & -> & ? & ? & ?)
    end.
    { cbn [polls]. lia. }
    cbn [polls]. rewrite Hpolls. by cbn.
Qed.

(** X5.  The wait loop of [create] on a runtime that loses no request: for
a session that reports itself running [p] more times the loop sends [p + 1]
status requests, all for that session, and then ends without error. *)
Theorem waitExec_polls_until_finished fuel e w x :
  faults w = [] ->
  find_exec e w = Some x ->
  polls x < fuel ->
  result (waitExec fuel e w) = Ok tt
  /\ issued (waitExec fuel e w) = replicate (S (polls x)) (ContainerExecInspect e).
Proof.
  intros Hq Hx Hp. destruct (waitExec_polls fuel e w x Hq Hx Hp) as (Hr & Hi & _). by split.
Qed.

Lemma find_exec_new e w cfg id :
  find_exec e (set_execs w ({| eID := e; eContainer := id; eConfig := cfg; polls := latency w |}
                            :: execs w))
  = Some {| eID := e; eContainer := id; eConfig := cfg; polls := latency w |}.
Proof. unfold find_exec. cbn. by rewrite bool_decide_true. Qed.

Lemma runCommand_succeeds fuel id c w L :
  steady id L w -> L < fuel ->
  result (runCommand fuel id c w) = Ok tt
  /\ steady id L (final (runCommand fuel id c w))
  /\ running id (final (runCommand fuel id c w))
  /\ shape (final (runCommand fuel id c w)) = shape w.
Proof.
  intros (Hq & HL & c0 & Hc) Hfuel. unfold runCommand.
  (* create the exec *)
  unfold containerExecCreate. rewrite (bind_request_quiet _ _ _ _ Hq).
  rewrite (on_container_Some _ _ _ _ Hc). outcome.
  set (e := new_id w). clearbody e.
  pose proof (find_exec_new e w {| User := "root"; AttachStdout := true; AttachStderr := true;
                                   Tty := false; ExecCmd := c |} id) as He.
  revert He. match goal with |- find_exec _ ?w' = _ -> _ => set (w1 := w') end. intros He.
  assert (faults w1 = [] /\ latency w1 = L /\ find_container id w1 = Some c0
          /\ shape w1 = shape w) as (Hq1 & HL1 & Hc1 & Hs1) by done.
  rewrite HL in He. clearbody w1. clear Hq HL Hc. rewrite <- Hs1. clear Hs1 w.
  (* attach *)
  unfold containerExecAttach. rewrite (bind_request_quiet _ _ _ _ Hq1).
  rewrite (on_exec_Some _ _ _ _ He). outcome.
  (* copy the output *)
  unfold readStream. rewrite (bind_wrap_request_quiet _ _ _ _ _ Hq1). outcome.
  (* start the exec *)
  unfold containerExecStart. rewrite (bind_wrap_request_quiet _ _ _ _ _ Hq1).
  rewrite (on_exec_Some _ _ _ _ He). outcome.
  (* wait *)
  destruct (waitExec_polls fuel e w1 _ Hq1 He) as (Hr & _ & Hq2 & HL2 & Hcs); [by cbn |].
  rewrite result_bind, final_bind, Hr.
  assert (find_container id (final (waitExec fuel e w1)) = Some c0) as Hc2
    by (unfold find_container in *; by rewrite Hcs).
  assert (shape (final (waitExec fuel e w1)) = shape w1) as Hs2
    by (unfold shape; by rewrite Hcs).
  revert Hq2 HL2 Hc2 Hs2. generalize (final (waitExec fuel e w1)). intros w2 Hq2 HL2 Hc2 Hs2.
  rewrite <- Hs2. rewrite HL1 in HL2. clear Hr Hcs Hq1 HL1 Hc1 He Hs2 w1.
  (* start the container *)
  unfold containerStart.
  rewrite (wrap_request_quiet _ _ _ _ tt Hq2) by (by rewrite (on_container_Some _ _ _ _ Hc2)).
  cbn [result final]. rewrite (on_container_Some _ _ _ _ Hc2). cbn [snd].
  apply (find_container_set_state _ "running") in Hc2.
  split; [done |]. split; [| split].
  - split; [done |]. split; [done |]. by eexists.
  - by eexists.
  - apply shape_set_state.
Qed.

Lemma forEach_succeeds {X} (f : X -> list string) fuel id (l : list X) w L :
  steady id L w -> L < fuel -> running id w ->
  result (forEach l (fun x => runCommand fuel id (f x)) w) = Ok tt
  /\ running id (final (forEach l (fun x => runCommand fuel id (f x)) w))
  /\ shape (final (forEach l (fun x => runCommand fuel id (f x)) w)) = shape w.
Proof.
  intros Hst Hfuel. revert w Hst. induction l as [| x l IH]; intros w Hst Hrun; [done |].
  cbn [forEach]. rewrite result_bind, final_bind.
  destruct (runCommand_succeeds fuel id (f x) w L Hst Hfuel) as (-> & Hst' & Hrun' & Hs).
  destruct (IH _ Hst' Hrun') as (? & ? & Hs'). by rewrite Hs' .
Qed.

Lemma rangeMap_steady {V B} (m : gmap string V) (k : list (string * V) -> M B) w :
  exists seed w', bind (rangeMap m) k w = k (range_order seed (map_to_list m)) w'
                  /\ faults w' = faults w /\ latency w' = latency w
                  /\ containers w' = containers w.
Proof.
  unfold bind, rangeMap. destruct (seeds w) as [| s ss]; cbn [result final issued app].
  - exists 0, w. by destruct (k _ w).
  - exists s, (set_seeds w ss). by destruct (k _ _).
Qed.

Lemma commands_succeed fuel id (commands : gmap string (list string)) w L :
  steady id L w -> L < fuel -> running id w ->
  let o := bind (rangeMap commands)
             (fun entries => forEach entries (fun kc => runCommand fuel id kc.2)) w in
  result o = Ok tt /\ running id (final o) /\ shape (final o) = shape w.
Proof.
  intros (Hq & HL & Hc) Hfuel Hrun o; subst o.
  destruct (rangeMap_steady commands
              (fun entries => forEach entries (fun kc => runCommand fuel id kc.2)) w)
    as (seed & w' & -> & Hq' & HL' & Hcs).
  assert (steady id L w') as Hst.
  { unfold steady, find_container in *. by rewrite Hq', HL', Hcs. }
  assert (running id w') as Hrun' by (unfold running, find_container in *; by rewrite Hcs).
  destruct (forEach_succeeds snd fuel id (range_order seed (map_to_list commands)) w' L
              Hst Hfuel Hrun') as (? & ? & Hs).
  split; [done |]. split; [done |]. rewrite Hs. unfold shape. by rewrite Hcs.
Qed.

Section CreateSucceeds.
Context `{Helpers}.

Lemma provision_succeeds fuel id site w L :
  steady id L w -> L < fuel ->
  Dir site = "web" \/ is_ok (archive_Generate "default.conf" (nginx_Generate (Dir site))) = true ->
  result (provision fuel id site w) = Ok tt
  /\ running id (final (provision fuel id site w))
  /\ shape (final (provision fuel id site w)) = shape w.
Proof.
  intros (Hq & HL & c0 & Hc) Hfuel Harch. unfold provision.
  (* start *)
  unfold containerStart. rewrite (bind_wrap_request_quiet _ _ _ _ _ Hq).
  rewrite (on_container_Some _ _ _ _ Hc). outcome.
  apply (find_container_set_state _ "running") in Hc.
  rewrite <- (shape_set_state id "running" w).
  assert (steady id L (set_state id "running" w)) as Hst
    by (split; [done |]; split; [done |]; by eexists).
  assert (running id (set_state id "running" w)) as Hrun by (by eexists).
  revert Hst Hrun. generalize (set_state id "running" w). clear Hq HL Hc w. intros w Hst Hrun.
  (* the nginx file *)
  case_bool_decide as Hdir.
  - destruct Harch as [? | Harch]; [done |]. cbv zeta.
    destruct (archive_Generate _ _) as [tr| | |]; [| done ..].
    rewrite bind_assoc, bind_stop_Ok, bind_assoc. unfold copyToContainer.
    destruct Hst as (Hq & HL & c1 & Hc).
    rewrite (bind_request_quiet _ _ _ _ Hq), (on_container_Some _ _ _ _ Hc). outcome.
    rewrite bind_ret. apply (commands_succeed fuel id _ w L); [| done ..].
    split; [done |]. split; [done |]. by eexists.
  - rewrite bind_ret. by apply (commands_succeed fuel id _ w L).
Qed.

(** X6.  On a runtime that loses no request, where an exec session ends
within the polls the loop is given, [create] returns the id of a container that
was not there before, has the site's specification and is running, whenever
the path of the site and, for a custom document root, the archive of the
configuration file can be made. *)
Theorem create_succeeds fuel home net site w path :
  faults w = [] ->
  latency w < fuel ->
  GetAbsPath site home = Ok path ->
  Dir site = "web" \/ is_ok (archive_Generate "default.conf" (nginx_Generate (Dir site))) = true ->
  exists id,
    result (create fuel home net site w) = Ok id
    /\ (id ∉ (ID <$> containers w))
    /\ shape (final (create fuel home net site w))
       = (id, siteSpec (NginxImage (Version site)) path net site) :: shape w
    /\ exists c, find_container id (final (create fuel home net site w)) = Some c
                 /\ State c = "running".
Proof.
  intros Hq Hfuel Hpath Harch. unfold create. cbv zeta.
  set (image := NginxImage (Version site)).
  (* pull *)
  unfold imagePull. rewrite (bind_wrap_request_quiet _ _ _ _ _ Hq). outcome.
  assert (exists w1, w1 = (if bool_decide (image ∈ images w) then w
                            else set_images w (image :: images w))
                     /\ faults w1 = [] /\ latency w1 = latency w
                     /\ containers w1 = containers w /\ retired w1 = retired w
                     /\ networks w1 = networks w /\ execs w1 = execs w)
    as (w1 & <- & Hq1 & HL1 & Hc1 & Hr1 & Hn1 & He1)
    by (eexists; split; [done |]; by case_bool_decide).
  (* read *)
  unfold readStream. rewrite (bind_wrap_request_quiet _ _ _ _ _ Hq1). outcome.
  rewrite Hpath, bind_stop_Ok.
  (* create *)
  unfold containerCreate. rewrite (bind_wrap_request_quiet _ _ _ _ _ Hq1). outcome.
  exists (new_id w1).
  match goal with |- context [bind (provision fuel _ site) _ ?w'] => set (w2 := w') end.
  assert (steady (new_id w1) (latency w) w2) as Hst.
  { split; [done |]. split; [done |]. eexists. unfold find_container. cbn.
    by rewrite bool_decide_true. }
  destruct (provision_succeeds fuel (new_id w1) site w2 (latency w) Hst Hfuel Harch)
    as (Hr & Hrun & Hs).
  rewrite result_bind, final_bind, Hr. cbn [ret result final].
  split; [done |]. split; [| split; [| done]].
  - intros Hin. apply (new_id_fresh w1). unfold used_ids. rewrite Hc1.
    apply elem_of_app. by left.
  - rewrite Hs. unfold shape. subst w2. cbn. by rewrite Hc1.
Qed.
End CreateSucceeds.

Lemma waitExec_polls_until_finished_witness :
  let w := set_execs example.world
             [{| eID := "e"; eContainer := "c";
                 eConfig := {| User := "root"; AttachStdout := true; AttachStderr := true;
                               Tty := false; ExecCmd := ["true"] |};
                 polls := 2 |}] in
  result (waitExec 5 "e" w) = Ok tt
  /\ issued (waitExec 5 "e" w) = replicate 3 (ContainerExecInspect "e").
Proof.
  exact (waitExec_polls_until_finished 5 "e"
           (set_execs example.world
              [{| eID := "e"; eContainer := "c";
                  eConfig := {| User := "root"; AttachStdout := true; AttachStderr := true;
                                Tty := false; ExecCmd := ["true"] |};
                  polls := 2 |}])
           {| eID := "e"; eContainer := "c";
              eConfig := {| User := "root"; AttachStdout := true; AttachStderr := true;
                            Tty := false; ExecCmd := ["true"] |};
              polls := 2 |}
           eq_refl eq_refl ltac:(cbn; lia)).
Defined.

Lemma create_succeeds_witness :
  exists id,
    result (create (H := example.helpers) 5 "/home/u" "net" example.site example.world) = Ok id
    /\ (id ∉ (ID <$> containers example.world))
    /\ shape (final (create (H := example.helpers) 5 "/home/u" "net" example.site
                       example.world))
       = (id, siteSpec (H := example.helpers) (NginxImage (Version example.site))
                "/home/u/dev/example" "net" example.site) :: shape example.world
    /\ exists c, find_container id (final (create (H := example.helpers) 5 "/home/u" "net"
                                             example.site example.world)) = Some c
                 /\ State c = "running".
Proof.
  exact (create_succeeds (H := example.helpers) 5 "/home/u" "net" example.site example.world
           "/home/u/dev/example" eq_refl ltac:(cbn; lia) eq_refl (or_intror eq_refl)).
Defined.


End ReliableFacts.

(** ** The proxy guard and the dependent commands *)

Section ProxyGuardFacts.
Import initialize.

Lemma findProxy_names env c names containerID proxyRunning :
  foldl (fun '(containerID, proxyRunning) n =>
           if bool_decide (n = env) || bool_decide (n = "/" +:+ env)
           then (ID c, if bool_decide (State c = "running") then true else proxyRunning)
           else (containerID, proxyRunning))
        (containerID, proxyRunning) names
  = if existsb (fun n => bool_decide (n = env) || bool_decide (n = "/" +:+ env)) names
    then (ID c, is_running c || proxyRunning)
    else (containerID, proxyRunning).
Proof.
  revert containerID proxyRunning. unfold is_running.
  induction names as [| n names IH]; intros containerID proxyRunning; [done |].
  cbn [foldl existsb].
  destruct (bool_decide (n = env) || bool_decide (n = "/" +:+ env)); cbn [orb].
  - rewrite IH. destruct (existsb _ names), (bool_decide (State c = "running")); done.
  - apply IH.
Qed.

Lemma findProxy_snoc env cs c :
  findProxy env (cs ++ [c])
  = if proxy_named env c
    then (ID c, is_running c || (findProxy env cs).2)
    else findProxy env cs.
Proof.
  unfold findProxy. rewrite foldl_app. cbn [foldl].
  destruct (foldl _ _ cs) as [containerID proxyRunning].
  by rewrite findProxy_names.
Qed.

(** X7.  The exact-name guard of [init]: of the containers listed, the one
taken for the proxy is the last one that has the environment name, with or
without a leading slash, among its names, and no id is found when there is
none; the proxy counts as running when some container so named is running,
whether or not it is the one taken. *)
Theorem findProxy_exact_name env (containers : list Container) :
  (findProxy env containers).1
  = match last (filter (fun c => proxy_named env c) containers) with
    | Some c => ID c
    | None => EmptyString
    end
  /\ (findProxy env containers).2
     = existsb (fun c => proxy_named env c && is_running c) containers.
Proof.
  induction containers as [| c cs [IH1 IH2]] using rev_ind; [done |].
  rewrite findProxy_snoc, filter_app, existsb_app. cbn [existsb].
  destruct (proxy_named env c) eqn:Hc.
  - rewrite filter_cons_True by (cbv beta; by rewrite Hc). rewrite filter_nil, last_snoc.
    cbn [fst snd].
    split; [done |]. rewrite IH2. cbn [andb]. rewrite orb_false_r. apply orb_comm.
  - rewrite filter_cons_False by (cbv beta; rewrite Hc; cbn; tauto).
    rewrite filter_nil, app_nil_r.
    split; [done |]. rewrite IH2. cbn [andb]. by rewrite !orb_false_r.
Qed.

Lemma bind_ret_r {A} (m : M A) (k : unit -> M unit) w :
  bind m (fun _ => bind (ret tt) k) w = bind m (fun _ => k tt) w.
Proof.
  unfold bind. destruct (result (m w)); [| done ..]. cbn [ret result final issued app].
  by destruct (k tt (final (m w))).
Qed.

(** X8.  Of the commands of the parent, [init] runs those whose [Use] is
[apply] or [trust], each once, in the order the parent has them, and stops at
the first one that fails; it runs no other command. *)
Theorem runSiblings_only_apply_and_trust commands args w :
  runSiblings commands args w
  = sitecontainer.forEach (filter (fun c => dependent c) commands) (fun c => Run c args) w.
Proof.
  revert w. induction commands as [| c cs IH]; intros w; [done |].
  cbn [runSiblings]. unfold dependent at 1.
  destruct (decide (Use c = "apply")) as [Ha | Ha].
  - rewrite filter_cons_True by (cbv beta; unfold dependent; by rewrite (bool_decide_true _ Ha)).
    rewrite (bool_decide_true _ Ha).
    rewrite (bool_decide_false (Use c = "trust")) by (rewrite Ha; done).
    cbn [sitecontainer.forEach]. rewrite bind_ret_r.
    unfold bind. destruct (result (Run c args w)); [| done ..]. by rewrite IH.
  - rewrite (bool_decide_false _ Ha), bind_ret.
    destruct (decide (Use c = "trust")) as [Ht | Ht].
    + rewrite filter_cons_True
        by (cbv beta; unfold dependent; rewrite (bool_decide_true _ Ht), orb_true_r; done).
      rewrite (bool_decide_true _ Ht). cbn [sitecontainer.forEach].
      unfold bind. destruct (result (Run c args w)); [| done ..]. by rewrite IH.
    + rewrite filter_cons_False
        by (cbv beta; unfold dependent;
            rewrite (bool_decide_false _ Ha), (bool_decide_false _ Ht); cbn; tauto).
      rewrite (bool_decide_false _ Ht), bind_ret. apply IH.
Qed.


End ProxyGuardFacts.

(** ** When [init] creates no proxy *)

Section NoProxyCreatedFacts.
Import initialize.

Lemma no_container_created l :
  forallb creates_no_container l = true -> created_specs l = [].
Proof.
  induction l as [| c l IH]; [done |]. cbn [forallb].
  intros [Hc Hl]%andb_true_iff. unfold created_specs in *.
  destruct c; try discriminate Hc; cbn; by apply IH.
Qed.

Lemma keeps_containers_ret {A} (a : A) : keeps_containers (ret a).
Proof. done. Qed.

Lemma keeps_containers_wrap {A} p (m : M A) : keeps_containers m -> keeps_containers (wrap p m).
Proof. intros Hm w. by rewrite final_wrap. Qed.

Lemma keeps_containers_request {A} c (serve : World -> Result A * World) :
  (forall w, containers (serve w).2 = containers w) -> keeps_containers (request c serve).
Proof.
  intros Hs w. rewrite final_request.
  destruct (after_fault_fields w) as (_ & _ & _ & Hc & _).
  destruct (lost w); [done |]. by rewrite Hs.
Qed.

(** The steps of [init] before it looks for the proxy. *)
Lemma reconcileNetwork_frame env networks :
  sends_only creates_no_container (reconcileNetwork env networks)
  /\ keeps_containers (reconcileNetwork env networks).
Proof.
  unfold reconcileNetwork. destruct (exactNetwork env networks) as [[] networkID].
  - split; [apply sends_only_ret | apply keeps_containers_ret].
  - split.
    + apply sends_only_wrap. unfold networkCreate. by apply sends_only_request.
    + apply keeps_containers_wrap. unfold networkCreate. by apply keeps_containers_request.
Qed.

Lemma reconcileVolume_frame env volumes :
  sends_only creates_no_container (reconcileVolume env volumes)
  /\ keeps_containers (reconcileVolume env volumes).
Proof.
  unfold reconcileVolume. destruct (exactVolume env volumes) as [[] [v |]]; try done.
  - split.
    + apply sends_only_wrap. unfold volumeCreate. by apply sends_only_request.
    + apply keeps_containers_wrap. unfold volumeCreate. apply keeps_containers_request.
      intros w. by destruct (List.find _ _).
  - split.
    + apply sends_only_wrap. unfold volumeCreate. by apply sends_only_request.
    + apply keeps_containers_wrap. unfold volumeCreate. apply keeps_containers_request.
      intros w. by destruct (List.find _ _).
Qed.

Lemma pull_frame p p' image (images : list string) :
  let m := match images with
           | [] => let* rdr := wrap p (imagePull image) in wrap p' (readStream rdr)
           | _ => ret tt
           end in
  sends_only creates_no_container m /\ keeps_containers m.
Proof.
  destruct images; cbv zeta; [| done]. split; [by apply sends_only_pull |].
  intros w. unfold imagePull. rewrite bind_wrap_request.
  destruct (after_fault_fields w) as (_ & _ & _ & Hc & _).
  destruct (lost w); outcome; [done |].
  rewrite final_wrap. unfold readStream. rewrite final_request.
  match goal with |- context [lost ?w'] =>
    assert (containers w' = containers w) as Hw by (by case_bool_decide);
    destruct (after_fault_fields w') as (_ & _ & _ & Hc' & _);
    destruct (lost w')
  end; cbn [snd]; congruence.
Qed.

(** A step that sends no container-create request and leaves the containers
alone, followed by the rest of the run. *)
Lemma frame_bind {A B} (m : M A) (k : A -> M B) w0 w :
  sends_only creates_no_container m -> keeps_containers m ->
  containers w = containers w0 ->
  (forall a w', containers w' = containers w0 ->
                forallb creates_no_container (issued (k a w')) = true) ->
  forallb creates_no_container (issued (bind m k w)) = true.
Proof.
  intros Hs Hk Hw Hrest. rewrite issued_bind, forallb_app, Hs.
  destruct (result (m w)); [| done ..]. apply Hrest. by rewrite Hk.
Qed.

Lemma RunE_frame i args w :
  (forall networkID volume w',
     containers w' = containers w ->
     forallb creates_no_container
       (issued (ensureProxy i args networkID volume
                  (listed true (proxyFilter (environment i)) w) w')) = true) ->
  forallb creates_no_container (issued (RunE i args w)) = true.
Proof.
  intros Hrest. unfold RunE. cbv zeta.
  apply (frame_bind _ _ w); [| | done |].
  { apply sends_only_wrap. unfold networkList. by apply sends_only_request. }
  { apply keeps_containers_wrap. unfold networkList. by apply keeps_containers_request. }
  intros networks w1 Hw1.
  apply (frame_bind _ _ w); [apply reconcileNetwork_frame .. | done |].
  intros networkID w2 Hw2.
  apply (frame_bind _ _ w); [| | done |].
  { apply sends_only_wrap. unfold volumeList. by apply sends_only_request. }
  { apply keeps_containers_wrap. unfold volumeList. by apply keeps_containers_request. }
  intros volumes w3 Hw3.
  apply (frame_bind _ _ w); [apply reconcileVolume_frame .. | done |].
  intros volume w4 Hw4.
  apply (frame_bind _ _ w); [| | done |].
  { apply sends_only_wrap. unfold imageList. by apply sends_only_request. }
  { apply keeps_containers_wrap. unfold imageList. by apply keeps_containers_request. }
  intros images w5 Hw5.
  apply (frame_bind _ _ w); [apply pull_frame .. | done |].
  intros _ w6 Hw6.
  unfold containerList. rewrite bind_wrap_request.
  destruct (lost w6); outcome; [done |].
  cbn [forallb]. rewrite andb_true_l.
  assert (listed true (Add NewArgs "label" (labels.Proxy +:+ "=" +:+ environment i))
            (after_fault w6)
          = listed true (proxyFilter (environment i)) w) as ->.
  { rewrite listed_after_fault. unfold listed, proxyFilter. by rewrite Hw6. }
  apply (Hrest networkID volume).
  destruct (after_fault_fields w6) as (_ & _ & _ & Hc & _). congruence.
Qed.

Lemma ensureProxy_no_create i args networkID volume containers w :
  standalone i ->
  (findProxy (environment i) containers).1 ≠ EmptyString
  \/ is_err (resolvePorts i None) = true ->
  forallb creates_no_container (issued (ensureProxy i args networkID volume containers w)) = true.
Proof.
  intros Halone Hwhy. unfold ensureProxy. cbv zeta.
  destruct (findProxy (environment i) containers) as [containerID proxyRunning].
  assert (sends_only creates_no_container
            (if bool_decide (containerID = EmptyString)
             then let* ports := stop (resolvePorts i None) in
                  wrap ("unable to create the container from image " +:+ proxyImage i
                        +:+ String "010"%char EmptyString)
                    (containerCreate (proxySpec i ports volume networkID))
             else ret containerID)) as Hcreate.
  { case_bool_decide as Hid; [| apply sends_only_ret].
    destruct Hwhy as [Hfound | Herr]; [done |].
    intros w'. destruct (resolvePorts i None); try done. }
  apply sends_only_bind; [done |]. intros cid.
  apply sends_only_bind.
  { destruct (negb proxyRunning); [| apply sends_only_ret].
    apply sends_only_wrap. unfold containerStart. by apply sends_only_request. }
  intros _. apply sends_only_bind; [| intros; apply sends_only_ret].
  destruct Halone as [-> | ->]; [apply sends_only_ret |].
  destruct (parent i); apply sends_only_ret.
Qed.



(** X10.  When a container with the proxy label and the environment name is
listed, [init], run without dependent commands, sends no container-create
request. *)
Theorem init_existing_proxy_not_recreated i args w :
  standalone i ->
  (findProxy (environment i) (listed true (proxyFilter (environment i)) w)).1 ≠ EmptyString ->
  created_specs (issued (RunE i args w)) = [].
Proof.
  intros Halone Hfound. apply no_container_created, RunE_frame.
  intros networkID volume w' _. apply ensureProxy_no_create; [done | by left].
Qed.


Lemma init_existing_proxy_not_recreated_witness :
  created_specs
    (issued (RunE (example.init ∅) []
               (final (RunE (example.init ∅) [] example.world)))) = [].
Proof.
  assert ((findProxy (environment (example.init ∅))
             (listed true (proxyFilter (environment (example.init ∅)))
                (final (RunE (example.init ∅) [] example.world)))).1 ≠ EmptyString) as Hfound
    by (vm_compute; discriminate).
  exact (init_existing_proxy_not_recreated (example.init ∅) []
           (final (RunE (example.init ∅) [] example.world)) (or_introl eq_refl) Hfound).
Defined.


End NoProxyCreatedFacts.

(** ** The composer command: arguments, image, cache volume *)

Section ComposerFacts.
Import composer.

Lemma parseArgs_plain all i rest version newArgs :
  forallb (fun a => negb (is_version_flag a)) rest = true ->
  parseArgs all i rest version newArgs = Ok (version, newArgs ++ rest).
Proof.
  revert i newArgs. induction rest as [| a rest IH]; intros i newArgs H.
  - by rewrite app_nil_r.
  - cbn [forallb] in H. apply andb_true_iff in H as [Ha Hrest].
    unfold is_version_flag in Ha. apply negb_true_iff, orb_false_iff in Ha as [Ha1 Ha2].
    cbn [parseArgs]. rewrite Ha1, Ha2, IH by done. by rewrite <- app_assoc.
Qed.

Lemma parseArgs_app all i pre rest version newArgs :
  forallb (fun a => negb (is_version_flag a)) pre = true ->
  parseArgs all i (pre ++ rest) version newArgs
  = parseArgs all (length pre + i) rest version (newArgs ++ pre).
Proof.
  revert i newArgs. induction pre as [| a pre IH]; intros i newArgs H.
  - by rewrite app_nil_r.
  - cbn [forallb] in H. apply andb_true_iff in H as [Ha Hpre].
    unfold is_version_flag in Ha. apply negb_true_iff, orb_false_iff in Ha as [Ha1 Ha2].
    cbn [parseArgs app]. rewrite Ha1, Ha2, IH by done.
    rewrite <- app_assoc. cbn [length app]. f_equal. lia.
Qed.

Lemma prefix_app s t : String.prefix s (s +:+ t) = true.
Proof.
  induction s as [| c s IH]; [by destruct t |].
  change (String c s +:+ t) with (String c (s +:+ t)). cbn [String.prefix].
  by destruct (Ascii.ascii_dec c c).
Qed.

Lemma index_prefix s t : String.index 0 s (s +:+ t) = Some 0.
Proof.
  destruct s as [| c s]; [by destruct t |].
  change (String c s +:+ t) with (String c (s +:+ t)).
  cbn [String.index]. pose proof (prefix_app (String c s) t) as H.
  change (String c s +:+ t) with (String c (s +:+ t)) in H. by rewrite H.
Qed.

Lemma Contains_prefix s t : Contains (s +:+ t) s = true.
Proof. unfold Contains. by rewrite index_prefix. Qed.

Lemma append_nil_r s : s +:+ EmptyString = s.
Proof.
  induction s as [| c s IH]; [done |].
  change (String c s +:+ EmptyString) with (String c (s +:+ EmptyString)). by rewrite IH.
Qed.

Lemma append_snoc s c t : (s +:+ String c EmptyString) +:+ t = s +:+ String c t.
Proof.
  induction s as [| a s IH]; [done |].
  change (String a ((s +:+ String c EmptyString) +:+ t) = String a (s +:+ String c t)).
  by rewrite IH.
Qed.

Lemma last_field_plain sep acc s :
  sep ∉ chars s -> last_field sep acc s = acc +:+ s.
Proof.
  revert acc. induction s as [| c s IH]; intros acc H.
  - cbn [last_field]. by rewrite append_nil_r.
  - cbn [last_field chars] in *. apply not_elem_of_cons in H as [H1 H2].
    destruct (Ascii.eqb_spec c sep) as [-> | _]; [done |].
    rewrite IH by done. apply append_snoc.
Qed.

Lemma last_field_reset sep acc s t :
  sep ∉ chars t -> last_field sep acc (s +:+ String sep t) = t.
Proof.
  intros Ht. revert acc. induction s as [| c s IH]; intros acc.
  - change (EmptyString +:+ String sep t) with (String sep t).
    cbn [last_field]. rewrite (proj2 (Ascii.eqb_eq sep sep) eq_refl).
    by rewrite last_field_plain.
  - change (String c s +:+ String sep t) with (String c (s +:+ String sep t)).
    cbn [last_field]. destruct (Ascii.eqb c sep); apply IH.
Qed.

Lemma equals_form v :
  "="%char ∉ chars v ->
  Contains ("--composer-version=" +:+ v) "--composer-version=" = true
  /\ last_field "=" EmptyString ("--composer-version=" +:+ v) = v.
Proof.
  intros Hv. split; [apply Contains_prefix |].
  exact (last_field_reset "=" EmptyString "--composer-version" v Hv).
Qed.

(** X11.  Arguments none of which is the version flag are passed on as they
are, in their order, and no version is read from them. *)
Theorem parseArgs_without_flag args :
  forallb (fun a => negb (is_version_flag a)) args = true ->
  parseArgs args 0 args EmptyString [] = Ok (EmptyString, args).
Proof. intros H. by rewrite parseArgs_plain. Qed.

Lemma parseArgs_without_flag_witness :
  parseArgs ["require"; "craftcms/cms"] 0 ["require"; "craftcms/cms"] EmptyString []
  = Ok (EmptyString, ["require"; "craftcms/cms"]).
Proof. apply parseArgs_without_flag. reflexivity. Defined.

(** X12.  The flag in its [=] form, among arguments that are no flags: the
text after [=] is the version and the flag is taken out of the arguments. *)
Theorem parseArgs_equals_form pre v post :
  forallb (fun a => negb (is_version_flag a)) (pre ++ post) = true ->
  "="%char ∉ chars v ->
  let args := pre ++ ("--composer-version=" +:+ v) :: post in
  parseArgs args 0 args EmptyString [] = Ok (v, pre ++ post).
Proof.
  intros H Hv args. rewrite forallb_app in H. apply andb_true_iff in H as [Hpre Hpost].
  unfold args at 2. rewrite parseArgs_app by done. cbn [parseArgs app].
  destruct (equals_form v Hv) as [-> ->]. by rewrite parseArgs_plain.
Qed.

Lemma parseArgs_equals_form_witness :
  let args := ["install"] ++ ("--composer-version=" +:+ "1") :: ["--no-dev"] in
  parseArgs args 0 args EmptyString [] = Ok ("1", ["install"] ++ ["--no-dev"]).
Proof.
  apply (parseArgs_equals_form ["install"] "1" ["--no-dev"]); [reflexivity |].
  vm_compute. intros Hin. apply list_elem_of_In in Hin. cbn in Hin.
  destruct Hin as [Hin | []]. discriminate Hin.
Defined.

(** X13.  The flag followed by its value as the next argument: that
argument is the version, the flag is taken out of the arguments, and the
value stays among them, where the flag was. *)
Theorem parseArgs_space_form pre v post :
  forallb (fun a => negb (is_version_flag a)) (pre ++ v :: post) = true ->
  let args := pre ++ "--composer-version" :: v :: post in
  parseArgs args 0 args EmptyString [] = Ok (v, pre ++ v :: post).
Proof.
  intros H args. rewrite forallb_app in H. apply andb_true_iff in H as [Hpre Hpost].
  unfold args at 2. rewrite parseArgs_app by done. cbn [parseArgs app].
  change (Contains "--composer-version" "--composer-version=") with false.
  cbv iota. rewrite bool_decide_true by done.
  assert (args !! S (length pre + 0) = Some v) as ->.
  { unfold args. rewrite Nat.add_0_r.
    rewrite (lookup_app_r pre) by lia.
    by replace (S (length pre) - length pre) with 1 by lia. }
  cbn [forallb] in Hpost. apply andb_true_iff in Hpost as [Hv Hpost].
  unfold is_version_flag in Hv. apply negb_true_iff, orb_false_iff in Hv as [-> ->].
  rewrite parseArgs_plain by done. by rewrite <- app_assoc.
Qed.

Lemma parseArgs_space_form_witness :
  let args := ["install"] ++ "--composer-version" :: "1" :: ["--no-dev"] in
  parseArgs args 0 args EmptyString [] = Ok ("1", ["install"] ++ "1" :: ["--no-dev"]).
Proof. apply (parseArgs_space_form ["install"] "1" ["--no-dev"]). reflexivity. Defined.

Lemma parseArgs_trailing done_ rest version newArgs :
  parseArgs (done_ ++ rest ++ ["--composer-version"]) (length done_)
    (rest ++ ["--composer-version"]) version newArgs
  = Panic "index out of range".
Proof.
  revert done_ version newArgs. induction rest as [| a rest IH]; intros done_ version newArgs.
  - cbn [app parseArgs].
    change (Contains "--composer-version" "--composer-version=") with false.
    cbv iota. rewrite bool_decide_true by done.
    rewrite lookup_ge_None_2; [done |]. rewrite length_app. cbn. lia.
  - cbn [app parseArgs].
    pose proof (IH (done_ ++ [a])) as IH'.
    rewrite <- app_assoc, length_app in IH'. cbn [app length] in IH'.
    rewrite Nat.add_1_r in IH'.
    destruct (Contains a "--composer-version="); [apply IH' |].
    case_bool_decide; [| apply IH'].
    destruct (_ !! _) eqn:E; [apply IH' |].
    apply lookup_ge_None_1 in E. rewrite length_app in E. cbn [length] in E.
    rewrite length_app in E. cbn [length] in E. lia.
Qed.

Lemma setup_prepare h args w version action rest wd path :
  parseArgs args 0 args EmptyString [] = Ok (version, action :: rest) ->
  Getwd h = Ok wd ->
  Abs h wd = Ok path ->
  check_passes h path action ->
  setup h args w = prepare h (effective version) path (action :: rest) w.
Proof.
  intros Hparse Hwd Habs Hcheck. unfold setup.
  rewrite Hparse, bind_stop_Ok. cbv beta iota zeta.
  rewrite Hwd, bind_wrap_stop_Ok, Habs, bind_wrap_stop_Ok, bind_stop_Ok.
  assert (forall (k : unit -> M string),
            bind (if bool_decide (action ≠ "create-project")
                  then if negb (IsFile h (Join h path "composer.json"))
                       then stop (Err ("unable to find file " +:+ Join h path "composer.json"))
                       else ret tt
                  else ret tt) k w = k tt w) as ->;
    [| unfold prepare, ensureImage; by rewrite bind_assoc].
  intros k. destruct Hcheck as [-> | ->].
  - rewrite bool_decide_false by (by intros ?). apply bind_ret.
  - case_bool_decide; apply bind_ret.
Qed.

(** X14.  When the last argument is the bare version flag, the command
panics on [args[i+1]], whatever the arguments before it; it has sent no
request and the runtime is as it was. *)
Theorem composer_trailing_version_flag_panics h pre w :
  RunE h (pre ++ ["--composer-version"]) w
  = {| result := Panic "index out of range"; final := w; issued := [] |}.
Proof.
  unfold RunE, setup.
  pose proof (parseArgs_trailing [] pre EmptyString []) as H.
  cbn [app length] in H. by rewrite bind_assoc, H.
Qed.

(** X15.  When nothing is left of the arguments once the version flags are
taken out, the command panics on [args[0]]; it has sent no request and the
runtime is as it was. *)
Theorem composer_no_command_panics h args w version wd path :
  parseArgs args 0 args EmptyString [] = Ok (version, []) ->
  Getwd h = Ok wd ->
  Abs h wd = Ok path ->
  RunE h args w = {| result := Panic "index out of range"; final := w; issued := [] |}.
Proof.
  intros Hparse Hwd Habs. unfold RunE, setup.
  rewrite bind_assoc, Hparse, bind_stop_Ok. cbv beta iota zeta.
  rewrite bind_assoc, Hwd, bind_wrap_stop_Ok.
  by rewrite bind_assoc, Habs, bind_wrap_stop_Ok.
Qed.

Lemma composer_no_command_panics_witness :
  RunE (example.host []) ["--composer-version=1"] example.world
  = {| result := Panic "index out of range"; final := example.world; issued := [] |}.
Proof.
  apply (composer_no_command_panics (example.host []) ["--composer-version=1"]
           example.world "1" "/home/U/Proj" "/home/U/Proj"); reflexivity.
Defined.

(** X16.  For [create-project] the command does not look for
composer.json: two hosts that agree on the working directory, on absolute paths
and on the path separator give the same run, whatever files they have and
however they join paths. *)
Theorem composer_create_project_skips_file_check h h' args version rest w :
  parseArgs args 0 args EmptyString [] = Ok (version, "create-project" :: rest) ->
  Getwd h' = Getwd h ->
  (forall wd, Abs h' wd = Abs h wd) ->
  PathSeparator h' = PathSeparator h ->
  RunE h' args w = RunE h args w.
Proof.
  intros Hparse Hwd Habs Hsep.
  enough (setup h' args w = setup h args w) as Hs by (unfold RunE, bind; by rewrite Hs).
  unfold setup. rewrite Hparse, !bind_stop_Ok. cbv beta iota zeta.
  rewrite Hwd. destruct (Getwd h) as [wd | | |]; [| done ..].
  rewrite !bind_wrap_stop_Ok, Habs. destruct (Abs h wd) as [path | | |]; [| done ..].
  rewrite !bind_wrap_stop_Ok, !bind_stop_Ok.
  rewrite bool_decide_false by (by intros ?). rewrite !bind_ret. by rewrite Hsep.
Qed.

Lemma composer_create_project_skips_file_check_witness :
  RunE (example.host []) ["create-project"; "craftcms/craft"] example.world
  = RunE (example.host ["/home/U/Proj/composer.json"]) ["create-project"; "craftcms/craft"]
      example.world.
Proof.
  apply (composer_create_project_skips_file_check _ _ _ EmptyString ["craftcms/craft"]);
    reflexivity.
Defined.

Lemma RunE_prepare h args w version action rest wd path :
  parseArgs args 0 args EmptyString [] = Ok (version, action :: rest) ->
  Getwd h = Ok wd ->
  Abs h wd = Ok path ->
  check_passes h path action ->
  RunE h args w = bind (prepare h (effective version) path (action :: rest)) runTask w.
Proof.
  intros Hparse Hwd Habs Hcheck. unfold RunE, bind.
  by rewrite (setup_prepare h args w version action rest wd path).
Qed.

Lemma reference_holds_one ref image :
  reference_holds ref (Add NewArgs "reference" image) = bool_decide (ref = image).
Proof.
  unfold reference_holds.
  change (values (Add NewArgs "reference" image) "reference") with [image].
  apply bool_decide_ext, list_elem_of_singleton.
Qed.

Lemma listed_images image (images : list string) :
  filter (fun ref => reference_holds ref (Add NewArgs "reference" image)) images = []
  <-> image ∉ images.
Proof.
  induction images as [| x l IH]; [split; [intros _; apply not_elem_of_nil | done] |].
  destruct (decide (x = image)) as [-> | Hx].
  - rewrite filter_cons_True
      by (cbv beta; rewrite reference_holds_one; by rewrite bool_decide_true).
    split; [done |]. intros []. by left.
  - rewrite filter_cons_False.
    + rewrite IH, not_elem_of_cons. split; [by intros ? | by intros [_ ?]].
    + intros HP%Is_true_true. rewrite reference_holds_one in HP.
      by rewrite bool_decide_false in HP.
Qed.

Lemma ensureImage_quiet image w :
  faults w = [] ->
  ensureImage image w
  = {| result := Ok tt;
       final := pulled image w;
       issued := ImageList (Add NewArgs "reference" image)
                 :: (if bool_decide (image ∈ images w) then []
                     else [ImagePull image; ReadStream (PullOutput image)]) |}.
Proof.
  intros Hq. unfold ensureImage, pulled. cbv zeta.
  unfold imageList. rewrite bind_wrap_request_quiet by done. cbn [fst snd]. outcome.
  pose proof (listed_images image (images w)) as Hl.
  destruct (filter _ (images w)) as [| x l].
  - rewrite bool_decide_false by (by apply Hl).
    unfold imagePull. rewrite bind_wrap_request_quiet by done. cbn [fst snd]. outcome.
    rewrite bool_decide_false by (by apply Hl).
    unfold readStream. by rewrite (wrap_request_quiet _ _ _ _ tt).
  - rewrite bool_decide_true; [done |].
    destruct (decide (image ∈ images w)) as [| Hn]; [done |]. by apply Hl in Hn.
Qed.

Lemma pulled_fields image w :
  faults (pulled image w) = faults w /\ containers (pulled image w) = containers w
  /\ retired (pulled image w) = retired w /\ volumes (pulled image w) = volumes w
  /\ image ∈ images (pulled image w).
Proof.
  unfold pulled. case_bool_decide; [done |]. repeat split. cbn. by left.
Qed.

Lemma cacheAndCreate_quiet h version path args w :
  faults w = [] ->
  exists w1 spec,
    cacheAndCreate h version path args w
    = {| result := Ok (new_id w1);
         final := set_containers w1
                    ({| ID := new_id w1; Names := ["/" +:+ Name spec]; State := "created";
                        Spec := spec |} :: containers w1);
         issued := VolumeList (volumeFilter path)
                   :: (match listedVolumes (volumeFilter path) w with
                       | [] => [cacheCreate h path version]
                       | _ => []
                       end)
                   ++ [ContainerCreate spec] |}
    /\ faults w1 = [] /\ containers w1 = containers w /\ retired w1 = retired w
    /\ images w1 = images w.
Proof.
  intros Hq. unfold cacheAndCreate. cbv zeta. rewrite volumeFilter_eq.
  unfold volumeList. rewrite bind_request_quiet by done. cbn [fst snd]. outcome.
  destruct (listedVolumes (volumeFilter path) w) as [| v [| v' vs]].
  - unfold pickVolume, volumeCreate. rewrite bind_wrap_request_quiet by done.
    match goal with |- context [List.find ?f ?l] => destruct (List.find f l) end;
      cbn [fst snd]; outcome; unfold CreateContainer, containerCreate; eexists _, _;
      (split; [erewrite wrap_request_quiet; [reflexivity | done | reflexivity] | done]).
  - unfold pickVolume. rewrite bind_ret. unfold CreateContainer, containerCreate.
    eexists _, _.
    split; [erewrite wrap_request_quiet; [reflexivity | done | reflexivity] | done].
  - unfold pickVolume. rewrite bind_ret. unfold CreateContainer, containerCreate.
    eexists _, _.
    split; [erewrite wrap_request_quiet; [reflexivity | done | reflexivity] | done].
Qed.

Lemma faults_set_state id st w : faults (set_state id st w) = faults w.
Proof. done. Qed.

Lemma runTask_quiet id w c :
  faults w = [] ->
  find_container id w = Some c ->
  let w2 := set_state id "exited" (set_state id "running" w) in
  runTask id w
  = {| result := Ok tt;
       final := set_retired
                  (set_containers w2 (filter (fun c' => ID c' ≠ id) (containers w2)))
                  (id :: retired w2);
       issued := [ContainerAttach id; ContainerStart id; ReadStream (ContainerOutput id);
                  ContainerRemove id] |}.
Proof.
  intros Hq Hc w2. unfold runTask.
  unfold containerAttach. rewrite bind_wrap_request_quiet by done.
  rewrite (on_container_Some _ _ _ _ Hc). cbn [fst snd]. outcome.
  unfold containerStart. rewrite bind_wrap_request_quiet by done.
  rewrite (on_container_Some _ _ _ _ Hc). cbn [fst snd]. outcome.
  unfold readStream. rewrite bind_wrap_request_quiet by done. cbn [fst snd]. outcome.
  fold w2.
  assert (find_container id w2
          = Some {| ID := ID c; Names := Names c; State := "exited"; Spec := Spec c |}) as Hc2.
  { unfold w2. apply (find_container_set_state id "running") in Hc.
    by apply (find_container_set_state id "exited") in Hc. }
  unfold containerRemove. rewrite bind_request_quiet by done.
  rewrite (on_container_Some _ _ _ _ Hc2). cbn [State].
  rewrite bool_decide_false by done. cbn [fst snd]. done.
Qed.

Lemma set_state_others id st (l : list Container) :
  id ∉ ID <$> l ->
  (fun c => if bool_decide (ID c = id)
            then {| ID := ID c; Names := Names c; State := st; Spec := Spec c |}
            else c) <$> l = l.
Proof.
  induction l as [| c l IH]; [done |].
  change (ID <$> c :: l) with (ID c :: (ID <$> l)). intros [Hc Hl]%not_elem_of_cons.
  change (?f <$> c :: l) with (f c :: (f <$> l)). cbv beta.
  rewrite bool_decide_false by done. by rewrite IH.
Qed.

Lemma filter_others id (l : list Container) :
  id ∉ ID <$> l -> filter (fun c' => ID c' ≠ id) l = l.
Proof.
  induction l as [| c l IH]; [done |].
  change (ID <$> c :: l) with (ID c :: (ID <$> l)). intros [Hc Hl]%not_elem_of_cons.
  rewrite filter_cons_True by (cbv beta; congruence). by rewrite IH.
Qed.

Lemma new_id_no_container w : new_id w ∉ ID <$> containers w.
Proof.
  intros Hin. apply (new_id_fresh w). unfold used_ids. apply elem_of_app. by left.
Qed.

(** The containers once the task container [c] was started, ended and
removed. *)
Lemma task_container_gone c (l : list Container) :
  ID c ∉ ID <$> l ->
  let exited x := if bool_decide (ID x = ID c)
                  then {| ID := ID x; Names := Names x; State := "exited"; Spec := Spec x |}
                  else x in
  let running x := if bool_decide (ID x = ID c)
                   then {| ID := ID x; Names := Names x; State := "running"; Spec := Spec x |}
                   else x in
  filter (fun c' => ID c' ≠ ID c) (exited <$> (running <$> c :: l)) = l.
Proof.
  intros Hl exited running.
  change (running <$> c :: l) with (running c :: (running <$> l)).
  unfold running at 2. rewrite (set_state_others (ID c) "running" l Hl).
  change (exited <$> ?x :: l) with (exited x :: (exited <$> l)).
  unfold exited at 2. rewrite (set_state_others (ID c) "exited" l Hl).
  unfold exited, running. rewrite (bool_decide_true (ID c = ID c)) by done. cbn [ID].
  rewrite (bool_decide_true (ID c = ID c)) by done.
  rewrite filter_cons_False by (cbv beta; cbn [ID]; intros Hne; by apply Hne).
  by apply filter_others.
Qed.

Lemma bind_outcome {A B} (m : M A) (k : A -> M B) w a w' l :
  m w = {| result := Ok a; final := w'; issued := l |} ->
  bind m k w = following l (k a w').
Proof. intros Hm. unfold bind, following. by rewrite Hm. Qed.

(** X17.  A run on a runtime that loses no request, once the check for
composer.json is passed: it returns without error; it asks for the image of
the version in use (2 when none was given) and pulls it exactly when the
runtime has none; it lists the cache volumes of the directory and creates one,
named after the directory and the version, exactly when none is listed; it
creates one container, attaches to it, starts it, copies its output and
removes it; the containers of the runtime are afterwards as they were before,
and the image is there. *)
Theorem composer_run_on_reliable_runtime h args w version action rest wd path :
  faults w = [] ->
  parseArgs args 0 args EmptyString [] = Ok (version, action :: rest) ->
  Getwd h = Ok wd ->
  Abs h wd = Ok path ->
  check_passes h path action ->
  let image := imageRef (effective version) in
  let o := RunE h args w in
  exists id spec,
    result o = Ok tt
    /\ issued o
       = ImageList (Add NewArgs "reference" image)
         :: (if bool_decide (image ∈ images w) then []
             else [ImagePull image; ReadStream (PullOutput image)])
         ++ VolumeList (volumeFilter path)
         :: (match listedVolumes (volumeFilter path) w with
             | [] => [cacheCreate h path (effective version)]
             | _ => []
             end)
         ++ [ContainerCreate spec; ContainerAttach id; ContainerStart id;
             ReadStream (ContainerOutput id); ContainerRemove id]
    /\ (id ∉ (ID <$> containers w))
    /\ containers (final o) = containers w
    /\ image ∈ images (final o).
Proof.
  intros Hq Hparse Hwd Habs Hcheck image o. subst o.
  rewrite (RunE_prepare h args w version action rest wd path) by done.
  unfold prepare. fold image. rewrite bind_assoc.
  rewrite (bind_outcome _ _ _ _ _ _ (ensureImage_quiet image w Hq)).
  destruct (pulled_fields image w) as (Hq1 & Hc1 & Hr1 & Hv1 & Hi1).
  rewrite Hq in Hq1.
  destruct (cacheAndCreate_quiet h (effective version) path (action :: rest)
              (pulled image w) Hq1) as (w1 & spec & Hcreate & Hq2 & Hc2 & Hr2 & Hi2).
  assert (listedVolumes (volumeFilter path) (pulled image w)
          = listedVolumes (volumeFilter path) w) as Hlv
    by (unfold listedVolumes; by rewrite Hv1).
  rewrite Hlv in Hcreate.
  rewrite (bind_outcome _ _ _ _ _ _ Hcreate).
  set (c := {| ID := new_id w1; Names := ["/" +:+ Name spec]; State := "created";
               Spec := spec |}).
  set (w2 := set_containers w1 (c :: containers w1)).
  assert (find_container (new_id w1) w2 = Some c) as Hfind.
  { unfold find_container, w2. cbn [containers set_containers List.find].
    unfold c at 1. cbn [ID]. by rewrite bool_decide_true. }
  rewrite (runTask_quiet (new_id w1) w2 c Hq2 Hfind).
  unfold following. cbn [result final issued]. exists (new_id w1), spec.
  split; [done |]. split.
  { cbn [app]. f_equal. by rewrite <- !app_assoc. }
  split; [rewrite <- Hc1, <- Hc2; apply new_id_no_container |].
  split.
  - cbn [containers set_retired set_containers set_state w2].
    rewrite <- Hc1, <- Hc2.
    exact (task_container_gone c (containers w1) (new_id_no_container w1)).
  - cbn [images set_retired set_containers set_state w2]. by rewrite Hi2.
Qed.

Lemma composer_run_on_reliable_runtime_witness :
  let h := example.host ["/home/U/Proj/composer.json"] in
  let image := imageRef (effective EmptyString) in
  let o := RunE h ["install"] example.world in
  exists id spec,
    result o = Ok tt
    /\ issued o
       = ImageList (Add NewArgs "reference" image)
         :: (if bool_decide (image ∈ images example.world) then []
             else [ImagePull image; ReadStream (PullOutput image)])
         ++ VolumeList (volumeFilter "/home/U/Proj")
         :: (match listedVolumes (volumeFilter "/home/U/Proj") example.world with
             | [] => [cacheCreate h "/home/U/Proj" (effective EmptyString)]
             | _ => []
             end)
         ++ [ContainerCreate spec; ContainerAttach id; ContainerStart id;
             ReadStream (ContainerOutput id); ContainerRemove id]
    /\ (id ∉ (ID <$> containers example.world))
    /\ containers (final o) = containers example.world
    /\ image ∈ images (final o).
Proof.
  exact (composer_run_on_reliable_runtime (example.host ["/home/U/Proj/composer.json"])
           ["install"] example.world EmptyString "install" [] "/home/U/Proj" "/home/U/Proj"
           eq_refl eq_refl eq_refl eq_refl (or_intror eq_refl)).
Defined.




End ComposerFacts.

(** ** A first [init] *)

Section FirstInitFacts.
Import initialize.

Lemma undisturbed_refl w : faults w = [] -> undisturbed w w.
Proof. by intros Hq. Qed.

Lemma undisturbed_trans w w1 w2 : undisturbed w w1 -> undisturbed w1 w2 -> undisturbed w w2.
Proof.
  intros (_ & Hc1 & Hn1) (Hq2 & Hc2 & Hn2). split; [done |]. split; [congruence |].
  intros n Hn. by apply Hn2, Hn1.
Qed.

Lemma reconcileNetwork_quiet env nets w :
  faults w = [] ->
  (forall n, n ∈ nets -> n ∈ networks w) ->
  exists id w1 l,
    reconcileNetwork env nets w = {| result := Ok id; final := w1; issued := l |}
    /\ undisturbed w w1 /\ created_specs l = []
    /\ id ∈ nID <$> networks w1.
Proof.
  intros Hq Hnets. unfold reconcileNetwork. rewrite exactNetwork_last.
  destruct (last _) as [n |] eqn:Hlast.
  - exists (nID n), w, []. split; [done |]. split; [by apply undisturbed_refl |].
    split; [done |]. apply list_elem_of_fmap. exists n. split; [done |].
    apply Hnets. apply last_Some in Hlast as [l' Hl'].
    assert (n ∈ filter (fun n => nName n = env) nets) as Hin.
    { rewrite Hl'. apply elem_of_app. right. by left. }
    by apply list_elem_of_filter in Hin as [_ Hin].
  - cbv zeta. unfold networkCreate. eexists _, _, _.
    split; [erewrite wrap_request_quiet; [reflexivity | done | reflexivity] |].
    cbn [fst snd]. split; [| split; [done |]].
    + split; [done |]. split; [done |]. intros n Hn. cbn [networks set_networks].
      apply elem_of_app. by left.
    + cbn [networks set_networks]. rewrite fmap_app. apply elem_of_app. right.
      cbn. by left.
Qed.

Lemma reconcileVolume_quiet env vols w :
  faults w = [] ->
  exists v w1 l,
    reconcileVolume env vols w = {| result := Ok v; final := w1; issued := l |}
    /\ undisturbed w w1 /\ created_specs l = []
    /\ vName v = env.
Proof.
  intros Hq. unfold reconcileVolume. rewrite exactVolume_last.
  destruct (last _) as [v |] eqn:Hlast.
  - exists v, w, []. split; [done |]. split; [by apply undisturbed_refl |]. split; [done |].
    apply last_Some in Hlast as [l' Hl'].
    assert (v ∈ filter (fun v => vName v = env) vols) as Hin.
    { rewrite Hl'. apply elem_of_app. right. by left. }
    by apply list_elem_of_filter in Hin as [Hin _].
  - cbv zeta. unfold volumeCreate.
    destruct (List.find (fun v => bool_decide (vName v = env)) (volumes w)) as [v |] eqn:Hfind.
    + exists v, w, [VolumeCreate env "local"
                     (<[labels.Volume := env]> (<[labels.Environment := env]> ∅))].
      split; [rewrite (wrap_request_quiet _ _ _ _ v); [by rewrite Hfind | done | by rewrite Hfind] |].
      split; [by apply undisturbed_refl |]. split; [done |].
      apply find_some in Hfind as [_ Hv]. by apply bool_decide_eq_true in Hv.
    + eexists _, _, _.
      split; [erewrite wrap_request_quiet; [reflexivity | done | by rewrite Hfind] |].
      rewrite Hfind. cbn [fst snd]. done.
Qed.

Lemma proxyImage_quiet p p' image (imgs : list string) w :
  faults w = [] ->
  exists w1 l,
    (match imgs with
     | [] => let* rdr := wrap p (imagePull image) in wrap p' (readStream rdr)
     | _ => ret tt
     end) w = {| result := Ok tt; final := w1; issued := l |}
    /\ undisturbed w w1 /\ created_specs l = [].
Proof.
  intros Hq. destruct imgs as [| x imgs].
  - unfold imagePull. rewrite bind_wrap_request_quiet by done. cbn [fst snd]. outcome.
    unfold readStream. eexists _, _. split.
    + erewrite wrap_request_quiet; [reflexivity | by case_bool_decide | reflexivity].
    + cbn [fst snd]. split; [| done]. by case_bool_decide.
  - exists w, []. split; [done |]. split; [by apply undisturbed_refl | done].
Qed.

Lemma networkList_quiet p f w :
  faults w = [] ->
  wrap p (networkList f) w
  = {| result := Ok (filter (fun n => name_holds (nName n) f && labels_hold (nLabels n) f)
                       (networks w));
       final := w; issued := [NetworkList f] |}.
Proof.
  intros Hq. unfold networkList.
  erewrite wrap_request_quiet; [reflexivity | done | reflexivity].
Qed.

Lemma volumeList_quiet p f w :
  faults w = [] ->
  wrap p (volumeList f) w
  = {| result := Ok (listedVolumes f w); final := w; issued := [VolumeList f] |}.
Proof.
  intros Hq. unfold volumeList.
  erewrite wrap_request_quiet; [reflexivity | done | reflexivity].
Qed.

Lemma imageList_quiet p f w :
  faults w = [] ->
  wrap p (imageList f) w
  = {| result := Ok (filter (fun ref => reference_holds ref f) (images w));
       final := w; issued := [ImageList f] |}.
Proof.
  intros Hq. unfold imageList.
  erewrite wrap_request_quiet; [reflexivity | done | reflexivity].
Qed.

Lemma containerList_quiet p all f w :
  faults w = [] ->
  wrap p (containerList all f) w
  = {| result := Ok (listed all f w); final := w; issued := [ContainerList all f] |}.
Proof.
  intros Hq. unfold containerList.
  erewrite wrap_request_quiet; [reflexivity | done | reflexivity].
Qed.

Lemma created_specs_app l l' : created_specs (l ++ l') = created_specs l ++ created_specs l'.
Proof. unfold created_specs. apply omap_app. Qed.

(** X19.  A first [init] on a runtime that loses no request, where no
container is found for the proxy and the ports resolve: run without dependent
commands it returns without error; it sends one container-create request, for
the proxy specification with the resolved ports, a volume that has the
environment name and the id of a network of the runtime; and the container
created is new, has the environment name and is running. *)
Theorem init_creates_proxy_on_reliable_runtime i args w ports :
  faults w = [] ->
  standalone i ->
  resolvePorts i None = Ok ports ->
  findProxy (environment i) (listed true (proxyFilter (environment i)) w)
  = (EmptyString, false) ->
  let o := RunE i args w in
  exists networkID volume id,
    result o = Ok tt
    /\ created_specs (issued o) = [proxySpec i ports volume networkID]
    /\ networkID ∈ (nID <$> networks (final o))
    /\ vName volume = environment i
    /\ (id ∉ (ID <$> containers w))
    /\ find_container id (final o)
       = Some {| ID := id; Names := ["/" +:+ environment i]; State := "running";
                 Spec := proxySpec i ports volume networkID |}.
Proof.
  intros Hq Halone Hports Hnone o. subst o. unfold RunE. cbv zeta.
  (* the network *)
  rewrite (bind_outcome _ _ _ _ _ _ (networkList_quiet _ _ w Hq)).
  destruct (reconcileNetwork_quiet (environment i)
              (filter (fun n => name_holds (nName n) (Add NewArgs "name" (environment i))
                                && labels_hold (nLabels n) (Add NewArgs "name" (environment i)))
                      (networks w)) w Hq)
    as (networkID & w1 & l1 & Hnet & Hw1 & Hl1 & Hid).
  { intros n Hn. by apply list_elem_of_filter in Hn as [_ Hn]. }
  rewrite (bind_outcome _ _ _ _ _ _ Hnet).
  (* the volume *)
  pose proof Hw1 as (Hq1 & _ & _).
  rewrite (bind_outcome _ _ _ _ _ _ (volumeList_quiet _ _ w1 Hq1)).
  destruct (reconcileVolume_quiet (environment i)
              (listedVolumes (Add NewArgs "name" (environment i)) w1) w1 Hq1)
    as (volume & w2 & l2 & Hvol & Hw2 & Hl2 & Hname).
  rewrite (bind_outcome _ _ _ _ _ _ Hvol).
  (* the image *)
  pose proof Hw2 as (Hq2 & _ & _).
  rewrite (bind_outcome _ _ _ _ _ _ (imageList_quiet _ _ w2 Hq2)).
  match goal with |- context [bind (match ?imgs with [] => bind (wrap ?p (imagePull ?image)) _ | _ => _ end) _ _] =>
    destruct (proxyImage_quiet p "unable to read the output from pulling the image, "
                image imgs w2 Hq2) as (w3 & l3 & Himg & Hw3 & Hl3)
  end.
  rewrite (bind_outcome _ _ _ _ _ _ Himg).
  (* the proxy *)
  pose proof (undisturbed_trans _ _ _ Hw2 Hw3) as (_ & _ & Hn13).
  pose proof (undisturbed_trans _ _ _ (undisturbed_trans _ _ _ Hw1 Hw2) Hw3)
    as (Hq3 & Hc3 & _).
  rewrite (bind_outcome _ _ _ _ _ _ (containerList_quiet _ _ _ w3 Hq3)).
  assert (listed true (Add NewArgs "label" (labels.Proxy +:+ "=" +:+ environment i)) w3
          = listed true (proxyFilter (environment i)) w) as ->
    by (unfold listed, proxyFilter; by rewrite Hc3).
  rewrite Hnone. rewrite bool_decide_true by done. rewrite Hports.
  cbn [result final issued negb].
  rewrite bind_assoc, bind_stop_Ok.
  unfold containerCreate. rewrite bind_wrap_request_quiet by done. cbn [fst snd]. outcome.
  set (spec := proxySpec i ports volume networkID).
  set (c := {| ID := new_id w3; Names := ["/" +:+ Name spec]; State := "created";
               Spec := spec |}).
  set (w4 := set_containers w3 (c :: containers w3)).
  assert (find_container (new_id w3) w4 = Some c) as Hfind.
  { unfold find_container, w4. cbn [containers set_containers List.find].
    unfold c at 1. cbn [ID]. by rewrite bool_decide_true. }
  unfold containerStart. rewrite bind_wrap_request_quiet by done.
  rewrite (on_container_Some _ _ _ _ Hfind). cbn [fst snd]. outcome.
  assert (forall w', bind (match parent i with
                           | Some commands =>
                               if negb (nat_.ParseBool (skip_apply i))
                               then runSiblings commands args else ret tt
                           | None => ret tt
                           end) (fun _ => ret tt) w'
                     = {| result := Ok tt; final := w'; issued := [] |}) as ->.
  { intros w'. destruct Halone as [-> | ->]; [done |]. by destruct (parent i). }
  unfold following. cbn [result final issued].
  exists networkID, volume, (new_id w3).
  split; [done |]. split.
  { rewrite !created_specs_app, Hl1, Hl2, Hl3. done. }
  split.
  { cbn [networks set_state set_containers w4].
    apply list_elem_of_fmap in Hid as (n & -> & Hn).
    apply list_elem_of_fmap. exists n. split; [done |]. by apply Hn13. }
  split; [done |]. split.
  { rewrite <- Hc3. apply new_id_no_container. }
  apply (find_container_set_state _ "running") in Hfind. exact Hfind.
Qed.

Lemma init_creates_proxy_on_reliable_runtime_witness :
  let o := RunE (example.init ∅) [] example.world in
  exists networkID volume id,
    result o = Ok tt
    /\ created_specs (issued o)
       = [proxySpec (example.init ∅)
            {| httpPort := "80/tcp"; httpsPort := "443/tcp"; apiPort := "5000/tcp";
               xdebugPort := "9003/tcp" |} volume networkID]
    /\ networkID ∈ (nID <$> networks (final o))
    /\ vName volume = environment (example.init ∅)
    /\ (id ∉ (ID <$> containers example.world))
    /\ find_container id (final o)
       = Some {| ID := id; Names := ["/" +:+ environment (example.init ∅)];
                 State := "running";
                 Spec := proxySpec (example.init ∅)
                           {| httpPort := "80/tcp"; httpsPort := "443/tcp";
                              apiPort := "5000/tcp"; xdebugPort := "9003/tcp" |}
                           volume networkID |}.
Proof.
  assert (resolvePorts (example.init ∅) None
          = Ok {| httpPort := "80/tcp"; httpsPort := "443/tcp"; apiPort := "5000/tcp";
                  xdebugPort := "9003/tcp" |}) as Hports by (vm_compute; reflexivity).
  exact (init_creates_proxy_on_reliable_runtime (example.init ∅) [] example.world _
           eq_refl (or_introl eq_refl) Hports eq_refl).
Defined.


End FirstInitFacts.

(** ** When [create] fails *)

Section CreateFailsFacts.
Import config sitecontainer.

Lemma shape_set_images w x : shape (set_images w x) = shape w.
Proof. done. Qed.

Lemma shape_removed id w :
  shape (set_retired (set_containers w (filter (fun c' => ID c' ≠ id) (containers w)))
           (id :: retired w))
  = filter (fun p => p.1 ≠ id) (shape w).
Proof.
  unfold shape. cbn [containers set_retired set_containers].
  induction (containers w) as [| x l IH]; [done |].
  change ((fun c => (ID c, Spec c)) <$> x :: l)
    with ((ID x, Spec x) :: ((fun c => (ID c, Spec c)) <$> l)).
  destruct (decide (ID x = id)) as [Hx | Hx].
  - rewrite filter_cons_False by (cbv beta; by intros ?).
    rewrite (filter_cons_False _ (ID x, Spec x)); [done |]. cbn [fst]. by intros ?.
  - rewrite filter_cons_True by done.
    rewrite (filter_cons_True _ (ID x, Spec x)) by done.
    change ((fun c => (ID c, Spec c)) <$> x :: ?l')
      with ((ID x, Spec x) :: ((fun c => (ID c, Spec c)) <$> l')).
    by rewrite IH.
Qed.

Lemma find_container_shape id w :
  id ∉ (shape w).*1 -> find_container id w = None.
Proof.
  unfold shape, find_container. induction (containers w) as [| x l IH]; [done |].
  change (((fun c => (ID c, Spec c)) <$> x :: l).*1)
    with (ID x :: ((fun c => (ID c, Spec c)) <$> l).*1).
  intros [Hx Hl]%not_elem_of_cons. cbn [List.find].
  rewrite bool_decide_false by done. by apply IH.
Qed.

Section CreateErrors.
Context `{Helpers}.

(** X20.  When the path of the site cannot be resolved, [create] creates no
container and leaves those of the runtime as they are; but it sends the pull
before it looks at the path: on a runtime that loses no request it has pulled
the image, read the output, and returns the error of [GetAbsPath] as it is. *)
Theorem create_path_error fuel home net site w e :
  GetAbsPath site home = Err e ->
  let o := create fuel home net site w in
  let image := NginxImage (Version site) in
  created_specs (issued o) = []
  /\ shape (final o) = shape w
  /\ (faults w = [] ->
      result o = Err e
      /\ issued o = [ImagePull image; ReadStream (PullOutput image)]
      /\ image ∈ images (final o)).
Proof.
  intros Hpath o image; subst o. unfold create. cbv zeta. fold image.
  unfold imagePull. rewrite bind_wrap_request.
  destruct (lost w) eqn:Hl; outcome.
  { split; [done |]. split; [apply shape_after_fault |].
    intros Hq. by rewrite (lost_quiet w Hq) in Hl. }
  unfold readStream. rewrite bind_wrap_request.
  set (w1 := if bool_decide (image ∈ images (after_fault w)) then after_fault w
             else set_images (after_fault w) (image :: images (after_fault w))).
  assert (shape w1 = shape w /\ faults w1 = faults (after_fault w) /\ image ∈ images w1)
    as (Hs1 & Hq1 & Hi1).
  { unfold w1. case_bool_decide.
    - split; [apply shape_after_fault | done].
    - split; [by rewrite shape_set_images, shape_after_fault |]. split; [done |].
      cbn. by left. }
  destruct (lost w1) eqn:Hl1; outcome.
  { split; [done |]. split; [by rewrite shape_after_fault |].
    intros Hq. rewrite (lost_quiet w1) in Hl1; [done |].
    rewrite Hq1. by apply faults_after_fault. }
  rewrite Hpath, bind_stop_Err. outcome.
  split; [done |]. split; [by rewrite shape_after_fault |].
  intros Hq. split; [done |]. split; [done |].
  by destruct (after_fault_fields w1) as (_ & _ & -> & _).
Qed.

(** X21.  When the archive of the nginx file cannot be made for a site with
a custom document root, on a runtime that loses no request: [create] returns
the error of [archive.Generate], but by then it has created and started the
container, which stays in the runtime, running, without the file and without
any command run in it. *)
Theorem create_archive_error_leaves_container fuel home net site w path e :
  faults w = [] ->
  GetAbsPath site home = Ok path ->
  Dir site ≠ "web" ->
  archive_Generate "default.conf" (nginx_Generate (Dir site)) = Err e ->
  let o := create fuel home net site w in
  result o = Err e
  /\ exec_commands (issued o) = []
  /\ copies (issued o) = []
  /\ exists id,
       (id ∉ (ID <$> containers w))
       /\ find_container id (final o)
          = Some {| ID := id; Names := ["/" +:+ Hostname site]; State := "running";
                    Spec := siteSpec (NginxImage (Version site)) path net site |}.
Proof.
  intros Hq Hpath Hdir Harch o; subst o. unfold create. cbv zeta.
  set (image := NginxImage (Version site)).
  unfold imagePull. rewrite (bind_wrap_request_quiet _ _ _ _ _ Hq). outcome.
  set (w1 := if bool_decide (image ∈ images w) then w else set_images w (image :: images w)).
  assert (faults w1 = [] /\ containers w1 = containers w) as (Hq1 & Hc1)
    by (unfold w1; by case_bool_decide).
  unfold readStream. rewrite (bind_wrap_request_quiet _ _ _ _ _ Hq1). outcome.
  rewrite Hpath, bind_stop_Ok.
  unfold containerCreate. rewrite (bind_wrap_request_quiet _ _ _ _ _ Hq1). outcome.
  set (spec := siteSpec image path net site).
  set (c := {| ID := new_id w1; Names := ["/" +:+ Name spec]; State := "created";
               Spec := spec |}).
  set (w2 := set_containers w1 (c :: containers w1)).
  assert (find_container (new_id w1) w2 = Some c) as Hfind.
  { unfold find_container, w2. cbn [containers set_containers List.find].
    unfold c at 1. cbn [ID]. by rewrite bool_decide_true. }
  unfold provision. rewrite bind_assoc.
  unfold containerStart. rewrite (bind_wrap_request_quiet _ _ _ _ w2) by done.
  rewrite (on_container_Some _ _ _ _ Hfind). outcome.
  rewrite (bool_decide_true (Dir site ≠ "web")) by done. cbv zeta.
  rewrite Harch. rewrite !bind_assoc, bind_stop_Err. outcome.
  split; [done |]. split; [done |]. split; [done |].
  exists (new_id w1). split; [rewrite <- Hc1; apply new_id_no_container |].
  apply (find_container_set_state _ "running") in Hfind. exact Hfind.
Qed.

End CreateErrors.

Lemma not_in_filtered id (l : list (string * CreateSpec)) :
  id ∉ (filter (fun p => p.1 ≠ id) l).*1.
Proof.
  intros Hin. apply list_elem_of_fmap in Hin as (p & Hp & Hin).
  apply list_elem_of_filter in Hin as [Hne _]. by apply Hne.
Qed.

Lemma reliable_set_state n id st w : reliable n (set_state id st w) <-> reliable n w.
Proof. done. Qed.

Section FailedRebuild.
Context `{Helpers}.
Variable match_Site : string -> Site -> Container -> bool.

(** X22.  The replacement of a container is not atomic: when the detector
rejects the container listed first and the first four requests (list, inspect,
stop, remove) are not lost, that container is gone from the runtime however
the call ends; and when the path of the site cannot be resolved the call fails
and the runtime is left with the containers it had less that one: the site has
no container. *)
Theorem StartOrCreate_rebuild_removes_first fuel home net site w c rest d :
  listed true (siteFilter site) w = c :: rest ->
  find_container (ID c) w = Some d ->
  match_Site home site d = false ->
  reliable 4 w ->
  let o := StartOrCreate match_Site fuel home net site w in
  find_container (ID c) (final o) = None
  /\ (forall e, GetAbsPath site home = Err e ->
        is_ok (result o) = false
        /\ shape (final o) = filter (fun p => p.1 ≠ ID c) (shape w)).
Proof.
  intros Hlist Hfind Hdrift Hrel o; subst o. unfold StartOrCreate; cbv zeta.
  fold (siteFilter site).
  (* the query *)
  unfold containerList. rewrite bind_replace_request.
  rewrite (reliable_lost _ _ Hrel). outcome.
  rewrite listed_after_fault, Hlist.
  apply reliable_after_fault in Hrel.
  rewrite <- (find_container_after_fault (ID c) w) in Hfind.
  assert (shape (after_fault w) = shape w) as Hshape by apply shape_after_fault.
  revert Hfind Hrel Hshape. generalize (after_fault w). intros w1 Hfind Hrel Hshape.
  (* the inspection *)
  unfold containerInspect. rewrite bind_request.
  rewrite (reliable_lost _ _ Hrel). outcome.
  rewrite <- (find_container_after_fault (ID c) w1) in Hfind.
  rewrite (on_container_Some _ _ _ _ Hfind). outcome.
  apply reliable_after_fault in Hrel.
  rewrite <- (shape_after_fault w1) in Hshape.
  revert Hfind Hrel Hshape. generalize (after_fault w1). clear w1. intros w1 Hfind Hrel Hshape.
  rewrite Hdrift. cbn [negb].
  (* stop *)
  unfold containerStop. rewrite bind_request.
  rewrite (reliable_lost _ _ Hrel). outcome.
  rewrite <- (find_container_after_fault (ID c) w1) in Hfind.
  rewrite (on_container_Some _ _ _ _ Hfind). outcome.
  apply (find_container_set_state _ "exited") in Hfind.
  apply reliable_after_fault in Hrel.
  apply (reliable_set_state _ (ID c) "exited") in Hrel.
  rewrite <- (shape_after_fault w1), <- (shape_set_state (ID c) "exited") in Hshape.
  revert Hfind Hrel Hshape. generalize (set_state (ID c) "exited" (after_fault w1)).
  clear w1. intros w1 Hfind Hrel Hshape.
  (* remove *)
  unfold containerRemove. rewrite bind_request.
  rewrite (reliable_lost _ _ Hrel). outcome.
  rewrite <- (find_container_after_fault (ID c) w1) in Hfind.
  rewrite (on_container_Some _ _ _ _ Hfind). cbn [State].
  rewrite bool_decide_false by done. outcome.
  set (w' := set_retired _ _).
  assert (ID c ∈ retired w') as Hret by (subst w'; cbn; by left).
  assert (shape w' = filter (fun p => p.1 ≠ ID c) (shape w)) as Hshape'.
  { subst w'. by rewrite shape_removed, shape_after_fault, Hshape. }
  clearbody w'. clear Hfind Hrel Hshape w1.
  (* create *)
  destruct (create_outcome fuel home net site w')
    as [(_ & Hs & _ & Hok) | (id & path & Hpath & _ & Hs & _ & Hid & _)].
  - split.
    + apply find_container_shape. rewrite Hs, Hshape'. apply not_in_filtered.
    + intros e _. split; [done | by rewrite Hs].
  - split.
    + apply find_container_shape. rewrite Hs, Hshape'.
      change (((id, siteSpec (NginxImage (Version site)) path net site) :: ?l).*1)
        with (id :: l.*1).
      apply not_elem_of_cons. split; [| apply not_in_filtered].
      intros Heq. apply Hid. by rewrite <- Heq.
    + intros e He. congruence.
Qed.

End FailedRebuild.

Lemma create_path_error_witness :
  let o := create (H := no_path) 5 "/home/u" "net" example.site example.world in
  let image := NginxImage (Version example.site) in
  created_specs (issued o) = []
  /\ shape (final o) = shape example.world
  /\ (faults example.world = [] ->
      result o = Err "no such directory"
      /\ issued o = [ImagePull image; ReadStream (PullOutput image)]
      /\ image ∈ images (final o)).
Proof.
  exact (create_path_error (H := no_path) 5 "/home/u" "net" example.site example.world
           "no such directory" eq_refl).
Defined.

Lemma create_archive_error_leaves_container_witness :
  let o := create (H := no_archive) 5 "/home/u" "net" example.site example.world in
  result o = Err "cannot write the archive"
  /\ exec_commands (issued o) = []
  /\ copies (issued o) = []
  /\ exists id,
       (id ∉ (ID <$> containers example.world))
       /\ find_container id (final o)
          = Some {| ID := id; Names := ["/" +:+ Hostname example.site]; State := "running";
                    Spec := siteSpec (H := no_archive) (NginxImage (Version example.site))
                              "/home/u/dev/example" "net" example.site |}.
Proof.
  assert (Dir example.site ≠ "web") as Hdir by (by intros ?).
  exact (create_archive_error_leaves_container (H := no_archive) 5 "/home/u" "net"
           example.site example.world "/home/u/dev/example" "cannot write the archive"
           eq_refl eq_refl Hdir eq_refl).
Defined.

Lemma StartOrCreate_rebuild_removes_first_witness :
  let o := StartOrCreate (H := example.helpers) (@match_.Site example.helpers) 5 "/home/u"
             "net" example.site_8 example.reconciled in
  find_container (ID example.first_container) (final o) = None
  /\ (forall e, GetAbsPath (Helpers := example.helpers) example.site_8 "/home/u" = Err e ->
        is_ok (result o) = false
        /\ shape (final o)
           = filter (fun p => p.1 ≠ ID example.first_container) (shape example.reconciled)).
Proof.
  assert (listed true (siteFilter example.site_8) example.reconciled
          = example.first_container :: []) as Hl by (vm_compute; reflexivity).
  assert (find_container (ID example.first_container) example.reconciled
          = Some example.first_container) as Hd by (vm_compute; reflexivity).
  assert (@match_.Site example.helpers "/home/u" example.site_8 example.first_container
          = false) as Hm by (vm_compute; reflexivity).
  assert (reliable 4 example.reconciled) as Hrel.
  { unfold reliable.
    assert (faults example.reconciled = []) as -> by (vm_compute; reflexivity).
    constructor. }
  exact (StartOrCreate_rebuild_removes_first (H := example.helpers)
           (@match_.Site example.helpers) 5 "/home/u" "net" example.site_8
           example.reconciled example.first_container [] example.first_container
           Hl Hd Hm Hrel).
Defined.


End CreateFailsFacts.

(** ** The default ports, and [init] with a proxy in place *)

Section ProxyInPlaceFacts.
Import initialize.

Lemma starts_app l l' : starts (l ++ l') = starts l ++ starts l'.
Proof. apply omap_app. Qed.

Lemma no_starts l : forallb (fun c => negb (is_start c)) l = true -> starts l = [].
Proof.
  induction l as [| c l IH]; [done |]. cbn [forallb].
  intros [Hc Hl]%andb_true_iff. unfold starts in *.
  destruct c; try discriminate Hc; cbn; by apply IH.
Qed.

Lemma findProxy_id_listed env cs :
  (findProxy env cs).1 ≠ EmptyString ->
  exists c, c ∈ cs /\ ID c = (findProxy env cs).1.
Proof.
  induction cs as [| c cs IH] using rev_ind; [done |].
  rewrite findProxy_snoc.
  destruct (proxy_named env c).
  - intros _. exists c. split; [| done]. apply elem_of_app. right. by left.
  - intros Hne. destruct (IH Hne) as (c' & Hin & Hid). exists c'. split; [| done].
    apply elem_of_app. by left.
Qed.

(** X23.  When none of the four port variables is set, the ports of the
proxy are 80, 443, 5000 and 9003 over tcp, whatever the error variable held
before, and the proxy specification exposes these four and publishes each on
the host port of the same number. *)
Theorem resolvePorts_defaults i err :
  Getenv i "NITRO_HTTP_PORT" = EmptyString ->
  Getenv i "NITRO_HTTPS_PORT" = EmptyString ->
  Getenv i "NITRO_API_PORT" = EmptyString ->
  Getenv i "NITRO_XDEBUG_PORT" = EmptyString ->
  resolvePorts i err = Ok defaultPorts
  /\ forall volume networkID,
       let spec := proxySpec i defaultPorts volume networkID in
       ExposedPorts spec = {[ "80/tcp"; "443/tcp"; "5000/tcp"; "9003/tcp" ]}
       /\ published spec "80/tcp" = ["80"]
       /\ published spec "443/tcp" = ["443"]
       /\ published spec "5000/tcp" = ["5000"]
       /\ published spec "9003/tcp" = ["9003"].
Proof.
  intros H1 H2 H3 H4. split.
  - unfold resolvePorts, portSwitch. rewrite H1, H2, H3, H4. reflexivity.
  - intros volume networkID spec. repeat split.
Qed.

Lemma issued_of {A} (m : M A) w r w' l :
  m w = {| result := r; final := w'; issued := l |} -> l = issued (m w).
Proof. by intros ->. Qed.

Lemma reconcileNetwork_no_start env nets :
  sends_only (fun c => negb (is_start c)) (reconcileNetwork env nets).
Proof.
  unfold reconcileNetwork. destruct (exactNetwork env nets) as [[] networkID].
  - apply sends_only_ret.
  - apply sends_only_wrap. unfold networkCreate. by apply sends_only_request.
Qed.

Lemma reconcileVolume_no_start env vols :
  sends_only (fun c => negb (is_start c)) (reconcileVolume env vols).
Proof.
  unfold reconcileVolume. destruct (exactVolume env vols) as [[] [v |]]; try done;
    apply sends_only_wrap; unfold volumeCreate; by apply sends_only_request.
Qed.

(** X24.  [init] on a runtime that loses no request and where a container
is found for the proxy, run without dependent commands: it returns without
error and creates no container; it sends a start request, for the container
found, exactly when no container of that name was found running, and that
container is then running. *)
Theorem init_starts_existing_proxy i args w id proxyRunning :
  faults w = [] ->
  standalone i ->
  findProxy (environment i) (listed true (proxyFilter (environment i)) w) = (id, proxyRunning) ->
  id ≠ EmptyString ->
  let o := RunE i args w in
  result o = Ok tt
  /\ created_specs (issued o) = []
  /\ starts (issued o) = (if proxyRunning then [] else [id])
  /\ (proxyRunning = false ->
      exists c, find_container id (final o) = Some c /\ State c = "running").
Proof.
  intros Hq Halone Hfound Hid o. subst o. unfold RunE. cbv zeta.
  (* the network *)
  rewrite (bind_outcome _ _ _ _ _ _ (networkList_quiet _ _ w Hq)).
  destruct (reconcileNetwork_quiet (environment i)
              (filter (fun n => name_holds (nName n) (Add NewArgs "name" (environment i))
                                && labels_hold (nLabels n) (Add NewArgs "name" (environment i)))
                      (networks w)) w Hq)
    as (networkID & w1 & l1 & Hnet & Hw1 & Hl1 & _).
  { intros n Hn. by apply list_elem_of_filter in Hn as [_ Hn]. }
  rewrite (bind_outcome _ _ _ _ _ _ Hnet).
  assert (starts l1 = []) as Hs1.
  { rewrite (issued_of _ _ _ _ _ Hnet). apply no_starts, reconcileNetwork_no_start. }
  (* the volume *)
  pose proof Hw1 as (Hq1 & _ & _).
  rewrite (bind_outcome _ _ _ _ _ _ (volumeList_quiet _ _ w1 Hq1)).
  destruct (reconcileVolume_quiet (environment i)
              (listedVolumes (Add NewArgs "name" (environment i)) w1) w1 Hq1)
    as (volume & w2 & l2 & Hvol & Hw2 & Hl2 & _).
  rewrite (bind_outcome _ _ _ _ _ _ Hvol).
  assert (starts l2 = []) as Hs2.
  { rewrite (issued_of _ _ _ _ _ Hvol). apply no_starts, reconcileVolume_no_start. }
  (* the image *)
  pose proof Hw2 as (Hq2 & _ & _).
  rewrite (bind_outcome _ _ _ _ _ _ (imageList_quiet _ _ w2 Hq2)).
  match goal with |- context [bind (match ?imgs with [] => bind (wrap ?p (imagePull ?image)) _ | _ => _ end) _ _] =>
    destruct (proxyImage_quiet p "unable to read the output from pulling the image, "
                image imgs w2 Hq2) as (w3 & l3 & Himg & Hw3 & Hl3);
    assert (starts l3 = []) as Hs3
      by (rewrite (issued_of _ _ _ _ _ Himg); apply no_starts;
          destruct imgs; [by apply sends_only_pull | done])
  end.
  rewrite (bind_outcome _ _ _ _ _ _ Himg).
  (* the proxy *)
  pose proof (undisturbed_trans _ _ _ (undisturbed_trans _ _ _ Hw1 Hw2) Hw3)
    as (Hq3 & Hc3 & _).
  rewrite (bind_outcome _ _ _ _ _ _ (containerList_quiet _ _ _ w3 Hq3)).
  assert (listed true (Add NewArgs "label" (labels.Proxy +:+ "=" +:+ environment i)) w3
          = listed true (proxyFilter (environment i)) w) as ->
    by (unfold listed, proxyFilter; by rewrite Hc3).
  assert (exists c, find_container id w3 = Some c) as [c Hc].
  { destruct (findProxy_id_listed (environment i)
                (listed true (proxyFilter (environment i)) w)) as (c & Hin & Hidc).
    { by rewrite Hfound. }
    rewrite Hfound in Hidc. cbn [fst] in Hidc. subst id.
    apply list_elem_of_filter in Hin as [_ Hin]. rewrite <- Hc3 in Hin.
    by apply find_container_elem. }
  rewrite Hfound. rewrite bool_decide_false by done.
  cbn [result final issued]. rewrite bind_ret.
  assert (forall w', bind (match parent i with
                           | Some commands =>
                               if negb (nat_.ParseBool (skip_apply i))
                               then runSiblings commands args else ret tt
                           | None => ret tt
                           end) (fun _ => ret tt) w'
                     = {| result := Ok tt; final := w'; issued := [] |}) as Hrest.
  { intros w'. destruct Halone as [-> | ->]; [done |]. by destruct (parent i). }
  destruct proxyRunning; cbn [negb].
  - rewrite bind_ret, Hrest. unfold following. cbn [result final issued].
    split; [done |]. rewrite !created_specs_app, !starts_app, Hl1, Hl2, Hl3, Hs1, Hs2, Hs3.
    done.
  - unfold containerStart. rewrite bind_wrap_request_quiet by done.
    rewrite (on_container_Some _ _ _ _ Hc). cbn [fst snd]. outcome. rewrite Hrest.
    unfold following. cbn [result final issued].
    split; [done |]. rewrite !created_specs_app, !starts_app, Hl1, Hl2, Hl3, Hs1, Hs2, Hs3.
    split; [done |]. split; [done |]. intros _.
    apply (find_container_set_state _ "running") in Hc. by eexists.
Qed.

Lemma resolvePorts_defaults_witness :
  resolvePorts (example.init ∅) None = Ok defaultPorts
  /\ forall volume networkID,
       let spec := proxySpec (example.init ∅) defaultPorts volume networkID in
       ExposedPorts spec = {[ "80/tcp"; "443/tcp"; "5000/tcp"; "9003/tcp" ]}
       /\ published spec "80/tcp" = ["80"]
       /\ published spec "443/tcp" = ["443"]
       /\ published spec "5000/tcp" = ["5000"]
       /\ published spec "9003/tcp" = ["9003"].
Proof.
  exact (resolvePorts_defaults (example.init ∅) None eq_refl eq_refl eq_refl eq_refl).
Defined.

Lemma init_starts_existing_proxy_witness :
  let w := set_state "1" "exited" (final (RunE (example.init ∅) [] example.world)) in
  let o := RunE (example.init ∅) [] w in
  result o = Ok tt
  /\ created_specs (issued o) = []
  /\ starts (issued o) = (if false then [] else ["1"])
  /\ (false = false ->
      exists c, find_container "1" (final o) = Some c /\ State c = "running").
Proof.
  assert (faults (set_state "1" "exited" (final (RunE (example.init ∅) [] example.world)))
          = []) as Hq by (vm_compute; reflexivity).
  assert (findProxy (environment (example.init ∅))
            (listed true (proxyFilter (environment (example.init ∅)))
               (set_state "1" "exited" (final (RunE (example.init ∅) [] example.world))))
          = ("1", false)) as Hfound by (vm_compute; reflexivity).
  assert ("1" ≠ EmptyString) as Hid by (by intros ?).
  exact (init_starts_existing_proxy (example.init ∅) []
           (set_state "1" "exited" (final (RunE (example.init ∅) [] example.world)))
           "1" false Hq (or_introl eq_refl) Hfound Hid).
Defined.


End ProxyInPlaceFacts.

(** ** Listing the containers of an environment *)

Section ListingFacts.
Import config sitecontainer pkg_client.

(** X25.  [LS] sends one request and no other, the list of the running
containers that carry the environment label with the given name (stopped
containers are not asked for); it leaves the containers, networks, volumes and
images of the runtime as they are; and when the request is lost it returns
"unable to get a list of the containers" with the cause and writes nothing. *)
Theorem LS_sends_one_query report name args w :
  let o := outcome (LS report name args w) in
  issued o = [ContainerList false (environmentFilter name)]
  /\ containers (final o) = containers w
  /\ networks (final o) = networks w
  /\ volumes (final o) = volumes w
  /\ images (final o) = images w
  /\ (lost w = true ->
      result o = Err ("unable to get a list of the containers, " +:+ transport_error)
      /\ printed (LS report name args w) = []).
Proof.
  unfold LS. cbv zeta. fold (environmentFilter name).
  rewrite result_wrap, final_wrap, issued_wrap. unfold containerList.
  rewrite result_request, final_request, issued_request.
  destruct (after_fault_fields w) as (Hn & Hv & Hi & Hc & _).
  destruct (lost w); cbn [fst snd].
  - done.
  - destruct (listed false _ _) as [| c cs]; [done |].
    destruct (describeAll report (c :: cs)) as [out r]. done.
Qed.

(** X26.  When no running container carries the label of the environment,
[LS] returns without error, and all it writes is the message that there are
no containers running for the environment. *)
Theorem LS_nothing_running report name args w :
  lost w = false ->
  listed false (environmentFilter name) w = [] ->
  result (outcome (LS report name args w)) = Ok tt
  /\ printed (LS report name args w)
     = [OutputError ["There are no containers running for the"; name; "environment"]].
Proof.
  intros Hl Hnone. unfold LS. cbv zeta. fold (environmentFilter name).
  rewrite result_wrap. unfold containerList. rewrite result_request, Hl. cbn [fst].
  by rewrite listed_after_fault, Hnone.
Qed.

Lemma describeAll_first_panics report c rest out e :
  describe report c = (out, Panic e) -> describeAll report (c :: rest) = (out, Panic e).
Proof. cbn [describeAll]. by intros ->. Qed.

(** X27.  The network name is fixed: when the first container listed is not
on a network called nitro-dev, whatever the name of the environment, [LS]
panics on a nil pointer after it wrote the heading and the type and hostname
of that container; the colour is not reset. *)
Theorem LS_panics_off_nitro_dev report name args w c rest n ns :
  lost w = false ->
  listed false (environmentFilter name) w = c :: rest ->
  Names c = n :: ns ->
  NetworkSettings (report c) !! "nitro-dev" = None ->
  result (outcome (LS report name args w))
  = Panic "invalid memory address or nil pointer dereference"
  /\ printed (LS report name args w)
     = [OutputInfo ["Listing containers for"; name]; ColorSet "FgGreen";
        Println ["  ==> type:"; containerType (Labels (Spec c)); tab "hostname:";
                 TrimLeft "/" n]].
Proof.
  intros Hl Hlist Hnames Hnet. unfold LS. cbv zeta. fold (environmentFilter name).
  rewrite result_wrap. unfold containerList. rewrite result_request, Hl. cbn [fst].
  rewrite listed_after_fault, Hlist.
  rewrite (describeAll_first_panics report c rest
             [Println ["  ==> type:"; containerType (Labels (Spec c)); tab "hostname:";
                       TrimLeft "/" n]]
             "invalid memory address or nil pointer dereference").
  - done.
  - unfold describe. cbv zeta. by rewrite Hnames, Hnet.
Qed.

(** X28.  A container with the specification [create] gives to site
containers carries no environment label, so that the query of [LS] lists it
for no environment. *)
Theorem LS_skips_site_containers `{Helpers} name w c image path networkID site :
  Spec c = siteSpec image path networkID site ->
  c ∉ listed false (environmentFilter name) w.
Proof.
  intros Hspec Hin. apply list_elem_of_filter in Hin as [Hc _].
  apply andb_prop_elim in Hc as [_ Hc]. rewrite Hspec in Hc.
  unfold labels_hold, environmentFilter in Hc.
  change (values (Add NewArgs "label" ("com.craftcms.nitro.environment=" +:+ name)) "label")
    with ["com.craftcms.nitro.environment=" +:+ name] in Hc.
  cbn [forallb] in Hc. rewrite andb_true_r in Hc.
  unfold label_holds in Hc.
  change (cut "=" ("com.craftcms.nitro.environment=" +:+ name))
    with (let '(a, b) := cut "=" ("=" +:+ name) in
          ("com.craftcms.nitro.environment" +:+ a, b)) in Hc.
  change (cut "=" ("=" +:+ name)) with (EmptyString, Some name) in Hc.
  cbv iota beta in Hc.
  apply bool_decide_unpack in Hc. cbn [Labels siteSpec] in Hc.
  by vm_compute in Hc.
Qed.

Lemma LS_nothing_running_witness :
  result (outcome (LS dev_report "dev" [] example.world)) = Ok tt
  /\ printed (LS dev_report "dev" [] example.world)
     = [OutputError ["There are no containers running for the"; "dev"; "environment"]].
Proof. exact (LS_nothing_running dev_report "dev" [] example.world eq_refl eq_refl). Defined.

Lemma LS_panics_off_nitro_dev_witness :
  let w := final (initialize.RunE (example.init ∅) [] example.world) in
  result (outcome (LS dev_report "dev" [] w))
  = Panic "invalid memory address or nil pointer dereference"
  /\ printed (LS dev_report "dev" [] w)
     = [OutputInfo ["Listing containers for"; "dev"]; ColorSet "FgGreen";
        Println ["  ==> type:";
                 containerType
                   (Labels (initialize.proxySpec (example.init ∅) defaultPorts
                              {| vName := "dev"; vDriver := "local";
                                 vLabels := <[labels.Volume := "dev"]>
                                              (<[labels.Environment := "dev"]> ∅) |} "0"));
                 tab "hostname:"; TrimLeft "/" "/dev"]].
Proof.
  assert (lost (final (initialize.RunE (example.init ∅) [] example.world)) = false) as Hl
    by (vm_compute; reflexivity).
  assert (listed false (environmentFilter "dev")
            (final (initialize.RunE (example.init ∅) [] example.world))
          = {| ID := "1"; Names := ["/dev"]; State := "running";
               Spec := initialize.proxySpec (example.init ∅) defaultPorts
                         {| vName := "dev"; vDriver := "local";
                            vLabels := <[labels.Volume := "dev"]>
                                         (<[labels.Environment := "dev"]> ∅) |} "0" |}
            :: []) as Hlist by (vm_compute; reflexivity).
  exact (LS_panics_off_nitro_dev dev_report "dev" []
           (final (initialize.RunE (example.init ∅) [] example.world)) _ [] "/dev" []
           Hl Hlist eq_refl eq_refl).
Defined.

Lemma LS_skips_site_containers_witness :
  example.first_container ∉ listed false (environmentFilter "dev") example.reconciled.
Proof.
  exact (LS_skips_site_containers (H := example.helpers) "dev" example.reconciled
           example.first_container "docker.io/craftcms/nginx:7.4-dev" "/home/u/dev/example"
           "net" example.site eq_refl).
Defined.


End ListingFacts.

(** ** When the list of the site containers fails *)

Section ListFailsFacts.
Import config sitecontainer.

Section ListFails.
Context `{Helpers}.
Variable match_Site : string -> Site -> Container -> bool.

(** X29.  When the request for the list of the site's containers is lost,
[StartOrCreate] returns "error getting a list of containers", without the
cause, and has sent nothing but that request. *)
Theorem StartOrCreate_list_error_drops_cause fuel home net site w :
  lost w = true ->
  let o := StartOrCreate match_Site fuel home net site w in
  result o = Err "error getting a list of containers"
  /\ issued o = [ContainerList true (siteFilter site)]
  /\ shape (final o) = shape w.
Proof.
  intros Hl o; subst o. unfold StartOrCreate; cbv zeta. fold (siteFilter site).
  unfold containerList. rewrite bind_replace_request, Hl. outcome.
  split; [done |]. split; [done |]. apply shape_after_fault.
Qed.

End ListFails.

Lemma StartOrCreate_list_error_drops_cause_witness :
  let w := set_faults example.reconciled [true] in
  let o := StartOrCreate (H := example.helpers) (@match_.Site example.helpers) 5 "/home/u"
             "net" example.site w in
  result o = Err "error getting a list of containers"
  /\ issued o = [ContainerList true (siteFilter example.site)]
  /\ shape (final o) = shape w.
Proof.
  exact (StartOrCreate_list_error_drops_cause (H := example.helpers)
           (@match_.Site example.helpers) 5 "/home/u" "net" example.site
           (set_faults example.reconciled [true]) eq_refl).
Defined.


End ListFailsFacts.

(** ** [init] when everything is in place *)

Section InPlaceFacts.
Import initialize.

Lemma Contains_refl s : Contains s s = true.
Proof. pose proof (Contains_prefix s EmptyString) as H. by rewrite append_nil_r in H. Qed.

Lemma last_filter_Some {A} (P : A -> Prop) `{!forall x, Decision (P x)} (l : list A) x :
  x ∈ l -> P x -> exists y, last (filter P l) = Some y.
Proof.
  intros Hin HP.
  assert (x ∈ filter P l) as Hf by (by apply list_elem_of_filter).
  destruct (last (filter P l)) as [y |] eqn:E; [by eexists |].
  apply last_None in E. rewrite E in Hf. by apply elem_of_nil in Hf.
Qed.

Lemma name_listed env name :
  name = env -> name_holds name (Add NewArgs "name" env) && labels_hold ∅ [] = true.
Proof.
  intros ->. unfold name_holds.
  change (values (Add NewArgs "name" env) "name") with [env].
  cbn [existsb]. by rewrite Contains_refl.
Qed.

(** X30.  [init] when everything is in place, on a runtime that loses no
request: with a network and a volume named after the environment, the proxy
image present, and a container of the environment name found running, a run
without dependent commands sends the four list requests and no other, returns
without error, and leaves the runtime exactly as it was. *)
Theorem init_in_place_only_lists i args w n v id :
  faults w = [] ->
  standalone i ->
  n ∈ networks w -> nName n = environment i ->
  v ∈ volumes w -> vName v = environment i ->
  proxyImage i ∈ images w ->
  findProxy (environment i) (listed true (proxyFilter (environment i)) w) = (id, true) ->
  id ≠ EmptyString ->
  RunE i args w
  = {| result := Ok tt; final := w;
       issued := [NetworkList (Add NewArgs "name" (environment i));
                  VolumeList (Add NewArgs "name" (environment i));
                  ImageList (Add NewArgs "reference" (proxyImage i));
                  ContainerList true (proxyFilter (environment i))] |}.
Proof.
  intros Hq Halone Hn Hnn Hv Hvn Himg Hfound Hid. unfold RunE. cbv zeta.
  (* the network *)
  rewrite (bind_outcome _ _ _ _ _ _ (networkList_quiet _ _ w Hq)).
  assert (labels_hold (nLabels n) (Add NewArgs "name" (environment i)) = true) as Hlab by done.
  destruct (last_filter_Some (fun n => nName n = environment i)
              (filter (fun n => name_holds (nName n) (Add NewArgs "name" (environment i))
                                && labels_hold (nLabels n) (Add NewArgs "name" (environment i)))
                      (networks w)) n) as [n' Hn']; [| done |].
  { apply list_elem_of_filter. split; [| done].
    apply Is_true_true, andb_true_iff. split; [| done].
    unfold name_holds. change (values (Add NewArgs "name" (environment i)) "name")
      with [environment i].
    cbn [existsb]. by rewrite Hnn, Contains_refl. }
  unfold reconcileNetwork. rewrite exactNetwork_last, Hn'. rewrite bind_ret.
  (* the volume *)
  rewrite (bind_outcome _ _ _ _ _ _ (volumeList_quiet _ _ w Hq)).
  destruct (last_filter_Some (fun v => vName v = environment i)
              (listedVolumes (Add NewArgs "name" (environment i)) w) v) as [v' Hv']; [| done |].
  { apply list_elem_of_filter. split; [| done].
    apply Is_true_true, andb_true_iff. split; [| done].
    unfold name_holds. change (values (Add NewArgs "name" (environment i)) "name")
      with [environment i].
    cbn [existsb]. by rewrite Hvn, Contains_refl. }
  unfold reconcileVolume. rewrite exactVolume_last, Hv'. rewrite bind_ret.
  (* the image *)
  rewrite (bind_outcome _ _ _ _ _ _ (imageList_quiet _ _ w Hq)).
  pose proof (listed_images (proxyImage i) (images w)) as Hl.
  destruct (filter _ (images w)) as [| x l]; [by apply Hl in Himg |].
  rewrite bind_ret.
  (* the proxy *)
  rewrite (bind_outcome _ _ _ _ _ _ (containerList_quiet _ _ _ w Hq)).
  fold (proxyFilter (environment i)). rewrite Hfound.
  rewrite bool_decide_false by done. rewrite !bind_ret. cbn [negb].
  rewrite bind_ret.
  assert (bind (match parent i with
                | Some commands =>
                    if negb (nat_.ParseBool (skip_apply i))
                    then runSiblings commands args else ret tt
                | None => ret tt
                end) (fun _ => ret tt) w
          = {| result := Ok tt; final := w; issued := [] |}) as ->.
  { destruct Halone as [-> | ->]; [done |]. by destruct (parent i). }
  unfold following. cbn [result final issued app]. reflexivity.
Qed.

Lemma init_in_place_only_lists_witness :
  let w := final (RunE (example.init ∅) [] example.world) in
  RunE (example.init ∅) [] w
  = {| result := Ok tt; final := w;
       issued := [NetworkList (Add NewArgs "name" (environment (example.init ∅)));
                  VolumeList (Add NewArgs "name" (environment (example.init ∅)));
                  ImageList (Add NewArgs "reference" (proxyImage (example.init ∅)));
                  ContainerList true (proxyFilter (environment (example.init ∅)))] |}.
Proof.
  assert (faults (final (RunE (example.init ∅) [] example.world)) = []) as Hq
    by (vm_compute; reflexivity).
  assert (networks (final (RunE (example.init ∅) [] example.world))
          = [{| nName := "dev"; nID := "0";
                nLabels := <[labels.Network := "dev"]> (<[labels.Environment := "dev"]> ∅) |}])
    as Hnets by (vm_compute; reflexivity).
  assert (volumes (final (RunE (example.init ∅) [] example.world))
          = [{| vName := "dev"; vDriver := "local";
                vLabels := <[labels.Volume := "dev"]> (<[labels.Environment := "dev"]> ∅) |}])
    as Hvols by (vm_compute; reflexivity).
  assert (images (final (RunE (example.init ∅) [] example.world))
          = [proxyImage (example.init ∅)]) as Himgs by (vm_compute; reflexivity).
  assert (findProxy (environment (example.init ∅))
            (listed true (proxyFilter (environment (example.init ∅)))
               (final (RunE (example.init ∅) [] example.world))) = ("1", true)) as Hfound
    by (vm_compute; reflexivity).
  assert ("1" ≠ EmptyString) as Hid by (by intros ?).
  refine (init_in_place_only_lists (example.init ∅) []
            (final (RunE (example.init ∅) [] example.world))
            {| nName := "dev"; nID := "0";
               nLabels := <[labels.Network := "dev"]> (<[labels.Environment := "dev"]> ∅) |}
            {| vName := "dev"; vDriver := "local";
               vLabels := <[labels.Volume := "dev"]> (<[labels.Environment := "dev"]> ∅) |}
            "1" Hq (or_introl eq_refl) _ eq_refl _ eq_refl _ Hfound Hid).
  - rewrite Hnets. apply list_elem_of_here.
  - rewrite Hvols. apply list_elem_of_here.
  - rewrite Himgs. apply list_elem_of_here.
Defined.


End InPlaceFacts.
